(** * Ultralight (Portal Network client): content admission, state database,
      content keys and the EVM state-manager adaptor.

    A shallow embedding of the TypeScript sources
      - subprotocols/history ContentManager            (addContentToHistory)
      - subprotocols/state/database.ts                 (TrieLevel, StateDB)
      - subprotocols/state StateProtocol               (sendFindContent, findContentLocally)
      - subprotocols/state UltralightStateManager
      - subprotocols/beacon/util.ts                    (content keys)
    Calls into libraries (RLP, SSZ, tries, the network) are parameters of the
    sections that use them; awaited promises are modelled by their outcome. *)

From Stdlib Require Import ZArith NArith Ascii String List Lia.
From Stdlib Require Import Strings.Byte.
From stdpp Require Import base option list gmap strings sorting pretty.

Local Open Scope string_scope.
Local Open Scope list_scope.

(** ** Outcomes of (async) JavaScript functions *)

(** A call either returns (a promise resolves) with a value or throws (the
    promise rejects) with an error message. *)
Inductive Result (A : Type) : Type :=
| Ok (a : A)
| Throw (msg : string).
Arguments Ok {A} a.
Arguments Throw {A} msg.

Definition bytes := list byte.

#[global] Instance byte_eq_decision : EqDecision byte := Byte.byte_eq_dec.

(** ** Hex strings (the [toHexString] helper of the SSZ library)

    [toHexString] writes "0x" followed by two lower-case hex digits per byte. *)
Module Hex.

Definition hexDigit (n : N) : ascii :=
  match n with
  | 0 => "0" | 1 => "1" | 2 => "2" | 3 => "3" | 4 => "4" | 5 => "5"
  | 6 => "6" | 7 => "7" | 8 => "8" | 9 => "9" | 10 => "a" | 11 => "b"
  | 12 => "c" | 13 => "d" | 14 => "e" | _ => "f"
  end%N%char.

Definition hexByByte (b : byte) : string :=
  String (hexDigit (Byte.to_N b / 16)) (String (hexDigit (Byte.to_N b mod 16)) EmptyString).

Fixpoint hexBody (bs : bytes) : string :=
  match bs with
  | [] => EmptyString
  | b :: rest => hexByByte b +:+ hexBody rest
  end.

Definition toHexString (bs : bytes) : string := "0x" +:+ hexBody bs.

(** [s.slice(2)]: the string without its first two characters. *)
Definition slice2 (s : string) : string :=
  match s with
  | String _ (String _ rest) => rest
  | _ => EmptyString
  end.

(** A strict decoder, the inverse of [toHexString] on its image. *)
Definition digitValue (c : ascii) : option N :=
  let n := N_of_ascii c in
  if (48 <=? n)%N && (n <=? 57)%N then Some (n - 48)%N
  else if (97 <=? n)%N && (n <=? 102)%N then Some (n - 87)%N
  else None.

Fixpoint decodeBody (fuel : nat) (s : string) : option bytes :=
  match s with
  | EmptyString => Some []
  | String hi (String lo rest) =>
      match fuel with
      | O => None
      | S fuel' =>
          match digitValue hi, digitValue lo, decodeBody fuel' rest with
          | Some h, Some l, Some bs =>
              match Byte.of_N (16 * h + l) with
              | Some b => Some (b :: bs)
              | None => None
              end
          | _, _, _ => None
          end
      end
  | String _ EmptyString => None
  end.

Definition decodeHex (s : string) : option bytes :=
  match s with
  | String "0" (String "x" rest) => decodeBody (String.length rest) rest
  | _ => None
  end.

(** The decoder as a function that throws on anything [toHexString] does
    not write; an instance of the libraries' hex decoders to run code with. *)
Definition strictHexToBytes (s : string) : Result bytes :=
  match decodeHex s with Some b => Ok b | None => Throw "invalid hex" end.

(** A decoder that reads what the SSZ library's [fromHexString] reads of
    well-formed hex: digits in either case, with or without the "0x" prefix. *)
Definition digitValueAnyCase (c : ascii) : option N :=
  let n := N_of_ascii c in
  if (65 <=? n)%N && (n <=? 70)%N then Some (n - 55)%N else digitValue c.

Fixpoint decodeBodyAnyCase (fuel : nat) (s : string) : option bytes :=
  match s with
  | EmptyString => Some []
  | String hi (String lo rest) =>
      match fuel with
      | O => None
      | S fuel' =>
          match digitValueAnyCase hi, digitValueAnyCase lo, decodeBodyAnyCase fuel' rest with
          | Some h, Some l, Some bs =>
              match Byte.of_N (16 * h + l) with
              | Some b => Some (b :: bs)
              | None => None
              end
          | _, _, _ => None
          end
      end
  | String _ EmptyString => None
  end.

Definition anyCaseHexToBytes (s : string) : Result bytes :=
  let digits :=
    match s with
    | String "0" (String "x" rest) => rest
    | _ => s
    end in
  match decodeBodyAnyCase (String.length digits) digits with
  | Some b => Ok b
  | None => Throw "invalid hex"
  end.

End Hex.
Export Hex.

(** ** History: generalized indices of the header-record proof *)
Module HistoryUtil.

Definition EPOCH_SIZE : N := 8192.

(** Modelled from the spec: the body of [blockNumberToLeafIndex] is not among
    the sources, only the test that calls it is.  The verifier list of the
    specification words it: the inclusion proof is "against the epoch root at
    index blockNumber mod 8192". *)
Definition blockNumberToLeafIndex (blockNumber : N) : N := (blockNumber mod 8192)%N.

(** Modelled from the spec: the body of [blockNumberToGindex] is not among the
    sources either.  The specification words it:
    "gindex = leafIndex + 2 * EPOCH_SIZE". *)
Definition blockNumberToGindex (blockNumber : N) : N :=
  (blockNumberToLeafIndex blockNumber + 2 * EPOCH_SIZE)%N.

(** The four assertions that the repository's test 'utility functions' makes
    about the two functions, whatever their bodies are: it passes when all
    four hold. *)
Definition utility_functions_test (gindex leafIndex : N -> N) : bool :=
  (gindex 1000 =? 34768)%N && (gindex 9192 =? 34768)%N &&
  (leafIndex 1000 =? 2000)%N && (leafIndex 9192 =? 2000)%N.

End HistoryUtil.

(** ** Beacon light-client content keys (subprotocols/beacon/util.ts) *)
Module Beacon.

Inductive BeaconLightClientNetworkContentType : Type :=
| LightClientBootstrap
| LightClientUpdatesByRange
| LightClientFinalityUpdate
| LightClientOptimisticUpdate.

#[global] Instance contentType_eq_decision : EqDecision BeaconLightClientNetworkContentType.
Proof. solve_decision. Defined.

(** The SSZ types of types.ts: the four that util.ts imports and calls
    [deserialize] on, three key types and the list type of the
    updates-by-range content itself, and the key type of that content, which
    util.ts does not import. *)
Module Ssz.
Inductive t : Type :=
| LightClientBootstrapKey
| LightClientFinalityUpdateKey
| LightClientOptimisticUpdateKey
| LightClientUpdatesByRange
| LightClientUpdatesByRangeKey.
End Ssz.

(** The SSZ type the case of each content type deserializes under. *)
Definition deserializedAs (contentType : BeaconLightClientNetworkContentType) : Ssz.t :=
  match contentType with
  | LightClientBootstrap => Ssz.LightClientBootstrapKey
  | LightClientOptimisticUpdate => Ssz.LightClientOptimisticUpdateKey
  | LightClientFinalityUpdate => Ssz.LightClientFinalityUpdateKey
  | LightClientUpdatesByRange => Ssz.LightClientUpdatesByRange
  end.

(** The key type of each content type, under which the body of its content
    key is serialized. *)
Definition keyTypeOf (contentType : BeaconLightClientNetworkContentType) : Ssz.t :=
  match contentType with
  | LightClientBootstrap => Ssz.LightClientBootstrapKey
  | LightClientOptimisticUpdate => Ssz.LightClientOptimisticUpdateKey
  | LightClientFinalityUpdate => Ssz.LightClientFinalityUpdateKey
  | LightClientUpdatesByRange => Ssz.LightClientUpdatesByRangeKey
  end.

Section ContentKeys.
(** The numeric value of each enum member (declared in types.ts), as the
    byte that [new Uint8Array(1).fill(contentType)] holds. *)
Variable selectorOf : BeaconLightClientNetworkContentType -> byte.
(** [deserialize] of an SSZ type, which throws on malformed input. *)
Variable Decoded : Type.
Variable deserialize : Ssz.t -> bytes -> Result Decoded.

Definition getBeaconContentKey
    (contentType : BeaconLightClientNetworkContentType) (serializedKey : bytes) : string :=
  let prefix := [selectorOf contentType] in
  toHexString prefix +:+ slice2 (toHexString serializedKey).

Definition decodeBeaconContentKey (serializedKey : bytes) : Result Decoded :=
  match serializedKey with
  | [] => Throw "unknown content type undefined"
  | selector :: contentKeyBytes =>
      if Byte.eqb selector (selectorOf LightClientBootstrap) then
        deserialize Ssz.LightClientBootstrapKey contentKeyBytes
      else if Byte.eqb selector (selectorOf LightClientOptimisticUpdate) then
        deserialize Ssz.LightClientOptimisticUpdateKey contentKeyBytes
      else if Byte.eqb selector (selectorOf LightClientFinalityUpdate) then
        deserialize Ssz.LightClientFinalityUpdateKey contentKeyBytes
      else if Byte.eqb selector (selectorOf LightClientUpdatesByRange) then
        deserialize Ssz.LightClientUpdatesByRange contentKeyBytes
      else Throw ("unknown content type " +:+ pretty (Byte.to_N selector))
  end.
End ContentKeys.

(** The enum values of the Portal beacon specification, used to run the
    functions on concrete keys. *)
Definition portalSelector (t : BeaconLightClientNetworkContentType) : byte :=
  match t with
  | LightClientBootstrap => x00
  | LightClientUpdatesByRange => x01
  | LightClientFinalityUpdate => x02
  | LightClientOptimisticUpdate => x03
  end.

(** Deserializers to run the decoder with.  A key type takes any body as it
    is.  The list type of the updates reads a non-empty body as a list of
    variable-size items: its first four bytes are a little-endian offset,
    which has to be a positive multiple of four within the body. *)
Definition sampleDeserialize (type : Ssz.t) (body : bytes) : Result bytes :=
  match type, body with
  | Ssz.LightClientUpdatesByRange, b0 :: b1 :: b2 :: b3 :: _ =>
      let offset :=
        (Byte.to_N b0 + 256 * (Byte.to_N b1 + 256 * (Byte.to_N b2 + 256 * Byte.to_N b3)))%N in
      if (0 <? offset)%N && (offset mod 4 =? 0)%N && (offset <=? N.of_nat (length body))%N
      then Ok body
      else Throw "invalid offset"
  | Ssz.LightClientUpdatesByRange, _ :: _ => Throw "invalid offset"
  | _, _ => Ok body
  end.

(** The serialized key of the updates from period 1, count 2: two
    little-endian 64-bit numbers. *)
Definition updatesFromPeriod1Count2 : bytes :=
  [x01; x00; x00; x00; x00; x00; x00; x00; x02; x00; x00; x00; x00; x00; x00; x00].

End Beacon.

(** ** The state sub-protocol (StateProtocol) *)
Module StateNetwork.

(** [MessageCodes.CONTENT], the selector byte of a CONTENT message. *)
Definition MessageCodes_CONTENT : N := 5.

(** The CONTENT union: selector 0 carries a uTP connection id, selector 1 the
    content itself, selector 2 a list of ENRs. *)
Inductive ContentMessage : Type :=
| FoundUTP (value : bytes)
| FoundCONTENT (value : bytes)
| FoundENRS (value : list bytes).

Inductive RequestCode : Type :=
| FOUNDCONTENT_WRITE | FINDCONTENT_READ | OFFER_WRITE | ACCEPT_READ.

(** The argument of [handleNewRequest]; [protocolId] is always
    [ProtocolId.StateNetwork] here and is left out. *)
Record NewRequest : Type := {
  contentKeys : list bytes;
  peerId : string;
  connectionId : N;
  requestCode : RequestCode;
  contents : list bytes;
}.

(** What the protocol object holds, as far as these methods touch it: the
    content database of the state network and the transfer requests handed to
    the uTP layer. *)
Record Protocol : Type := {
  db : gmap string string;
  requests : list NewRequest;
}.

(** [new DataView(value.buffer).getUint16(0, false)]: the first two bytes as a
    big-endian integer; a RangeError when there are fewer than two.  The
    deserialized union value is a fresh array, so its buffer starts at its
    first byte. *)
Definition getUint16 (value : bytes) : option N :=
  match value with
  | b0 :: b1 :: _ => Some (256 * Byte.to_N b0 + Byte.to_N b1)%N
  | _ => None
  end.

(** Modelled from the spec: [BaseProtocol.retrieve] of the protocol base class
    is not among the sources; the content-store lookup returns the value or
    absent ([undefined]). *)
Definition retrieve (p : Protocol) (contentKey : string) : option string :=
  db p !! contentKey.

(** [this.put(ProtocolId.StateNetwork, contentKey, content)]. *)
Definition stateStore (p : Protocol) (contentKey content : string) : Protocol :=
  {| db := <[contentKey := content]> (db p); requests := requests p |}.

Section Methods.
Variable ENR : Type.
(** [ENR.decodeTxt], the routing table's [getWithPending(id)?.value], the
    wire codec and the transport. *)
Variable decodeTxt : string -> Result ENR.
Variable getWithPending : string -> option ENR.
Variable serializeFindContent : bytes -> bytes.
Variable sendMessage : ENR -> bytes -> Result bytes.
Variable deserializeContent : bytes -> Result ContentMessage.
(** [decodeHistoryNetworkContentKey] splits the hex key into a type and a
    hash; both are only logged. *)
Variable decodeHistoryNetworkContentKey : string -> N * string.
(** [hexToBytes] of the ethereumjs utilities. *)
Variable hexToBytes : string -> Result bytes.

Definition resolveEnr (dstId : string) : Result (option ENR) :=
  if String.prefix "enr:" dstId then
    match decodeTxt dstId with
    | Ok e => Ok (Some e)
    | Throw m => Throw m
    end
  else
    match getWithPending dstId with
    | Some e => Ok (Some e)
    | None => Ok (getWithPending (slice2 dstId))
    end.

(** [BaseProtocol.handleNewRequest] hands the request to the uTP layer. *)
Definition handleNewRequest (p : Protocol) (r : NewRequest) : Protocol :=
  {| db := db p; requests := requests p ++ [r] |}.

(** The body of the [try] block once the first byte is known to be
    [MessageCodes.CONTENT]; [None] stands for an exception, which the
    surrounding [catch] logs before the method returns [undefined]. *)
Definition onContent (p : Protocol) (dstId : string) (key payload : bytes)
    : option ContentMessage * Protocol :=
  match deserializeContent payload with
  | Throw _ => (None, p)
  | Ok decoded =>
      let contentKey := decodeHistoryNetworkContentKey (toHexString key) in
      match decoded with
      | FoundUTP value =>
          match getUint16 value with
          | None => (None, p)
          | Some id =>
              (Some decoded,
               handleNewRequest p
                 {| contentKeys := [key]; peerId := dstId; connectionId := id;
                    requestCode := FINDCONTENT_READ; contents := [] |})
          end
      | FoundCONTENT value =>
          (Some decoded, stateStore p (toHexString key) (toHexString value))
      | FoundENRS _ => (Some decoded, p)
      end
  end.

(** [sendFindContent]: the result is the decoded union or [undefined]. *)
Definition sendFindContent (p : Protocol) (dstId : string) (key : bytes)
    : Result (option ContentMessage) * Protocol :=
  match resolveEnr dstId with
  | Throw m => (Throw m, p)
  | Ok None => (Ok None, p)
  | Ok (Some enr) =>
      let payload := serializeFindContent key in
      match sendMessage enr payload with
      | Throw m => (Throw m, p)
      | Ok res =>
          match res with
          | [] => (Ok None, p)
          | code :: rest =>
              if (Byte.to_N code =? MessageCodes_CONTENT)%N then
                let '(r, p') := onContent p dstId key rest in (Ok r, p')
              else (Ok None, p)
          end
      end
  end.

(** [findContentLocally]: an absent ([undefined]) or empty value is falsy. *)
Definition findContentLocally (p : Protocol) (contentKey : bytes) : Result bytes :=
  match retrieve p (toHexString contentKey) with
  | Some (String c s) => hexToBytes (String c s)
  | Some EmptyString | None => hexToBytes "0x"
  end.
End Methods.

End StateNetwork.

(** ** The EVM state-manager adaptor (UltralightStateManager) *)
Module StateManager.

Section Manager.
(** The state network the manager reads from, and the EVM's addresses and
    accounts. *)
Context {StateNetwork : Type}.
Context {Address Account : Type}.

Record UltralightStateManager : Type := {
  state : StateNetwork;
  stateRoot : string;
  stateRootBytes : bytes;
}.

Definition constructor (stateNetwork : StateNetwork) : UltralightStateManager :=
  {| state := stateNetwork; stateRoot := ""; stateRootBytes := [] |}.

Definition notImplemented {A} (m : UltralightStateManager) : Result A * UltralightStateManager :=
  (Throw "Method not implemented.", m).

Definition putAccount (m : UltralightStateManager) (address : Address) (account : option Account)
    : Result unit * UltralightStateManager := (Ok tt, m).
Definition deleteAccount (m : UltralightStateManager) (address : Address)
    : Result unit * UltralightStateManager := notImplemented m.
Definition modifyAccountFields (m : UltralightStateManager) (address : Address) (accountFields : Account)
    : Result unit * UltralightStateManager := notImplemented m.
Definition putContractCode (m : UltralightStateManager) (address : Address) (value : bytes)
    : Result unit * UltralightStateManager := notImplemented m.
Definition putContractStorage (m : UltralightStateManager) (address : Address) (key value : bytes)
    : Result unit * UltralightStateManager := notImplemented m.
Definition clearContractStorage (m : UltralightStateManager) (address : Address)
    : Result unit * UltralightStateManager := notImplemented m.
Definition checkpoint (m : UltralightStateManager)
    : Result unit * UltralightStateManager := (Ok tt, m).
Definition commit (m : UltralightStateManager)
    : Result unit * UltralightStateManager := (Ok tt, m).
Definition revert (m : UltralightStateManager)
    : Result unit * UltralightStateManager := notImplemented m.
Definition getStateRoot (m : UltralightStateManager)
    : Result bytes * UltralightStateManager := (Ok (stateRootBytes m), m).
(** [bytesToHex] writes the same "0x" hex string as [toHexString]. *)
Definition setStateRoot (m : UltralightStateManager) (root : bytes)
    : Result unit * UltralightStateManager :=
  (Ok tt, {| state := state m; stateRoot := toHexString root; stateRootBytes := root |}).

(** The calls a client can make on the mutating side of the interface. *)
Inductive Call : Type :=
| PutAccount (address : Address) (account : option Account)
| DeleteAccount (address : Address)
| ModifyAccountFields (address : Address) (accountFields : Account)
| PutContractCode (address : Address) (value : bytes)
| PutContractStorage (address : Address) (key value : bytes)
| ClearContractStorage (address : Address)
| Checkpoint
| Commit
| Revert
| SetStateRoot (root : bytes).

Definition perform (m : UltralightStateManager) (c : Call) : Result unit * UltralightStateManager :=
  match c with
  | PutAccount a acc => putAccount m a acc
  | DeleteAccount a => deleteAccount m a
  | ModifyAccountFields a f => modifyAccountFields m a f
  | PutContractCode a v => putContractCode m a v
  | PutContractStorage a k v => putContractStorage m a k v
  | ClearContractStorage a => clearContractStorage m a
  | Checkpoint => checkpoint m
  | Commit => commit m
  | Revert => revert m
  | SetStateRoot r => setStateRoot m r
  end.

(** A client's session: the calls in order, exceptions caught by the
    client. *)
Definition session (m : UltralightStateManager) (cs : list Call) : UltralightStateManager :=
  foldl (fun m c => snd (perform m c)) m cs.

(** The argument of the last [setStateRoot] among the calls, if any. *)
Fixpoint lastRoot (cs : list Call) (default : bytes) : bytes :=
  match cs with
  | [] => default
  | SetStateRoot r :: cs' => lastRoot cs' r
  | _ :: cs' => lastRoot cs' default
  end.
End Manager.

End StateManager.

(** ** JavaScript numbers obtained from big integers *)
Module JSNumber.

(** The doubles that [Number(x)] can return for a BigInt [x]: an integer
    value or an infinity (never NaN, never a fraction). *)
Inductive t : Type :=
| Finite (v : Z)
| PosInfinity
| NegInfinity.

(** Rounding of a positive magnitude to 53 significant bits, to nearest with
    ties to even; [None] when the rounded value reaches [2^1024]. *)
Definition roundMagnitude (a : Z) : option Z :=
  if (a <? 2 ^ 53)%Z then Some a
  else
    let e := (Z.log2 a - 52)%Z in
    let m := Z.shiftr a e in
    let r := (a - Z.shiftl m e)%Z in
    let half := Z.shiftl 1 (e - 1) in
    let m' := if (half <? r)%Z || ((r =? half)%Z && Z.odd m) then (m + 1)%Z else m in
    let v := Z.shiftl m' e in
    if (v <? 2 ^ 1024)%Z then Some v else None.

Definition Number (x : Z) : t :=
  match x with
  | Z0 => Finite 0
  | Zpos _ =>
      match roundMagnitude x with Some v => Finite v | None => PosInfinity end
  | Zneg _ =>
      match roundMagnitude (- x) with Some v => Finite (- v) | None => NegInfinity end
  end.

(** [v > 0] and [v < 0], the two tests a sort makes on a comparator's result. *)
Definition isPositive (v : t) : bool :=
  match v with Finite z => (0 <? z)%Z | PosInfinity => true | NegInfinity => false end.
Definition isNegative (v : t) : bool :=
  match v with Finite z => (z <? 0)%Z | PosInfinity => false | NegInfinity => true end.

End JSNumber.

(** ** JavaScript collections in iteration order *)
Module JS.

(** A [Map] (or a plain object whose keys are not array indices, such as the
    "0x..." state roots) iterates in insertion order: an association list
    without repeated keys.  [set] overwrites in place or appends. *)
Section Keyed.
Context {V : Type}.

Fixpoint get (k : string) (m : list (string * V)) : option V :=
  match m with
  | [] => None
  | (k', v) :: rest => if String.eqb k k' then Some v else get k rest
  end.

Fixpoint set (k : string) (v : V) (m : list (string * V)) : list (string * V) :=
  match m with
  | [] => [(k, v)]
  | (k', v') :: rest =>
      if String.eqb k k' then (k, v) :: rest else (k', v') :: set k v rest
  end.

Fixpoint delete (k : string) (m : list (string * V)) : list (string * V) :=
  match m with
  | [] => []
  | (k', v') :: rest =>
      if String.eqb k k' then rest else (k', v') :: delete k rest
  end.

Definition keys (m : list (string * V)) : list string := map fst m.

(** [Object.fromEntries]. *)
Definition fromEntries (entries : list (string * V)) : list (string * V) :=
  foldl (fun m e => set (fst e) (snd e) m) [] entries.
End Keyed.

(** A [Set] of strings, in insertion order. *)
Definition add (x : string) (s : list string) : list string :=
  if existsb (String.eqb x) s then s else s ++ [x].

(** [Array.prototype.sort(compareFn)]: a stable sort, in which [a] stays
    before a later [b] unless [compareFn(a, b) > 0].  The engine's algorithm
    is its own, but for a comparator whose sign orders the elements every
    stable sort returns the same array; it is computed here by insertion.
    The comparator may throw. *)
Section Sort.
Context {A : Type}.
Variable compareFn : A -> A -> Result JSNumber.t.

Fixpoint insert (x : A) (sorted : list A) : Result (list A) :=
  match sorted with
  | [] => Ok [x]
  | y :: rest =>
      match compareFn x y with
      | Throw m => Throw m
      | Ok v =>
          if JSNumber.isPositive v then
            match insert x rest with
            | Ok rest' => Ok (y :: rest')
            | Throw m => Throw m
            end
          else Ok (x :: y :: rest)
      end
  end.

Fixpoint sort (l : list A) : Result (list A) :=
  match l with
  | [] => Ok []
  | x :: rest =>
      match sort rest with
      | Ok sorted => insert x sorted
      | Throw m => Throw m
      end
  end.
End Sort.

End JS.

(** ** The state database (subprotocols/state/database.ts) *)
Module StateDatabase.

Inductive TrieLevelStatus : Type := Opening | Open | Closing | Closed.

(** A [MemoryLevel] database: its entries, its status, and the number of
    100 ms polls after which an opening database reports 'open'. *)
Record MemoryLevel : Type := {
  entries : gmap string string;
  status : TrieLevelStatus;
  latency : nat;
}.

(** A [TrieLevel] wraps a reference to a database; wrappers made by
    [new TrieLevel(x.db)] or [copy()] share it. *)
Record TrieLevel : Type := { level_db : nat }.

Record Trie : Type := { trie_database : TrieLevel; trie_root : bytes }.

(** The fields of an ethereumjs [Account]; nonce and balance are BigInts. *)
Record Account : Type := {
  nonce : Z;
  balance : Z;
  storageRoot : bytes;
  codeHash : bytes;
}.

Record AccountRecord : Type := {
  address : string;
  accounts : list (string * Account);
}.

(** The database a fresh sublevel ends up with once it is open. *)
Definition opened : MemoryLevel := {| entries := ∅; status := Open; latency := O |}.

Inductive BatchDBOp : Type :=
| OpPut (key value : bytes)
| OpDel (key : bytes).

(** [Trie.create({ db, root })] of the trie library: the constructor takes
    the root it is given only if it has the length of a hash, 32 bytes, and
    throws otherwise. *)
Definition Trie_create (db : TrieLevel) (root : bytes) : Result Trie :=
  if (length root =? 32)%nat then Ok {| trie_database := db; trie_root := root |}
  else Throw "Invalid root length. Roots are 32 bytes".

(** The value of a call of an async function that is not awaited: a promise
    for the outcome.  A promise is an object, and an object is truthy
    whatever it settles to. *)
Definition promiseIsTruthy {A : Type} (outcome : A) : bool := true.

(** The comparator of [sortAccountRecord]; reading a field of a missing
    property is a TypeError. *)
Definition compareRoots (accountRecord : AccountRecord) (root1 root2 : string)
    : Result JSNumber.t :=
  match JS.get root1 (accounts accountRecord), JS.get root2 (accounts accountRecord) with
  | Some a1, Some a2 =>
      if (nonce a1 =? nonce a2)%Z
      then Ok (JSNumber.Number (balance a1 - balance a2))
      else Ok (JSNumber.Number (nonce a1 - nonce a2))
  | _, _ => Throw "TypeError: Cannot read properties of undefined"
  end.

(** [sortedRoots.map((root) => [root, accountRecord.accounts[root]])]. *)
Fixpoint entriesOf (accountRecord : AccountRecord) (roots : list string)
    : Result (list (string * Account)) :=
  match roots with
  | [] => Ok []
  | root :: rest =>
      match JS.get root (accounts accountRecord), entriesOf accountRecord rest with
      | Some a, Ok es => Ok ((root, a) :: es)
      | None, _ => Throw "TypeError: Cannot read properties of undefined"
      | _, Throw m => Throw m
      end
  end.

Definition sortAccountRecord (accountRecord : AccountRecord) : Result AccountRecord :=
  let roots := JS.keys (accounts accountRecord) in
  match JS.sort (compareRoots accountRecord) roots with
  | Throw m => Throw m
  | Ok sortedRoots =>
      match entriesOf accountRecord sortedRoots with
      | Throw m => Throw m
      | Ok es => Ok {| address := address accountRecord; accounts := JS.fromEntries es |}
      end
  end.

(** The order the specification asks for: (nonce, balance) as integers. *)
Definition sortKey (a : Account) : Z * Z := (nonce a, balance a).
Definition keyLt (k1 k2 : Z * Z) : Prop :=
  (fst k1 < fst k2)%Z \/ (fst k1 = fst k2 /\ (snd k1 < snd k2)%Z).
Definition keyLe (k1 k2 : Z * Z) : Prop := keyLt k1 k2 \/ k1 = k2.
Definition entryLe (e1 e2 : string * Account) : Prop :=
  keyLe (sortKey (snd e1)) (sortKey (snd e2)).

(** The entries whose root reads back its account from the record. *)
Definition readsBack (accountRecord : AccountRecord) (e : string * Account) : Prop :=
  JS.get (fst e) (accounts accountRecord) = Some (snd e).

Section StateDB.
(** The state-root index (stateroots.ts), the hex decoder, the trie library,
    the addresses of the util library and the state manager reading accounts
    out of a trie. *)
Context {StateRootIndex Address : Type}.
Variable StateRootIndex_from : list (list string) -> StateRootIndex.
Variable StateRootIndex_update : StateRootIndex -> list (list string) -> StateRootIndex.
Variable fromHexString : string -> Result bytes.
Variable openLatency : nat -> nat.
(** Whether the proof verifies: what the promise returned by the async
    [trie.verifyProof(root, key, proof)] settles to. *)
Variable verifyProof : bytes -> bytes -> list bytes -> bool.
Variable keccak256 : bytes -> bytes.
Variable EMPTY_TRIE_ROOT : bytes.
(** [Address.fromString(addr)], which throws for a string that is not the
    hex string of an address. *)
Variable Address_fromString : string -> Result Address.
(** [accountExists] and [getAccount] of a state manager over a trie with the
    given database entries and root. *)
Variable accountExists : gmap string string -> bytes -> Address -> bool.
Variable getAccountAt : gmap string string -> bytes -> Address -> Account.

Record StateDB : Type := {
  accountTries : list (string * TrieLevel);
  knownAddresses : list string;
  stateRootIndex : StateRootIndex;
}.

(** The databases allocated so far, and the [StateDB] object. *)
Record Store : Type := {
  levels : list MemoryLevel;
  this : StateDB;
}.

Definition constructor : StateDB :=
  {| accountTries := []; knownAddresses := []; stateRootIndex := StateRootIndex_from [] |}.

(** Computations on the store: [None] is a call that never returns. *)
Definition Run (A : Type) : Type := Store -> option (Result A * Store).

Definition ret {A} (a : A) : Run A := fun s => Some (Ok a, s).
Definition throw {A} (msg : string) : Run A := fun s => Some (Throw msg, s).
Definition bind {A B} (c : Run A) (k : A -> Run B) : Run B :=
  fun s =>
    match c s with
    | None => None
    | Some (Throw m, s') => Some (Throw m, s')
    | Some (Ok a, s') => k a s'
    end.
Definition modifyThis (f : StateDB -> StateDB) : Run unit :=
  fun s => Some (Ok tt, {| levels := levels s; this := f (this s) |}).
Definition modifyLevel (l : TrieLevel) (f : MemoryLevel -> MemoryLevel) : Run unit :=
  fun s => Some (Ok tt, {| levels := alter f (level_db l) (levels s); this := this s |}).
Definition liftResult {A} (r : Result A) : Run A :=
  match r with Ok a => ret a | Throw m => throw m end.

Notation "x <- c1 ;; c2" := (bind c1 (fun x => c2))
  (at level 100, c1 at next level, right associativity).
Notation "c1 ;;; c2" := (bind c1 (fun _ => c2))
  (at level 100, right associativity).

Fixpoint mapRun {A B} (f : A -> Run B) (l : list A) : Run (list B) :=
  match l with
  | [] => ret []
  | x :: rest => y <- f x ;; ys <- mapRun f rest ;; ret (y :: ys)
  end.

(** *** TrieLevel *)

(** [new TrieLevel()]: a fresh [MemoryLevel], opening. *)
Definition newTrieLevel : Run TrieLevel :=
  fun s =>
    let l := length (levels s) in
    Some (Ok {| level_db := l |},
          {| levels := levels s ++ [{| entries := ∅; status := Opening; latency := openLatency l |}];
             this := this s |}).

Definition TrieLevel_status (l : TrieLevel) (s : Store) : option TrieLevelStatus :=
  status <$> levels s !! level_db l.

(** [db.open()] on a database that is opening or open changes nothing; a
    closed one starts opening. *)
Definition TrieLevel_open (l : TrieLevel) : Run unit :=
  modifyLevel l (fun m =>
    match status m with
    | Closed => {| entries := entries m; status := Opening; latency := latency m |}
    | _ => m
    end).

Definition TrieLevel_get (l : TrieLevel) (key : bytes) : Run (option bytes) :=
  fun s =>
    match levels s !! level_db l with
    | Some m =>
        match entries m !! toHexString key with
        | Some v =>
            match fromHexString v with
            | Ok b => Some (Ok (Some b), s)
            | Throw _ => Some (Ok None, s)
            end
        | None => Some (Ok None, s)
        end
    | None => Some (Ok None, s)
    end.

Definition TrieLevel_put (l : TrieLevel) (key val : bytes) : Run unit :=
  modifyLevel l (fun m =>
    {| entries := <[toHexString key := toHexString val]> (entries m);
       status := status m; latency := latency m |}).

Definition TrieLevel_del (l : TrieLevel) (key : bytes) : Run unit :=
  modifyLevel l (fun m =>
    {| entries := base.delete (toHexString key) (entries m);
       status := status m; latency := latency m |}).

Fixpoint TrieLevel_batch (l : TrieLevel) (opStack : list BatchDBOp) : Run unit :=
  match opStack with
  | [] => ret tt
  | OpDel k :: rest => TrieLevel_del l k ;;; TrieLevel_batch l rest
  | OpPut k v :: rest => TrieLevel_put l k v ;;; TrieLevel_batch l rest
  end.

Definition TrieLevel_copy (l : TrieLevel) : TrieLevel := {| level_db := level_db l |}.

(** 100 ms pass for a database: an opening one counts down, then is open. *)
Definition elapse (m : MemoryLevel) : MemoryLevel :=
  match status m, latency m with
  | Opening, O => {| entries := entries m; status := Open; latency := O |}
  | Opening, S n => {| entries := entries m; status := Opening; latency := n |}
  | _, _ => m
  end.

(** [while (sub.status !== 'open') await new Promise(r => setTimeout(r, 100))]. *)
Fixpoint whileNotOpen (fuel : nat) (sub : TrieLevel) : Run unit :=
  fun s =>
    match TrieLevel_status sub s with
    | Some Open => Some (Ok tt, s)
    | _ =>
        match fuel with
        | O => None
        | S fuel' => (modifyLevel sub elapse ;;; whileNotOpen fuel' sub) s
        end
    end.

(** The polls after which an opening database is open; a database in
    another state never opens by waiting. *)
Definition pollsNeeded (sub : TrieLevel) (s : Store) : nat :=
  match levels s !! level_db sub with
  | Some m => S (latency m)
  | None => O
  end.

(** *** StateDB *)

Definition putSublevel (stateRoot : bytes) (sublevel : TrieLevel) : Run TrieLevel :=
  modifyThis (fun d =>
    {| accountTries := JS.set (toHexString stateRoot) sublevel (accountTries d);
       knownAddresses := knownAddresses d; stateRootIndex := stateRootIndex d |}) ;;;
  ret sublevel.

Definition addRoot (stateRoot : bytes) : Run TrieLevel :=
  sub <- newTrieLevel ;;
  putSublevel stateRoot sub ;;;
  TrieLevel_open sub ;;;
  (fun s => whileNotOpen (pollsNeeded sub s) sub s) ;;;
  ret sub.

Definition getSublevel (stateRoot : bytes) : Run TrieLevel :=
  fun s =>
    match JS.get (toHexString stateRoot) (accountTries (this s)) with
    | Some sub => ret sub s
    | None => addRoot stateRoot s
    end.

Definition delSublevel (stateRoot : bytes) : Run unit :=
  modifyThis (fun d =>
    {| accountTries := JS.delete (toHexString stateRoot) (accountTries d);
       knownAddresses := knownAddresses d; stateRootIndex := stateRootIndex d |}).

(** The sublevel is looked up, and registered if it is new, before the trie
    is created over [new TrieLevel(db.db)]. *)
Definition getStateTrie (stateRoot : bytes) : Run Trie :=
  db <- getSublevel stateRoot ;;
  liftResult (Trie_create {| level_db := level_db db |} stateRoot).

(** Every key of [accountTries] was written by [putSublevel], so the
    iteration looks each one up again and does not extend the map. *)
Definition getAllTries : Run (list Trie) :=
  fun s =>
    mapRun (fun root =>
              r <- liftResult (fromHexString root) ;;
              db <- getSublevel r ;;
              liftResult (Trie_create db r))
           (JS.keys (accountTries (this s))) s.

Definition trieEntries (t : Trie) (s : Store) : gmap string string :=
  match levels s !! level_db (trie_database t) with
  | Some m => entries m
  | None => ∅
  end.

(** For every trie in turn the address is parsed and looked for; the roots
    of the tries that hold it are collected. *)
Definition _getAddrRoots (addr : string) : Run (list bytes) :=
  tries <- getAllTries ;;
  accountPresent <-
    mapRun (fun trie =>
              a <- liftResult (Address_fromString addr) ;;
              fun s =>
                ret (if accountExists (trieEntries trie s) (trie_root trie) a
                     then [trie_root trie] else []) s)
           tries ;;
  ret (concat accountPresent).

Definition getAccount (stateRoot : bytes) (a : Address) : Run Account :=
  trie <- getStateTrie stateRoot ;;
  fun s => ret (getAccountAt (trieEntries trie s) (trie_root trie) a) s.

Definition getAccountRecord (addr : string) : Run AccountRecord :=
  roots <- _getAddrRoots addr ;;
  accts <- mapRun (fun root =>
                     a <- liftResult (Address_fromString addr) ;;
                     account <- getAccount root a ;;
                     ret (toHexString root, account))
                  roots ;;
  ret {| address := addr; accounts := JS.fromEntries accts |}.

(** [trie.fromProof(proof)]: every proof node is stored under its hash; an
    empty trie takes the first node's hash as its root. *)
Definition fromProof (trie : Trie) (proof : list bytes) : Run Trie :=
  let opStack := map (fun nodeValue => OpPut (keccak256 nodeValue) nodeValue) proof in
  let root :=
    match proof with
    | first :: _ =>
        if bool_decide (trie_root trie = EMPTY_TRIE_ROOT) then keccak256 first
        else trie_root trie
    | [] => trie_root trie
    end in
  TrieLevel_batch (trie_database trie) opStack ;;;
  ret {| trie_database := trie_database trie; trie_root := root |}.

(** The method tests the promise that [trie.verifyProof] returns, without
    awaiting it. *)
Definition updateAccount (stateRoot addr : bytes) (witnesses : list bytes) : Run Trie :=
  modifyThis (fun d =>
    {| accountTries := accountTries d;
       knownAddresses := JS.add (toHexString addr) (knownAddresses d);
       stateRootIndex := stateRootIndex d |}) ;;;
  trie <- getStateTrie stateRoot ;;
  if negb (promiseIsTruthy (verifyProof stateRoot addr witnesses))
  then throw "Invalid account trie proof"
  else
    trie' <- fromProof trie witnesses ;;
    delSublevel stateRoot ;;;
    putSublevel stateRoot (trie_database trie') ;;;
    rec <- getAccountRecord (toHexString addr) ;;
    sorted <- liftResult (sortAccountRecord rec) ;;
    let roots := JS.keys (accounts sorted) in
    modifyThis (fun d =>
      {| accountTries := accountTries d; knownAddresses := knownAddresses d;
         stateRootIndex := StateRootIndex_update (stateRootIndex d) [roots] |}) ;;;
    ret trie'.
End StateDB.

(** A small instance to run the database on: the index is the list of the
    paths it was given, a proof verifies when it has at least one node, and
    no trie holds an account. *)
Module Sample.
(** A state root: 32 times the same byte. *)
Definition root32 (b : byte) : bytes := repeat b 32.
Definition Index : Type := list (list string).
Definition indexUpdate (i : Index) (paths : list (list string)) : Index := i ++ paths.
Definition verifyProof (root key : bytes) (proof : list bytes) : bool :=
  negb (length proof =? 0)%nat.
Definition noAccount : Account :=
  {| nonce := 0; balance := 0; storageRoot := []; codeHash := [] |}.
(** Addresses: the 20 bytes that a hex string decodes to. *)
Definition addressFromString (s : string) : Result bytes :=
  match strictHexToBytes s with
  | Ok b => if (length b =? 20)%nat then Ok b else Throw "Invalid address"
  | Throw _ => Throw "Invalid address"
  end.
Definition update :=
  updateAccount indexUpdate strictHexToBytes (fun _ => 2%nat) verifyProof (fun b => b) []
    addressFromString (fun _ _ _ => false) (fun _ _ _ => noAccount).
Definition emptyStore : @Store Index :=
  {| levels := []; this := constructor (fun paths => paths) |}.
(** Two state roots under which an account has the same nonce and balance. *)
Definition unchangedAccount : AccountRecord :=
  {| address := "0xaa";
     accounts := [("0x01", {| nonce := 1; balance := 5; storageRoot := []; codeHash := [] |});
                  ("0x02", {| nonce := 1; balance := 5; storageRoot := []; codeHash := [] |})] |}.
(** Balances that differ by one beyond the 53 bits a double holds. *)
Definition largeBalances : AccountRecord :=
  {| address := "0xbb";
     accounts := [("0x0a", {| nonce := 7; balance := 2 ^ 80 + 1; storageRoot := []; codeHash := [] |});
                  ("0x0b", {| nonce := 7; balance := 2 ^ 80; storageRoot := []; codeHash := [] |});
                  ("0x0c", {| nonce := 3; balance := 9; storageRoot := []; codeHash := [] |})] |}.
End Sample.

End StateDatabase.

(** ** History content admission (ContentManager) *)
Module History.

Inductive HistoryNetworkContentTypes : Type :=
| BlockHeader
| BlockBody
| Receipt
| EpochAccumulator
| HeaderProof
| OtherType (code : N).

Inductive Event : Type :=
| ContentAdded (key : string) (contentType : HistoryNetworkContentTypes) (content : string)
| Verified (key : string) (verified : bool).

(** What a call does to its collaborators, in order: writes to the backing
    store, emitted observations, keys handed to the gossip manager, and the
    requests made to the receipt manager and to the network. *)
Inductive Effect : Type :=
| DbPut (key value : string)
| Emit (e : Event)
| GossipAdd (hashKey : string) (contentType : HistoryNetworkContentTypes)
| SaveReceipts (blockHash : string)
| GetBlockByHash (blockHash : string).

(** The manager with what it can reach: the local node id, its radius, the
    backing store and the number of peers in the routing table. *)
Record ContentManager : Type := {
  nodeId : Z;
  radius : Z;
  db : gmap string string;
  routingTableSize : nat;
}.

(** XOR distance between two 256-bit ids. *)
Definition distance (a b : Z) : Z := Z.lxor a b.

(** The backing store after the writes among the effects. *)
Fixpoint dbAfter (d : gmap string string) (effects : list Effect) : gmap string string :=
  match effects with
  | [] => d
  | DbPut k v :: rest => dbAfter (<[k := v]> d) rest
  | _ :: rest => dbAfter d rest
  end.

Section AddContent.
(** The SSZ hex decoder, the content-key encoder, the block library, the
    network ([ETH.getBlockByHash]) and the accumulator's proof checker. *)
Variable fromHexString : string -> Result bytes.
Variable getHistoryNetworkContentKey : HistoryNetworkContentTypes -> bytes -> string.
Variable Header Block Proof : Type.
Variable fromRLPSerializedHeader : bytes -> Result Header.
Variable headerHash : Header -> bytes.
Variable reassembleBlock : bytes -> bytes -> Result Block.
Variable getBlockByHash : string -> Result (option Block).
Variable transactionsLength : Block -> nat.
Variable deserializeProof : bytes -> Result Proof.
Variable verifyInclusionProof : Proof -> string -> Result bool.

(** The statements after the [switch]. *)
Definition afterSwitch (cm : ContentManager) (contentType : HistoryNetworkContentTypes)
    (hashKey : string) (value : bytes) : list Effect :=
  (match contentType with
   | HeaderProof => []
   | _ => [Emit (ContentAdded hashKey contentType (toHexString value))]
   end) ++
  (if (0 <? routingTableSize cm)%nat then [GossipAdd hashKey contentType] else []).

(** The block a body is checked against: rebuilt from the stored header, or
    else asked from the network.  The second component lists the network
    request when one was made. *)
Definition blockFor (cm : ContentManager) (hash : bytes) (hashKey : string) (value : bytes)
    : Result (option Block) * list Effect :=
  let headerContentKey := getHistoryNetworkContentKey BlockHeader hash in
  let local :=
    match db cm !! headerContentKey with
    | Some hexHeader =>
        match fromHexString hexHeader with
        | Ok header =>
            match reassembleBlock header value with
            | Ok block => Some block
            | Throw _ => None
            end
        | Throw _ => None
        end
    | None => None
    end in
  match local with
  | Some block => (Ok (Some block), [])
  | None => (getBlockByHash hashKey, [GetBlockByHash hashKey])
  end.

(** The call of the encoder on l.41, before the [switch]: the encoder
    (history/util.ts) writes the keys of the five content types and throws
    for any other value, so the [default] branch of the [switch] is never
    reached. *)
Definition contentKeyOf (contentType : HistoryNetworkContentTypes) (hash : bytes)
    : Result string :=
  match contentType with
  | OtherType _ => Throw "unsupported content type"
  | _ => Ok (getHistoryNetworkContentKey contentType hash)
  end.

Definition addContentToHistory (cm : ContentManager)
    (contentType : HistoryNetworkContentTypes) (hashKey : string) (value : bytes)
    : Result unit * list Effect :=
  match fromHexString hashKey with
  | Throw m => (Throw m, [])
  | Ok hash =>
    match contentKeyOf contentType hash with
    | Throw m => (Throw m, [])
    | Ok contentKey =>
      match contentType with
      | BlockHeader =>
          match fromRLPSerializedHeader value with
          | Throw _ => (Ok tt, [])
          | Ok header =>
              if negb (String.eqb (toHexString (headerHash header)) hashKey) then (Ok tt, [])
              else
                (Ok tt, DbPut contentKey (toHexString value)
                          :: afterSwitch cm contentType hashKey value)
          end
      | BlockBody =>
          if (length value =? 0)%nat then (Ok tt, [])
          else
            match blockFor cm hash hashKey value with
            | (Throw m, effs) => (Throw m, effs)
            | (Ok None, effs) => (Ok tt, effs)
            | (Ok (Some block), effs) =>
                (Ok tt,
                 effs ++ [DbPut contentKey (toHexString value)] ++
                 (if (0 <? transactionsLength block)%nat then [SaveReceipts hashKey] else []) ++
                 afterSwitch cm contentType hashKey value)
            end
      | Receipt =>
          (Ok tt, DbPut (getHistoryNetworkContentKey Receipt hash) (toHexString value)
                    :: afterSwitch cm contentType hashKey value)
      | EpochAccumulator =>
          (Ok tt, DbPut (getHistoryNetworkContentKey EpochAccumulator hash) (toHexString value)
                    :: afterSwitch cm contentType hashKey value)
      | HeaderProof =>
          let verified :=
            match deserializeProof value with
            | Ok proof =>
                match verifyInclusionProof proof hashKey with
                | Ok v => v
                | Throw _ => false
                end
            | Throw _ => false
            end in
          (Ok tt, Emit (Verified hashKey verified) :: afterSwitch cm contentType hashKey value)
      | OtherType _ => (Throw "unknown data type provided", [])
      end
    end
  end.

(** The header verifier of the specification: the value decodes to a header
    whose hash, written in hex, is the key. *)
Definition headerMatches (hashKey : string) (value : bytes) : Prop :=
  exists header,
    fromRLPSerializedHeader value = Ok header /\
    toHexString (headerHash header) = hashKey.

(** When a body is written: it is not empty and some block was obtained. *)
Definition bodyAccepted (cm : ContentManager) (hash : bytes) (hashKey : string) (value : bytes)
    : Prop :=
  value <> [] /\ exists block effs, blockFor cm hash hashKey value = (Ok (Some block), effs).

(** Modelled from the spec: the receipts verifier is not among the sources;
    it holds when the trie root of the decoded receipts equals the
    [receiptsRoot] of the header stored for the same block. *)
Definition receiptsVerified (receiptsRootOf headerReceiptsRoot : bytes -> Result bytes)
    (cm : ContentManager) (hash value : bytes) : Prop :=
  exists hexHeader header root,
    db cm !! getHistoryNetworkContentKey BlockHeader hash = Some hexHeader /\
    fromHexString hexHeader = Ok header /\
    headerReceiptsRoot header = Ok root /\
    receiptsRootOf value = Ok root.

(** The condition under which a call writes [value] under the content key. *)
Definition admitted (cm : ContentManager) (contentType : HistoryNetworkContentTypes)
    (hash : bytes) (hashKey : string) (value : bytes) : Prop :=
  match contentType with
  | BlockHeader => headerMatches hashKey value
  | BlockBody => bodyAccepted cm hash hashKey value
  | Receipt | EpochAccumulator => True
  | HeaderProof | OtherType _ => False
  end.
End AddContent.

(** A concrete instance to run the method on: hex keys decoded strictly,
    content keys written as selector byte and hash, a header "decoder" that
    takes the value itself as the header and an identity "hash". *)
Module Sample.
Definition selector (t : HistoryNetworkContentTypes) : byte :=
  match t with
  | BlockHeader => x00 | BlockBody => x01 | Receipt => x02
  | EpochAccumulator => x03 | HeaderProof => x04 | OtherType _ => xff
  end.
Definition getHistoryNetworkContentKey (t : HistoryNetworkContentTypes) (hash : bytes) : string :=
  toHexString (selector t :: hash).
Definition fromRLPSerializedHeader (value : bytes) : Result bytes :=
  match value with [] => Throw "invalid RLP" | _ => Ok value end.
Definition headerHash (h : bytes) : bytes := h.
Definition reassembleBlock (header body : bytes) : Result bytes := Ok (header ++ body).
Definition getBlockByHash (hashKey : string) : Result (option bytes) := Ok None.
Definition transactionsLength (b : bytes) : nat := 0.
Definition deserializeProof (value : bytes) : Result bytes := Ok value.
Definition verifyInclusionProof (proof : bytes) (hashKey : string) : Result bool := Ok false.
(** A stand-in for the content id (keccak-256 of the content key): the
    number of characters of the key. *)
Definition contentId (contentKey : string) : Z := Z.of_nat (String.length contentKey).
Definition manager : ContentManager :=
  {| nodeId := 0; radius := 0; db := ∅; routingTableSize := 0 |}.
Definition addContent :=
  addContentToHistory strictHexToBytes getHistoryNetworkContentKey bytes bytes bytes
    fromRLPSerializedHeader headerHash reassembleBlock getBlockByHash
    transactionsLength deserializeProof verifyInclusionProof.
End Sample.

End History.

(** ** The reading side of the state-manager adaptor *)
Module StateManagerReads.
Import StateManager.

(** [bytesToBigInt]: the bytes as a big-endian number. *)
Definition bytesToBigInt (bs : bytes) : N :=
  fold_left (fun acc b => (256 * acc + Byte.to_N b)%N) bs 0%N.

Section Reads.
Context {StateNetwork Address Account : Type}.
(** [address.toString()], the [codeHash] field of an account, and the three
    lookups of the state network, each of which may reject. *)
Variable addressToString : Address -> string.
Variable codeHashOf : Account -> bytes.
Variable networkGetAccount : StateNetwork -> string -> string -> Result (option Account).
Variable networkGetBytecode : StateNetwork -> string -> string -> Result (option bytes).
Variable networkGetContractStorage :
  StateNetwork -> string -> N -> string -> Result (option bytes).

Definition shallowCopy (m : @UltralightStateManager StateNetwork)
    : @UltralightStateManager StateNetwork :=
  constructor (state m).

Definition getAccount (m : @UltralightStateManager StateNetwork) (address : Address)
    : Result (option Account) :=
  networkGetAccount (state m) (addressToString address) (stateRoot m).

(** [account && (await getBytecode(...))], then [code ?? new Uint8Array()]. *)
Definition getContractCode (m : @UltralightStateManager StateNetwork) (address : Address)
    : Result bytes :=
  match networkGetAccount (state m) (addressToString address) (stateRoot m) with
  | Throw e => Throw e
  | Ok None => Ok []
  | Ok (Some account) =>
      match networkGetBytecode (state m) (toHexString (codeHashOf account))
              (addressToString address) with
      | Throw e => Throw e
      | Ok None => Ok []
      | Ok (Some code) => Ok code
      end
  end.

Definition getContractStorage (m : @UltralightStateManager StateNetwork)
    (address : Address) (key : bytes) : Result bytes :=
  match networkGetContractStorage (state m) (addressToString address)
          (bytesToBigInt key) (stateRoot m) with
  | Throw e => Throw e
  | Ok None => Ok []
  | Ok (Some res) => Ok res
  end.
End Reads.

(** The hex root the reads are made against after a client's calls: the hex
    string of the last root set, or the string the manager started with. *)
Fixpoint lastRootHex {Address Account : Type} (cs : list (@Call Address Account))
    (default : string) : string :=
  match cs with
  | [] => default
  | SetStateRoot r :: cs' => lastRootHex cs' (toHexString r)
  | _ :: cs' => lastRootHex cs' default
  end.

Definition setsRoot {Address Account : Type} (c : @Call Address Account) : bool :=
  match c with SetStateRoot _ => true | _ => false end.

End StateManagerReads.

(** ** The state database: the remaining methods of [TrieLevel] and [StateDB] *)
Module StateDatabaseMore.
Import StateDatabase.

(** [Object.keys] of an array: its indices, in decimal. *)
Definition arrayKeys {A : Type} (l : list A) : list string :=
  map (fun i : nat => pretty i) (seq 0 (length l)).

(** The value a key has after the operations of a batch, given the value
    it had before. *)
Definition batchValue (opStack : list BatchDBOp) (key : bytes) (before : option bytes)
    : option bytes :=
  fold_left
    (fun acc op =>
       match op with
       | OpPut k v => if bool_decide (k = key) then Some v else acc
       | OpDel k => if bool_decide (k = key) then None else acc
       end)
    opStack before.

Section More.
Context {StateRootIndex Address : Type}.
(** The paths the state-root index answers with (stateroots.ts). *)
Variable Paths : Type.
Variable StateRootIndex_from : list (list string) -> StateRootIndex.
Variable StateRootIndex_update : StateRootIndex -> list (list string) -> StateRootIndex.
Variable StateRootIndex_allPaths : StateRootIndex -> Paths.
Variable StateRootIndex_pathThru : StateRootIndex -> list string -> Paths.
Variable fromHexString : string -> Result bytes.
Variable openLatency : nat -> nat.
Variable verifyProof : bytes -> bytes -> list bytes -> bool.
Variable keccak256 : bytes -> bytes.
Variable EMPTY_TRIE_ROOT : bytes.
Variable Address_fromString : string -> Result Address.
Variable accountExists : gmap string string -> bytes -> Address -> bool.
Variable getAccountAt : gmap string string -> bytes -> Address -> Account.

Local Abbreviation RunM := (@Run StateRootIndex).

Notation "x <- c1 ;; c2" := (bind c1 (fun x => c2))
  (at level 100, c1 at next level, right associativity).
Notation "c1 ;;; c2" := (bind c1 (fun _ => c2))
  (at level 100, right associativity).

(** What [TrieLevel.get] answers in a store: the decoded value, or [null]
    for a missing key or a value that does not decode. *)
Definition readKey (s : @Store StateRootIndex) (l : TrieLevel) (key : bytes) : option bytes :=
  match levels s !! level_db l with
  | Some m =>
      match entries m !! toHexString key with
      | Some v => match fromHexString v with Ok b => Some b | Throw _ => None end
      | None => None
      end
  | None => None
  end.

(** [db.close()]: an open or opening database ends up closed. *)
Definition TrieLevel_close (l : TrieLevel) : RunM unit :=
  modifyLevel (StateRootIndex := StateRootIndex) l (fun m =>
    {| entries := entries m; status := Closed; latency := latency m |}).

(** The registry of sublevels is in order when its keys are distinct and
    each is the hex string of a state root, as [putSublevel] writes them. *)
Definition registryOk (d : @StateDB StateRootIndex) : Prop :=
  NoDup (JS.keys (accountTries d)) /\
  Forall (fun k => exists r, k = toHexString r) (JS.keys (accountTries d)).

(** Every registered root has the length of a hash, 32 bytes, which
    [Trie.create] insists on. *)
Definition rootsAreHashes (d : @StateDB StateRootIndex) : Prop :=
  Forall (fun k => exists r, k = toHexString r /\ length r = 32%nat)
         (JS.keys (accountTries d)).

(** Every registered database is open, as [addRoot] leaves the ones it
    makes; reads and writes of a database that is not open are rejected. *)
Definition registryOpen (s : @Store StateRootIndex) : Prop :=
  forall k sub, JS.get k (accountTries (this s)) = Some sub ->
                TrieLevel_status sub s = Some Open.

(** The known addresses are distinct hex strings, as [updateAccount] adds
    them to the set, and each is the string of an address. *)
Definition addressesOk (d : @StateDB StateRootIndex) : Prop :=
  NoDup (knownAddresses d) /\
  Forall (fun k => (exists bs, k = toHexString bs) /\ exists a, Address_fromString k = Ok a)
         (knownAddresses d).

(** The trie [getAllTries] builds for an entry of the registry: over the
    registered database, rooted at the bytes of the key. *)
Definition trieOf (e : string * TrieLevel) : Trie :=
  {| trie_database := snd e;
     trie_root := match fromHexString (fst e) with Ok r => r | Throw _ => [] end |}.

(** Whether the trie registered under a key holds the account. *)
Definition holdsAccount (s : @Store StateRootIndex) (a : Address)
    (e : string * TrieLevel) : bool :=
  accountExists (trieEntries (trieOf e) s) (trie_root (trieOf e)) a.

(** The entry of an account record read from a registered trie. *)
Definition recordEntry (s : @Store StateRootIndex) (a : Address)
    (e : string * TrieLevel) : string * Account :=
  (fst e, getAccountAt (trieEntries (trieOf e) s) (trie_root (trieOf e)) a).

(** The account record of an address as the registry and the tries give it. *)
Definition recordOf (s : @Store StateRootIndex) (addr : string) (a : Address)
    : AccountRecord :=
  {| address := addr;
     accounts := map (recordEntry s a)
                   (List.filter (holdsAccount s a) (accountTries (this s))) |}.

Definition getStateRootOrder : RunM Paths :=
  fun s : @Store StateRootIndex => ret (StateRootIndex_allPaths (stateRootIndex (this s))) s.

Definition getStateRootOrderContaining (roots : list bytes) : RunM Paths :=
  fun s : @Store StateRootIndex => ret (StateRootIndex_pathThru (stateRootIndex (this s)) (map toHexString roots)) s.

(** [pathThru(Object.keys(await this._getAddrRoots(addr)))]: the keys of the
    array of roots. *)
Definition getStateRootOrderForAccount (addr : string) : RunM Paths :=
  roots <- _getAddrRoots fromHexString openLatency Address_fromString accountExists addr ;;
  fun s : @Store StateRootIndex => ret (StateRootIndex_pathThru (stateRootIndex (this s)) (arrayKeys roots)) s.

(** [rootsByAddr]: for every known address, in the order of the set, the
    roots of the tries that hold it. *)
Definition rootsByAddr : RunM (list (string * list bytes)) :=
  fun s : @Store StateRootIndex =>
    (accountRecords <-
       mapRun (fun addr =>
                 roots <- _getAddrRoots fromHexString openLatency Address_fromString accountExists addr ;;
                 ret (addr, roots))
              (knownAddresses (this s)) ;;
     ret (JS.fromEntries accountRecords)) s.

Definition getAllAccountRecords : RunM (list AccountRecord) :=
  byAddr <- rootsByAddr ;;
  mapRun (getAccountRecord fromHexString openLatency Address_fromString accountExists getAccountAt)
         (JS.keys byAddr).

(** [setStateRootIndex]: the records are sorted one by one, in the order of
    the array, and the index is rebuilt from their lists of roots. *)
Fixpoint sortAll (records : list AccountRecord) : Result (list AccountRecord) :=
  match records with
  | [] => Ok []
  | r :: rest =>
      match sortAccountRecord r with
      | Throw m => Throw m
      | Ok sorted =>
          match sortAll rest with
          | Throw m => Throw m
          | Ok sortedRest => Ok (sorted :: sortedRest)
          end
      end
  end.

Definition setStateRootIndex : RunM unit :=
  records <- getAllAccountRecords ;;
  sortedChangesByAccount <- liftResult (sortAll records) ;;
  let sortedRootsByAccount :=
    map (fun account => JS.keys (accounts account)) sortedChangesByAccount in
  modifyThis (fun d =>
    {| accountTries := accountTries d; knownAddresses := knownAddresses d;
       stateRootIndex := StateRootIndex_from sortedRootsByAccount |}).

(** The store of a new [StateDB]: no database yet. *)
Definition newStore : @Store StateRootIndex :=
  {| levels := []; this := constructor StateRootIndex_from |}.

(** A client's calls of [updateAccount] (state root, address, proof), each
    awaited before the next, whether it returns or raises: their outcomes
    and the store they leave, or [None] if one of them never returns. *)
Fixpoint updateAccounts (calls : list (bytes * bytes * list bytes))
    (s : @Store StateRootIndex) : option (list (Result Trie) * @Store StateRootIndex) :=
  match calls with
  | [] => Some ([], s)
  | (stateRoot, addr, witnesses) :: rest =>
      match updateAccount StateRootIndex_update fromHexString openLatency verifyProof
              keccak256 EMPTY_TRIE_ROOT Address_fromString accountExists getAccountAt stateRoot addr
              witnesses s with
      | Some (r, s') =>
          match updateAccounts rest s' with
          | Some (rs, s'') => Some (r :: rs, s'')
          | None => None
          end
      | None => None
      end
  end.
End More.

End StateDatabaseMore.

(** * Properties *)

(** ** Hex strings *)
Module HexFacts.

Lemma decode_byte (b : byte) (fuel : nat) (s : string) :
  decodeBody (S fuel) (hexByByte b +:+ s) =
  match decodeBody fuel s with Some bs => Some (b :: bs) | None => None end.
Proof. destruct b; reflexivity. Qed.

Lemma decodeBody_hexBody (bs : bytes) :
  forall fuel, (length bs <= fuel)%nat -> decodeBody fuel (hexBody bs) = Some bs.
Proof.
  induction bs as [|b bs IH]; intros fuel Hfuel.
  - destruct fuel; reflexivity.
  - destruct fuel as [|fuel]; [simpl in Hfuel; lia|].
    cbn [hexBody]. rewrite decode_byte, IH; [reflexivity|simpl in Hfuel; lia].
Qed.

Lemma length_hexBody (bs : bytes) : String.length (hexBody bs) = (2 * length bs)%nat.
Proof.
  induction bs as [|b bs IH]; [reflexivity|].
  change (hexBody (b :: bs)) with
    (String (hexDigit (Byte.to_N b / 16)) (String (hexDigit (Byte.to_N b mod 16)) (hexBody bs))).
  change (String.length (String ?c1 (String ?c2 ?s))) with (S (S (String.length s))).
  rewrite IH. simpl. lia.
Qed.

(** Decoding undoes [toHexString]. *)
Lemma decodeHex_toHexString (bs : bytes) : decodeHex (toHexString bs) = Some bs.
Proof.
  change (decodeHex (toHexString bs))
    with (decodeBody (String.length (hexBody bs)) (hexBody bs)).
  apply decodeBody_hexBody. rewrite length_hexBody. lia.
Qed.

Lemma strictHexToBytes_toHexString (bs : bytes) :
  strictHexToBytes (toHexString bs) = Ok bs.
Proof. unfold strictHexToBytes. rewrite decodeHex_toHexString. reflexivity. Qed.

Lemma toHexString_inj (a b : bytes) : toHexString a = toHexString b -> a = b.
Proof.
  intros H. apply (f_equal decodeHex) in H.
  rewrite !decodeHex_toHexString in H. congruence.
Qed.

Lemma slice2_toHexString (bs : bytes) : slice2 (toHexString bs) = hexBody bs.
Proof. reflexivity. Qed.

Lemma toHexString_cons (b : byte) (bs : bytes) :
  toHexString (b :: bs) = toHexString [b] +:+ slice2 (toHexString bs).
Proof. destruct b; reflexivity. Qed.

End HexFacts.

(** ** Generalized indices *)
Module HistoryUtilFacts.
Import HistoryUtil.

(** No two functions have both the formulas of the verifier list and the
    values of scenario A of the specification. *)
Lemma formulas_contradict_values :
  ~ (exists leafIndex gindex : N -> N,
       (forall n, leafIndex n = (n mod 8192)%N) /\
       (forall n, gindex n = (leafIndex n + 2 * EPOCH_SIZE)%N) /\
       gindex 1000%N = 34768%N /\ gindex 9192%N = 34768%N /\
       leafIndex 1000%N = 2000%N /\ leafIndex 9192%N = 2000%N).
Proof.
  intros (leafIndex & gindex & Hl & _ & _ & _ & H2 & _).
  rewrite Hl in H2. vm_compute in H2. discriminate.
Qed.




End HistoryUtilFacts.

(** ** Beacon content keys *)
Module BeaconFacts.
Import Beacon HexFacts.

Section RoundTrip.
Variable selectorOf : BeaconLightClientNetworkContentType -> byte.
Variable Decoded : Type.
Variable deserialize : Ssz.t -> bytes -> Result Decoded.
(** Distinct enum members have distinct values. *)
Hypothesis selectorOf_inj : forall t1 t2, selectorOf t1 = selectorOf t2 -> t1 = t2.

Lemma selector_eqb (t1 t2 : BeaconLightClientNetworkContentType) :
  Byte.eqb (selectorOf t1) (selectorOf t2) = bool_decide (t1 = t2).
Proof.
  case_bool_decide as Heq.
  - subst. apply Byte.byte_dec_lb. reflexivity.
  - destruct (Byte.eqb (selectorOf t1) (selectorOf t2)) eqn:E; [|reflexivity].
    apply Byte.byte_dec_bl in E. apply selectorOf_inj in E. contradiction.
Qed.

Lemma decode_selected (t : BeaconLightClientNetworkContentType) (b : bytes) :
  decodeBeaconContentKey selectorOf Decoded deserialize (selectorOf t :: b) =
    deserialize (deserializedAs t) b.
Proof.
  unfold decodeBeaconContentKey. rewrite !selector_eqb.
  destruct t; reflexivity.
Qed.

(** C7: the content key is the hex string of the selector byte followed by
    the body, and those are the bytes it decodes to; decoding them
    deserializes the body under the key type of the content type for the
    bootstrap, the finality update and the optimistic update, but under the
    list type of the updates themselves, not under their key type, for the
    updates by range. *)
Theorem beacon_content_key_round_trip
    (t : BeaconLightClientNetworkContentType) (b : bytes) :
  getBeaconContentKey selectorOf t b = toHexString (selectorOf t :: b) /\
  decodeHex (getBeaconContentKey selectorOf t b) = Some (selectorOf t :: b) /\
  decodeBeaconContentKey selectorOf Decoded deserialize (selectorOf t :: b) =
    deserialize (deserializedAs t) b /\
  (t <> LightClientUpdatesByRange -> deserializedAs t = keyTypeOf t) /\
  (t = LightClientUpdatesByRange ->
   deserializedAs t = Ssz.LightClientUpdatesByRange /\ deserializedAs t <> keyTypeOf t).
Proof.
  assert (Hkey : getBeaconContentKey selectorOf t b = toHexString (selectorOf t :: b)).
  { unfold getBeaconContentKey. symmetry. apply toHexString_cons. }
  split; [exact Hkey|]. split; [rewrite Hkey; apply decodeHex_toHexString|].
  split; [apply decode_selected|].
  split.
  - destruct t; intros Hne; try reflexivity. contradiction.
  - intros ->. split; [reflexivity|discriminate].
Qed.
End RoundTrip.

End BeaconFacts.

Module BeaconWitness.
Import Beacon BeaconFacts.

Lemma portalSelector_inj (t1 t2 : BeaconLightClientNetworkContentType) :
  portalSelector t1 = portalSelector t2 -> t1 = t2.
Proof. destruct t1, t2; simpl; intros H; try reflexivity; discriminate H. Qed.

(** The key of the updates from period 1, count 2: its body deserializes
    under the key type, yet decoding the content key throws. *)
Lemma beacon_content_key_round_trip_witness :
  getBeaconContentKey portalSelector LightClientUpdatesByRange updatesFromPeriod1Count2 =
    "0x0101000000000000000200000000000000" /\
  sampleDeserialize (keyTypeOf LightClientUpdatesByRange) updatesFromPeriod1Count2 =
    Ok updatesFromPeriod1Count2 /\
  decodeBeaconContentKey portalSelector bytes sampleDeserialize
    (portalSelector LightClientUpdatesByRange :: updatesFromPeriod1Count2) =
    Throw "invalid offset".
Proof.
  destruct (beacon_content_key_round_trip portalSelector bytes sampleDeserialize
              portalSelector_inj LightClientUpdatesByRange updatesFromPeriod1Count2)
    as (Hkey & _ & Hdecode & _).
  split; [rewrite Hkey; reflexivity|]. split; [reflexivity|].
  rewrite Hdecode. reflexivity.
Defined.

End BeaconWitness.

(** ** The state sub-protocol *)
Module StateNetworkFacts.
Import StateNetwork HexFacts.

Section Methods.
Variable ENR : Type.
Variable decodeTxt : string -> Result ENR.
Variable getWithPending : string -> option ENR.
Variable serializeFindContent : bytes -> bytes.
Variable sendMessage : ENR -> bytes -> Result bytes.
Variable deserializeContent : bytes -> Result ContentMessage.
Variable decodeHistoryNetworkContentKey : string -> N * string.
Variable hexToBytes : string -> Result bytes.

(** C6: on a CONTENT response whose union is the uTP arm, the method hands
    the uTP layer one request, for the queried key, with the connection id
    read big-endian from the first two payload bytes and the request code
    FINDCONTENT_READ, and returns the decoded union. *)
Theorem sendFindContent_utp (p : Protocol) (dstId : string) (key : bytes)
    (enr : ENR) (code : byte) (payload : bytes) (b0 b1 : byte) (more : bytes) :
  resolveEnr ENR decodeTxt getWithPending dstId = Ok (Some enr) ->
  sendMessage enr (serializeFindContent key) = Ok (code :: payload) ->
  Byte.to_N code = MessageCodes_CONTENT ->
  deserializeContent payload = Ok (FoundUTP (b0 :: b1 :: more)) ->
  sendFindContent ENR decodeTxt getWithPending serializeFindContent sendMessage
    deserializeContent decodeHistoryNetworkContentKey p dstId key =
  (Ok (Some (FoundUTP (b0 :: b1 :: more))),
   {| db := db p;
      requests := requests p ++
        [{| contentKeys := [key]; peerId := dstId;
            connectionId := (256 * Byte.to_N b0 + Byte.to_N b1)%N;
            requestCode := FINDCONTENT_READ; contents := [] |}] |}).
Proof.
  intros Henr Hres Hcode Hdec.
  unfold sendFindContent. rewrite Henr, Hres, Hcode. simpl.
  unfold onContent. rewrite Hdec. reflexivity.
Qed.

(** C8: a key with no value in the store resolves to the empty byte string,
    exactly as a key whose stored content has length zero; neither call
    rejects. *)
Theorem findContentLocally_absent (p : Protocol) (contentKey : bytes) :
  (forall bs, hexToBytes (toHexString bs) = Ok bs) ->
  (db p !! toHexString contentKey = None ->
   findContentLocally hexToBytes p contentKey = Ok []) /\
  (db p !! toHexString contentKey = Some (toHexString []) ->
   findContentLocally hexToBytes p contentKey = Ok []).
Proof.
  intros Hhex. unfold findContentLocally, retrieve.
  split; intros ->; exact (Hhex []).
Qed.
End Methods.

Lemma findContentLocally_absent_witness :
  findContentLocally
    strictHexToBytes
    {| db := {["0x01" := "0x"]}; requests := [] |} [x02] = Ok [] /\
  findContentLocally
    strictHexToBytes
    {| db := {["0x01" := "0x"]}; requests := [] |} [x01] = Ok [].
Proof.
  split.
  - apply (proj1 (findContentLocally_absent strictHexToBytes
                      {| db := {["0x01" := "0x"]}; requests := [] |} [x02]
                      strictHexToBytes_toHexString)).
    reflexivity.
  - apply (proj2 (findContentLocally_absent strictHexToBytes
                      {| db := {["0x01" := "0x"]}; requests := [] |} [x01]
                      strictHexToBytes_toHexString)).
    reflexivity.
Defined.

Lemma sendFindContent_utp_witness :
  sendFindContent unit (fun _ => Ok tt) (fun _ => Some tt) (fun k => k)
    (fun _ _ => Ok [x05; x00; x12; x34])
    (fun b => match b with
              | x00 :: rest => Ok (FoundUTP rest)
              | _ => Throw "unsupported"
              end)
    (fun s => (0%N, s))
    {| db := ∅; requests := [] |} "0xabcd" [x00; x01] =
  (Ok (Some (FoundUTP [x12; x34])),
   {| db := ∅;
      requests := [{| contentKeys := [[x00; x01]]; peerId := "0xabcd";
                      connectionId := 4660; requestCode := FINDCONTENT_READ;
                      contents := [] |}] |}).
Proof.
  apply (sendFindContent_utp unit (fun _ => Ok tt) (fun _ => Some tt) (fun k => k)
           (fun _ _ => Ok [x05; x00; x12; x34])
           (fun b => match b with
                     | x00 :: rest => Ok (FoundUTP rest)
                     | _ => Throw "unsupported"
                     end)
           (fun s => (0%N, s))
           {| db := ∅; requests := [] |} "0xabcd" [x00; x01] tt x05 [x00; x12; x34]
           x12 x34 []); reflexivity.
Defined.

End StateNetworkFacts.

(** ** The state-manager adaptor *)
Module StateManagerFacts.
Import StateManager.

Section Manager.
Context {StateNetwork Address Account : Type}.
Implicit Types (m : @UltralightStateManager StateNetwork) (c : @Call Address Account).

Lemma session_fields (cs : list (@Call Address Account)) :
  forall m,
    state (session m cs) = state m /\
    stateRootBytes (session m cs) = lastRoot cs (stateRootBytes m).
Proof.
  induction cs as [|c cs IH]; intros m; [split; reflexivity|].
  change (session m (c :: cs)) with (session (snd (perform m c)) cs).
  destruct (IH (snd (perform m c))) as [Hs Hr].
  rewrite Hs, Hr. destruct c; split; reflexivity.
Qed.

(** C10: every mutating method either throws 'Method not implemented.' or
    resolves leaving the manager, and with it the network it refers to, as it
    was; only [setStateRoot] changes the manager, and [getStateRoot] returns
    the bytes last passed to it, the empty byte string before any call. *)
Theorem state_manager_read_only :
  (forall m c,
     match c with
     | PutAccount _ _ | Checkpoint | Commit => perform m c = (Ok tt, m)
     | SetStateRoot r =>
         perform m c =
         (Ok tt, {| state := state m; stateRoot := toHexString r; stateRootBytes := r |})
     | _ => perform m c = (Throw "Method not implemented.", m)
     end) /\
  (forall (net : StateNetwork) (cs : list (@Call Address Account)),
     let m := session (constructor net) cs in
     state m = net /\
     getStateRoot m = (Ok (lastRoot cs []), m)).
Proof.
  split.
  - intros m c. destruct c; reflexivity.
  - intros net cs m.
    destruct (session_fields cs (constructor net)) as [Hs Hr].
    split; [exact Hs|]. unfold getStateRoot. subst m. rewrite Hr. reflexivity.
Qed.
End Manager.

End StateManagerFacts.

(** ** JavaScript collections *)
Module JSFacts.

Section Keyed.
Context {V : Type}.
Implicit Types (m : list (string * V)) (k : string) (v : V).

Lemma get_set_same k v m : JS.get k (JS.set k v m) = Some v.
Proof.
  induction m as [|[k' v'] m IH]; simpl.
  - rewrite String.eqb_refl. reflexivity.
  - destruct (String.eqb k k') eqn:E; simpl.
    + rewrite String.eqb_refl. reflexivity.
    + rewrite E. exact IH.
Qed.

Lemma get_None_not_key k m : JS.get k m = None <-> k ∉ JS.keys m.
Proof.
  induction m as [|[k' v'] m IH]; simpl.
  - split; [intros _; apply not_elem_of_nil | reflexivity].
  - destruct (String.eqb k k') eqn:E.
    + apply String.eqb_eq in E. subst. split; [discriminate|].
      intros H. exfalso. apply H. left.
    + apply String.eqb_neq in E. rewrite IH. rewrite not_elem_of_cons. tauto.
Qed.

Lemma set_fresh k v m : JS.get k m = None -> JS.set k v m = m ++ [(k, v)].
Proof.
  induction m as [|[k' v'] m IH]; simpl; [reflexivity|].
  destruct (String.eqb k k'); [discriminate|].
  intros H. rewrite IH by exact H. reflexivity.
Qed.

Lemma get_app_l k v m m' : JS.get k m = Some v -> JS.get k (m ++ m') = Some v.
Proof.
  induction m as [|[k' v'] m IH]; simpl; [discriminate|].
  destruct (String.eqb k k'); auto.
Qed.

Lemma get_entry k v m : NoDup (JS.keys m) -> (k, v) ∈ m -> JS.get k m = Some v.
Proof.
  induction m as [|[k' v'] m IH]; simpl; intros Hnd Hin.
  - apply elem_of_nil in Hin. contradiction.
  - apply NoDup_cons in Hnd as [Hk' Hnd].
    apply elem_of_cons in Hin as [Heq|Hin].
    + injection Heq as -> ->. rewrite String.eqb_refl. reflexivity.
    + destruct (String.eqb k k') eqn:E.
      * apply String.eqb_eq in E. subst. exfalso. apply Hk'.
        apply list_elem_of_fmap. exists (k', v). split; [reflexivity|exact Hin].
      * apply IH; assumption.
Qed.

Lemma fromEntries_from m (es : list (string * V)) :
  NoDup (JS.keys (m ++ es)) ->
  foldl (fun m e => JS.set (fst e) (snd e) m) m es = m ++ es.
Proof.
  revert m. induction es as [|[k v] es IH]; intros m Hnd; simpl.
  - rewrite app_nil_r. reflexivity.
  - rewrite set_fresh.
    + rewrite IH; rewrite <- app_assoc; [reflexivity|exact Hnd].
    + apply get_None_not_key. unfold JS.keys in *. rewrite map_app in Hnd.
      apply NoDup_app in Hnd as (_ & Hdisj & _).
      intros Hk. apply (Hdisj k Hk). left.
Qed.

(** Entries with distinct keys come back from [Object.fromEntries] as they
    went in. *)
Lemma fromEntries_NoDup (es : list (string * V)) :
  NoDup (JS.keys es) -> JS.fromEntries es = es.
Proof. intros Hnd. unfold JS.fromEntries. rewrite fromEntries_from; [reflexivity|exact Hnd]. Qed.
End Keyed.

End JSFacts.

(** ** The state database: sublevels and account updates *)
Module StateDatabaseFacts.
Import StateDatabase JSFacts.

Section StateDB.
Context {StateRootIndex Address : Type}.
Variable StateRootIndex_update : StateRootIndex -> list (list string) -> StateRootIndex.
Variable fromHexString : string -> Result bytes.
Variable openLatency : nat -> nat.
Variable verifyProof : bytes -> bytes -> list bytes -> bool.
Variable keccak256 : bytes -> bytes.
Variable EMPTY_TRIE_ROOT : bytes.
Variable Address_fromString : string -> Result Address.
Variable accountExists : gmap string string -> bytes -> Address -> bool.
Variable getAccountAt : gmap string string -> bytes -> Address -> Account.
Implicit Types (s : @Store StateRootIndex) (d : @StateDB StateRootIndex).

Lemma alter_last {A} (f : A -> A) (old : list A) (x : A) :
  alter f (length old) (old ++ [x]) = old ++ [f x].
Proof. induction old as [|y old IH]; [reflexivity|]. cbn. f_equal. exact IH. Qed.

Lemma whileNotOpen_opening (n : nat) :
  forall (old : list MemoryLevel) (es : gmap string string) d,
    whileNotOpen (S n) {| level_db := length old |}
      {| levels := old ++ [{| entries := es; status := Opening; latency := n |}];
         this := d |} =
    Some (Ok tt,
          {| levels := old ++ [{| entries := es; status := Open; latency := O |}];
             this := d |}).
Proof.
  induction n as [|n IH]; intros old es d.
  - cbn [whileNotOpen]. unfold TrieLevel_status, bind, modifyLevel. cbn [levels level_db this].
    rewrite list_lookup_middle by reflexivity. cbn [fmap option_fmap option_map status].
    rewrite alter_last. rewrite list_lookup_middle by reflexivity. reflexivity.
  - cbn [whileNotOpen]. unfold TrieLevel_status at 1. unfold bind at 1, modifyLevel at 1.
    cbn [levels level_db this].
    rewrite list_lookup_middle by reflexivity. cbn [fmap option_fmap option_map status].
    rewrite alter_last. cbn [elapse status latency entries].
    apply IH.
Qed.

(** What [addRoot] returns, and the store it leaves. *)
Lemma addRoot_run (stateRoot : bytes) s :
  addRoot openLatency stateRoot s =
  Some (Ok {| level_db := length (levels s) |},
        {| levels := levels s ++ [opened];
           this := {| accountTries :=
                        JS.set (toHexString stateRoot) {| level_db := length (levels s) |}
                          (accountTries (this s));
                      knownAddresses := knownAddresses (this s);
                      stateRootIndex := stateRootIndex (this s) |} |}).
Proof.
  destruct s as [lv d].
  unfold addRoot, newTrieLevel, putSublevel, TrieLevel_open, bind, ret, modifyThis, modifyLevel.
  cbn [levels this level_db].
  rewrite alter_last. cbn [status].
  unfold pollsNeeded. cbn [levels level_db].
  rewrite list_lookup_middle by reflexivity. cbn [latency].
  rewrite whileNotOpen_opening. reflexivity.
Qed.

Lemma getSublevel_run (stateRoot : bytes) s :
  getSublevel openLatency stateRoot s =
  match JS.get (toHexString stateRoot) (accountTries (this s)) with
  | Some known => Some (Ok known, s)
  | None => addRoot openLatency stateRoot s
  end.
Proof.
  unfold getSublevel.
  destruct (JS.get (toHexString stateRoot) (accountTries (this s))); reflexivity.
Qed.

(** C9: [getSublevel] always returns a database, registered under the hex
    string of the root afterwards; a known root leaves the store as it was,
    an unknown one adds a fresh, empty, open database and registers it. *)
Theorem getSublevel_always_yields (stateRoot : bytes) s :
  exists (sub : TrieLevel) s',
    getSublevel openLatency stateRoot s = Some (Ok sub, s') /\
    JS.get (toHexString stateRoot) (accountTries (this s')) = Some sub /\
    match JS.get (toHexString stateRoot) (accountTries (this s)) with
    | Some known => sub = known /\ s' = s
    | None =>
        sub = {| level_db := length (levels s) |} /\
        levels s' = levels s ++ [opened] /\
        levels s' !! level_db sub = Some opened /\
        this s' =
          {| accountTries := JS.set (toHexString stateRoot) sub (accountTries (this s));
             knownAddresses := knownAddresses (this s);
             stateRootIndex := stateRootIndex (this s) |} /\
        accountTries (this s') <> accountTries (this s)
    end.
Proof.
  rewrite getSublevel_run.
  destruct (JS.get (toHexString stateRoot) (accountTries (this s))) as [known|] eqn:Hget.
  - exists known, s. rewrite Hget. repeat split; reflexivity.
  - rewrite addRoot_run. eexists _, _. split; [reflexivity|].
    cbn [this levels accountTries level_db].
    split; [apply get_set_same|].
    repeat split.
    + apply list_lookup_middle. reflexivity.
    + intros Heq. rewrite <- Heq, get_set_same in Hget. discriminate.
Qed.

End StateDB.

End StateDatabaseFacts.

(** ** Numbers from big integers keep their sign *)
Module JSNumberFacts.
Import JSNumber.
Local Open Scope Z_scope.

Lemma roundMagnitude_positive (a : Z) :
  0 < a -> match roundMagnitude a with Some v => 0 < v | None => True end.
Proof.
  intros Ha. unfold roundMagnitude.
  destruct (a <? 2 ^ 53) eqn:Hsmall; [exact Ha|].
  apply Z.ltb_ge in Hsmall.
  set (e := Z.log2 a - 52).
  assert (He : 1 <= e).
  { subst e. pose proof (Z.log2_le_mono _ _ Hsmall) as H.
    rewrite Z.log2_pow2 in H by lia. lia. }
  assert (Hpow : 0 < 2 ^ e) by (apply Z.pow_pos_nonneg; lia).
  assert (Hm : 0 < Z.shiftr a e).
  { rewrite Z.shiftr_div_pow2 by lia. apply Z.div_str_pos. split; [exact Hpow|].
    transitivity (2 ^ Z.log2 a).
    - apply Z.pow_le_mono_r; subst e; lia.
    - apply Z.log2_spec. exact Ha. }
  match goal with |- context [if ?c then Z.shiftr a e + 1 else Z.shiftr a e] =>
    set (m' := if c then Z.shiftr a e + 1 else Z.shiftr a e) end.
  assert (Hm' : 0 < m').
  { subst m'. match goal with |- context [if ?c then _ else _] => destruct c end; lia. }
  destruct (Z.shiftl m' e <? 2 ^ 1024); [|exact I].
  rewrite Z.shiftl_mul_pow2 by lia. apply Z.mul_pos_pos; assumption.
Qed.

(** [Number(x) > 0] exactly when [x > 0], whatever the rounding. *)
Lemma isPositive_Number (x : Z) : isPositive (Number x) = (0 <? x).
Proof.
  destruct x as [|p|p]; [reflexivity| |].
  - pose proof (roundMagnitude_positive (Z.pos p) eq_refl) as H.
    unfold Number. destruct (roundMagnitude (Z.pos p)); [|reflexivity].
    simpl. apply Z.ltb_lt in H. rewrite H. reflexivity.
  - pose proof (roundMagnitude_positive (Z.pos p) eq_refl) as H.
    unfold Number. change (- Z.neg p) with (Z.pos p).
    destruct (roundMagnitude (Z.pos p)) as [v|]; [|reflexivity].
    simpl. destruct (0 <? - v) eqn:E; [apply Z.ltb_lt in E; lia|reflexivity].
Qed.

Lemma isNegative_Number (x : Z) : isNegative (Number x) = (x <? 0).
Proof.
  destruct x as [|p|p]; [reflexivity| |].
  - pose proof (roundMagnitude_positive (Z.pos p) eq_refl) as H.
    unfold Number. destruct (roundMagnitude (Z.pos p)) as [v|]; [|reflexivity].
    simpl. destruct (v <? 0) eqn:E; [apply Z.ltb_lt in E; lia|reflexivity].
  - pose proof (roundMagnitude_positive (Z.pos p) eq_refl) as H.
    unfold Number. change (- Z.neg p) with (Z.pos p).
    destruct (roundMagnitude (Z.pos p)) as [v|]; [|reflexivity].
    simpl. destruct (- v <? 0) eqn:E; [reflexivity|apply Z.ltb_ge in E; lia].
Qed.

(** The conversion does lose low bits of large differences. *)
Example Number_rounds : Number (2 ^ 53 + 1) = Finite (2 ^ 53).
Proof. vm_compute. reflexivity. Qed.

End JSNumberFacts.

(** ** Sorting an account record *)
Module SortFacts.
Import StateDatabase JSFacts JSNumberFacts.

Lemma keyLt_irrefl (k : Z * Z) : ~ keyLt k k.
Proof. unfold keyLt. lia. Qed.

Lemma keyLe_of_not_lt (k1 k2 : Z * Z) : ~ keyLt k2 k1 -> keyLe k1 k2.
Proof.
  destruct k1 as [n1 b1], k2 as [n2 b2]. unfold keyLe, keyLt. simpl. intros H.
  destruct (decide (n1 = n2 /\ b1 = b2)) as [[-> ->]|Hne]; [right; reflexivity|].
  left. lia.
Qed.

Lemma keyLe_trans (k1 k2 k3 : Z * Z) : keyLe k1 k2 -> keyLe k2 k3 -> keyLe k1 k3.
Proof.
  destruct k1 as [n1 b1], k2 as [n2 b2], k3 as [n3 b3]. unfold keyLe, keyLt. simpl.
  intros [H1|H1] [H2|H2]; try (injection H1 as -> ->); try (injection H2 as -> ->);
    solve [left; lia | right; reflexivity].
Qed.

Lemma keyLt_not_le (k1 k2 : Z * Z) : keyLt k1 k2 -> ~ keyLe k2 k1.
Proof.
  destruct k1 as [n1 b1], k2 as [n2 b2]. unfold keyLe, keyLt. simpl.
  intros H [H'|H']; [lia|]. injection H' as -> ->. lia.
Qed.

Section Record.
Variable accountRecord : AccountRecord.

Local Abbreviation readsBack := (readsBack accountRecord).

Lemma compareRoots_sign (e1 e2 : string * Account) :
  readsBack e1 -> readsBack e2 ->
  exists v, compareRoots accountRecord (fst e1) (fst e2) = Ok v /\
            (JSNumber.isPositive v = true <-> keyLt (sortKey (snd e2)) (sortKey (snd e1))).
Proof.
  unfold readsBack, compareRoots. intros -> ->.
  destruct (nonce (snd e1) =? nonce (snd e2))%Z eqn:E;
    eexists; (split; [reflexivity|]); rewrite isPositive_Number, Z.ltb_lt;
    unfold keyLt, sortKey; simpl.
  - apply Z.eqb_eq in E. lia.
  - apply Z.eqb_neq in E. lia.
Qed.

Lemma insert_entries (e : string * Account) (sorted : list (string * Account)) :
  readsBack e -> Forall readsBack sorted -> StronglySorted entryLe sorted ->
  exists sorted',
    JS.insert (compareRoots accountRecord) (fst e) (map fst sorted) = Ok (map fst sorted') /\
    sorted' ≡ₚ e :: sorted /\
    StronglySorted entryLe sorted' /\
    (forall k, filter (fun x => sortKey (snd x) = k) sorted' =
               filter (fun x => sortKey (snd x) = k) (e :: sorted)).
Proof.
  intros He. induction sorted as [|y rest IH]; intros Hrb Hsorted.
  - exists [e]. repeat split; auto. repeat constructor.
  - apply Forall_cons in Hrb as [Hy Hrest].
    apply StronglySorted_inv in Hsorted as [Hsrest Hyrest].
    destruct (compareRoots_sign e y He Hy) as (v & Hcmp & Hsign).
    cbn [map JS.insert]. rewrite Hcmp.
    destruct (JSNumber.isPositive v) eqn:Hpos.
    + assert (Hlt : keyLt (sortKey (snd y)) (sortKey (snd e))) by (apply Hsign; reflexivity).
      destruct (IH Hrest Hsrest) as (rest' & Hins & Hperm & Hs' & Hstable).
      rewrite Hins. exists (y :: rest'). split; [reflexivity|]. split; [|split].
      * rewrite Hperm. apply perm_swap.
      * constructor; [exact Hs'|].
        rewrite Hperm. constructor; [left; exact Hlt|exact Hyrest].
      * intros k. rewrite !filter_cons. rewrite Hstable, filter_cons.
        destruct (decide (sortKey (snd y) = k)) as [Hyk|Hyk];
          destruct (decide (sortKey (snd e) = k)) as [Hek|Hek]; try reflexivity.
        exfalso. rewrite <- Hyk in Hek. rewrite Hek in Hlt. exact (keyLt_irrefl _ Hlt).
    + assert (Hle : entryLe e y).
      { apply keyLe_of_not_lt. intros Hlt. apply Hsign in Hlt. congruence. }
      exists (e :: y :: rest). repeat split; auto.
      constructor; [constructor; assumption|].
      constructor; [exact Hle|].
      eapply Forall_impl; [exact Hyrest|]. intros z Hz. exact (keyLe_trans _ _ _ Hle Hz).
Qed.

Lemma sort_entries (es : list (string * Account)) :
  Forall readsBack es ->
  exists sorted,
    JS.sort (compareRoots accountRecord) (map fst es) = Ok (map fst sorted) /\
    sorted ≡ₚ es /\
    StronglySorted entryLe sorted /\
    (forall k, filter (fun x => sortKey (snd x) = k) sorted =
               filter (fun x => sortKey (snd x) = k) es).
Proof.
  induction es as [|e es IH]; intros Hrb.
  - exists []. repeat split; auto. constructor.
  - apply Forall_cons in Hrb as [He Hes].
    destruct (IH Hes) as (sorted & Hsort & Hperm & Hs & Hstable).
    assert (Hrb' : Forall readsBack sorted) by (rewrite Hperm; exact Hes).
    destruct (insert_entries e sorted He Hrb' Hs) as (sorted' & Hins & Hperm' & Hs' & Hstable').
    exists sorted'. cbn [map JS.sort]. rewrite Hsort, Hins.
    split; [reflexivity|]. split; [rewrite Hperm', Hperm; reflexivity|].
    split; [exact Hs'|].
    intros k. rewrite Hstable', !filter_cons, Hstable. reflexivity.
Qed.

Lemma entriesOf_readsBack (es : list (string * Account)) :
  Forall readsBack es -> entriesOf accountRecord (map fst es) = Ok es.
Proof.
  induction es as [|[k a] es IH]; intros Hrb; [reflexivity|].
  apply Forall_cons in Hrb as [He Hes]. unfold readsBack in He. simpl in He.
  cbn [map entriesOf fst]. rewrite He, (IH Hes). reflexivity.
Qed.
End Record.

(** In a sorted list an entry with a strictly smaller key comes first. *)
Lemma smaller_precedes (sorted : list (string * Account)) (e1 e2 : string * Account) :
  StronglySorted entryLe sorted -> e1 ∈ sorted -> e2 ∈ sorted ->
  keyLt (sortKey (snd e1)) (sortKey (snd e2)) ->
  exists l1 l2 l3, sorted = l1 ++ e1 :: l2 ++ e2 :: l3.
Proof.
  intros Hs H1 H2 Hlt.
  apply list_elem_of_split in H1 as (l1 & r & ->).
  assert (Hne : e2 <> e1) by (intros ->; exact (keyLt_irrefl _ Hlt)).
  apply elem_of_app in H2 as [H2|H2].
  - exfalso. apply (keyLt_not_le _ _ Hlt).
    apply (StronglySorted_app_1_elem_of entryLe l1 (e1 :: r) e2 e1 Hs H2). left.
  - apply elem_of_cons in H2 as [H2|H2]; [contradiction|].
    apply list_elem_of_split in H2 as (l2 & l3 & ->).
    exists l1, l2, l3. reflexivity.
Qed.

(** C4, as stated, fails on a tie: an account unchanged between two state
    roots puts one root before the other, though neither its nonce nor its
    balance is smaller. *)
Lemma sortAccountRecord_tie_counterexample :
  sortAccountRecord Sample.unchangedAccount = Ok Sample.unchangedAccount /\
  JS.keys (accounts Sample.unchangedAccount) = ["0x01"; "0x02"] /\
  (forall a1 a2,
     JS.get "0x01" (accounts Sample.unchangedAccount) = Some a1 ->
     JS.get "0x02" (accounts Sample.unchangedAccount) = Some a2 ->
     ~ ((nonce a1 < nonce a2)%Z \/ (nonce a1 = nonce a2 /\ (balance a1 < balance a2)%Z))).
Proof.
  split; [vm_compute; reflexivity|]. split; [reflexivity|].
  intros a1 a2 H1 H2. vm_compute in H1, H2.
  injection H1 as <-. injection H2 as <-. simpl. lia.
Qed.

(** C4 (amended): the record comes back with the same address and the same
    entries, in non-descending order of (nonce, balance) compared as
    integers; an entry whose nonce is smaller, or whose nonce is equal and
    balance smaller, precedes the other, and entries that tie on both keep
    the order they had. *)
Theorem sortAccountRecord_sorted (accountRecord : AccountRecord) :
  NoDup (JS.keys (accounts accountRecord)) ->
  exists sorted,
    sortAccountRecord accountRecord =
      Ok {| address := address accountRecord; accounts := sorted |} /\
    sorted ≡ₚ accounts accountRecord /\
    StronglySorted entryLe sorted /\
    (forall e1 e2, e1 ∈ sorted -> e2 ∈ sorted ->
       keyLt (sortKey (snd e1)) (sortKey (snd e2)) ->
       exists l1 l2 l3, sorted = l1 ++ e1 :: l2 ++ e2 :: l3) /\
    (forall k, filter (fun x => sortKey (snd x) = k) sorted =
               filter (fun x => sortKey (snd x) = k) (accounts accountRecord)).
Proof.
  intros Hnd.
  assert (Hrb : Forall (readsBack accountRecord) (accounts accountRecord)).
  { apply Forall_forall. intros [k a] Hin. apply get_entry; assumption. }
  destruct (sort_entries accountRecord _ Hrb) as (sorted & Hsort & Hperm & Hs & Hstable).
  exists sorted. unfold sortAccountRecord. unfold JS.keys at 1. rewrite Hsort.
  rewrite entriesOf_readsBack by (rewrite Hperm; exact Hrb).
  rewrite fromEntries_NoDup by (unfold JS.keys; rewrite Hperm; exact Hnd).
  split; [reflexivity|]. split; [exact Hperm|]. split; [exact Hs|].
  split; [|exact Hstable].
  intros e1 e2. apply smaller_precedes. exact Hs.
Qed.

Lemma sortAccountRecord_sorted_witness :
  NoDup (JS.keys (accounts Sample.largeBalances)) /\
  exists sorted,
    sortAccountRecord Sample.largeBalances =
      Ok {| address := "0xbb"; accounts := sorted |} /\
    JS.keys sorted = ["0x0c"; "0x0b"; "0x0a"].
Proof.
  assert (Hnd : NoDup (JS.keys (accounts Sample.largeBalances))).
  { apply (bool_decide_unpack _). vm_compute. exact I. }
  split; [exact Hnd|].
  destruct (sortAccountRecord_sorted Sample.largeBalances Hnd) as (sorted & Hrun & _).
  exists sorted. split; [exact Hrun|].
  vm_compute in Hrun. injection Hrun as <-. reflexivity.
Defined.

End SortFacts.

(** ** History content admission *)
Module HistoryFacts.
Import History HexFacts.

Section AddContent.
Variable fromHexString : string -> Result bytes.
Variable getHistoryNetworkContentKey : HistoryNetworkContentTypes -> bytes -> string.
Variable Header Block Proof : Type.
Variable fromRLPSerializedHeader : bytes -> Result Header.
Variable headerHash : Header -> bytes.
Variable reassembleBlock : bytes -> bytes -> Result Block.
Variable getBlockByHash : string -> Result (option Block).
Variable transactionsLength : Block -> nat.
Variable deserializeProof : bytes -> Result Proof.
Variable verifyInclusionProof : Proof -> string -> Result bool.

Local Abbreviation add :=
  (addContentToHistory fromHexString getHistoryNetworkContentKey Header Block Proof
     fromRLPSerializedHeader headerHash reassembleBlock getBlockByHash
     transactionsLength deserializeProof verifyInclusionProof).
Local Abbreviation blockOf :=
  (blockFor fromHexString getHistoryNetworkContentKey Block reassembleBlock getBlockByHash).
Local Abbreviation isAdmitted :=
  (admitted fromHexString getHistoryNetworkContentKey Header Block
     fromRLPSerializedHeader headerHash reassembleBlock getBlockByHash).

Lemma afterSwitch_no_put cm t hashKey value k v :
  ~ In (DbPut k v) (afterSwitch cm t hashKey value).
Proof.
  unfold afterSwitch. intros H. apply in_app_or in H as [H|H].
  - destruct t; simpl in H; intuition discriminate.
  - destruct (0 <? routingTableSize cm)%nat; simpl in H; intuition discriminate.
Qed.

Lemma blockFor_no_put cm hash hashKey value k v :
  ~ In (DbPut k v) (snd (blockOf cm hash hashKey value)).
Proof.
  unfold blockFor.
  destruct (db cm !! getHistoryNetworkContentKey BlockHeader hash) as [hexHeader|];
    [destruct (fromHexString hexHeader) as [header|];
     [destruct (reassembleBlock header value)|]|];
    simpl; intuition discriminate.
Qed.

(** The method never reads the node id or the radius. *)
Lemma addContentToHistory_ignores_radius cm cm' t hashKey value :
  db cm' = db cm -> routingTableSize cm' = routingTableSize cm ->
  add cm' t hashKey value = add cm t hashKey value.
Proof.
  intros Hdb Hrt. unfold addContentToHistory, blockFor, afterSwitch.
  rewrite Hdb, Hrt. reflexivity.
Qed.


(** Hex strings written by [toHexString] decode back. *)
Hypothesis fromHexString_toHexString : forall bs, fromHexString (toHexString bs) = Ok bs.

(** C2 (amended): for a block header, the value is written (under the
    header's content key, followed by the ContentAdded observation and, with
    peers in the routing table, the gossip entry) if and only if it decodes
    to a header whose hash, as [toHexString] writes it, is the key string
    itself; otherwise the call has no effect at all: no write, no
    observation, no gossip, the store as it was. *)
Theorem addContentToHistory_header cm hashKey value :
  let effects := snd (add cm BlockHeader hashKey value) in
  ((exists k v, In (DbPut k v) effects) <->
   headerMatches Header fromRLPSerializedHeader headerHash hashKey value) /\
  (headerMatches Header fromRLPSerializedHeader headerHash hashKey value ->
   exists hash,
     fromHexString hashKey = Ok hash /\
     effects =
       DbPut (getHistoryNetworkContentKey BlockHeader hash) (toHexString value)
       :: Emit (ContentAdded hashKey BlockHeader (toHexString value))
       :: (if (0 <? routingTableSize cm)%nat then [GossipAdd hashKey BlockHeader] else []) /\
     dbAfter (db cm) effects =
       <[getHistoryNetworkContentKey BlockHeader hash := toHexString value]> (db cm)) /\
  (~ headerMatches Header fromRLPSerializedHeader headerHash hashKey value ->
   effects = [] /\ dbAfter (db cm) effects = db cm).
Proof.
  cbv zeta. unfold addContentToHistory, headerMatches.
  destruct (fromRLPSerializedHeader value) as [header|msg] eqn:Hrlp.
  - destruct (String.eqb (toHexString (headerHash header)) hashKey) eqn:Heq.
    + apply String.eqb_eq in Heq.
      assert (Hhex : fromHexString hashKey = Ok (headerHash header)).
      { rewrite <- Heq. apply fromHexString_toHexString. }
      rewrite Hhex. cbn [negb snd]. split; [|split].
      * split; [intros _; exists header; auto|].
        intros _. eexists _, _. left. reflexivity.
      * intros _. exists (headerHash header). split; [reflexivity|].
        unfold afterSwitch. split; [reflexivity|].
        cbn [app dbAfter]. destruct (0 <? routingTableSize cm)%nat; reflexivity.
      * intros Hno. exfalso. apply Hno. exists header. auto.
    + apply String.eqb_neq in Heq.
      destruct (fromHexString hashKey); cbn [negb snd]; (split; [|split]);
        try (split; [intros (k & v & []) | intros (h & Hh & Hm); injection Hh as <-; contradiction]);
        try (intros (h & Hh & Hm); injection Hh as <-; contradiction);
        try (intros _; split; reflexivity).
  - destruct (fromHexString hashKey); cbn [snd]; (split; [|split]);
      try (split; [intros (k & v & []) | intros (h & Hh & _); discriminate]);
      try (intros (h & Hh & _); discriminate);
      try (intros _; split; reflexivity).
Qed.
End AddContent.


(** C2, as stated, fails: the key "0xAB" spells the hash of the header with
    upper-case digits; the value decodes to a header whose hash is the block
    hash the key decodes to, and yet nothing is written. *)
Lemma upper_case_key_stores_nothing :
  anyCaseHexToBytes "0xAB" = Ok [xab] /\
  Sample.fromRLPSerializedHeader [xab] = Ok [xab] /\
  Sample.headerHash [xab] = [xab] /\
  addContentToHistory anyCaseHexToBytes Sample.getHistoryNetworkContentKey bytes bytes bytes
    Sample.fromRLPSerializedHeader Sample.headerHash Sample.reassembleBlock
    Sample.getBlockByHash Sample.transactionsLength Sample.deserializeProof
    Sample.verifyInclusionProof Sample.manager BlockHeader "0xAB" [xab] = (Ok tt, []) /\
  addContentToHistory anyCaseHexToBytes Sample.getHistoryNetworkContentKey bytes bytes bytes
    Sample.fromRLPSerializedHeader Sample.headerHash Sample.reassembleBlock
    Sample.getBlockByHash Sample.transactionsLength Sample.deserializeProof
    Sample.verifyInclusionProof Sample.manager BlockHeader "0xab" [xab] =
    (Ok tt, [DbPut "0x00ab" "0xab"; Emit (ContentAdded "0xab" BlockHeader "0xab")]).
Proof. repeat split; vm_compute; reflexivity. Qed.


Lemma addContentToHistory_header_witness :
  (forall bs, strictHexToBytes (toHexString bs) = Ok bs) /\
  snd (Sample.addContent Sample.manager BlockHeader "0xaabb" [xaa; xbb]) =
    [DbPut "0x00aabb" "0xaabb"; Emit (ContentAdded "0xaabb" BlockHeader "0xaabb")] /\
  snd (Sample.addContent Sample.manager BlockHeader "0xaabb" [xaa; xbc]) = [].
Proof.
  split; [exact strictHexToBytes_toHexString|]. split.
  - destruct (proj1 (proj2 (addContentToHistory_header strictHexToBytes
                      Sample.getHistoryNetworkContentKey bytes bytes bytes
                      Sample.fromRLPSerializedHeader Sample.headerHash Sample.reassembleBlock
                      Sample.getBlockByHash Sample.transactionsLength Sample.deserializeProof
                      Sample.verifyInclusionProof strictHexToBytes_toHexString
                      Sample.manager "0xaabb" [xaa; xbb])))
      as (hash & Hhex & Heffs & _).
    + exists [xaa; xbb]. split; reflexivity.
    + vm_compute in Hhex. injection Hhex as <-. exact Heffs.
  - apply (proj2 (proj2 (addContentToHistory_header strictHexToBytes
                    Sample.getHistoryNetworkContentKey bytes bytes bytes
                    Sample.fromRLPSerializedHeader Sample.headerHash Sample.reassembleBlock
                    Sample.getBlockByHash Sample.transactionsLength Sample.deserializeProof
                    Sample.verifyInclusionProof strictHexToBytes_toHexString
                    Sample.manager "0xaabb" [xaa; xbc]))).
    intros (header & Hrlp & Hhash). vm_compute in Hrlp. injection Hrlp as <-.
    vm_compute in Hhash. discriminate Hhash.
Defined.

End HistoryFacts.

(** * Further properties of the modelled code *)

(** ** History content admission: effects of a call *)
Module HistoryEffectFacts.
Import History HexFacts.
#[local] Set Warnings "-clear-no-such-hyp".

Lemma dbAfter_app (d : gmap string string) (e1 e2 : list Effect) :
  dbAfter d (e1 ++ e2) = dbAfter (dbAfter d e1) e2.
Proof.
  revert d. induction e1 as [|e e1 IH]; intros d; [reflexivity|].
  destruct e; simpl; apply IH.
Qed.

Lemma dbAfter_no_put (d : gmap string string) (effects : list Effect) :
  (forall k v, ~ In (DbPut k v) effects) -> dbAfter d effects = d.
Proof.
  revert d. induction effects as [|e effects IH]; intros d Hno; [reflexivity|].
  destruct e; simpl; try (apply IH; intros k v Hin; apply (Hno k v); right; exact Hin).
  exfalso. apply (Hno key value). left. reflexivity.
Qed.

Section AddContent.
Variable fromHexString : string -> Result bytes.
Variable getHistoryNetworkContentKey : HistoryNetworkContentTypes -> bytes -> string.
Variable Header Block Proof : Type.
Variable fromRLPSerializedHeader : bytes -> Result Header.
Variable headerHash : Header -> bytes.
Variable reassembleBlock : bytes -> bytes -> Result Block.
Variable getBlockByHash : string -> Result (option Block).
Variable transactionsLength : Block -> nat.
Variable deserializeProof : bytes -> Result Proof.
Variable verifyInclusionProof : Proof -> string -> Result bool.

Local Abbreviation add :=
  (addContentToHistory fromHexString getHistoryNetworkContentKey Header Block Proof
     fromRLPSerializedHeader headerHash reassembleBlock getBlockByHash
     transactionsLength deserializeProof verifyInclusionProof).
Local Abbreviation blockOf :=
  (blockFor fromHexString getHistoryNetworkContentKey Block reassembleBlock getBlockByHash).

Lemma blockFor_cases cm hash hashKey value :
  (exists hexHeader header block,
     db cm !! getHistoryNetworkContentKey BlockHeader hash = Some hexHeader /\
     fromHexString hexHeader = Ok header /\
     reassembleBlock header value = Ok block /\
     blockOf cm hash hashKey value = (Ok (Some block), [])) \/
  (~ (exists hexHeader header block,
        db cm !! getHistoryNetworkContentKey BlockHeader hash = Some hexHeader /\
        fromHexString hexHeader = Ok header /\
        reassembleBlock header value = Ok block) /\
   blockOf cm hash hashKey value = (getBlockByHash hashKey, [GetBlockByHash hashKey])).
Proof.
  unfold blockFor.
  destruct (db cm !! getHistoryNetworkContentKey BlockHeader hash) as [hexHeader|] eqn:Hdb;
    [destruct (fromHexString hexHeader) as [header|] eqn:Hh;
     [destruct (reassembleBlock header value) as [block|] eqn:Hb|]|].
  - left. exists hexHeader, header, block. auto.
  - right. split; [|reflexivity]. intros (x & y & z & Hx & Hy & Hz). congruence.
  - right. split; [|reflexivity]. intros (x & y & z & Hx & Hy & Hz). congruence.
  - right. split; [|reflexivity]. intros (x & y & z & Hx & Hy & Hz). congruence.
Qed.

(** Case analysis on a call: the hex key, the type, and what each type
    tests, down to the list of effects. *)
Ltac add_cases cm t hashKey value :=
  unfold addContentToHistory;
  let hash := fresh "hash" in
  destruct (fromHexString hashKey) as [hash|] eqn:?;
  [ destruct t;
    [ destruct (fromRLPSerializedHeader value) as [?header|] eqn:?;
      [ destruct (String.eqb (toHexString (headerHash header)) hashKey) eqn:? | ]
    | destruct (length value =? 0)%nat eqn:?;
      [ | let Hc := fresh "Hcase" in
          destruct (blockFor_cases cm hash hashKey value)
            as [(?hexHeader & ?header & ?block & ? & ? & ? & Hc)|[? Hc]];
          rewrite Hc;
          [ destruct (0 <? transactionsLength block)%nat eqn:?
          | destruct (getBlockByHash hashKey) as [[?block|]|] eqn:?;
            [ destruct (0 <? transactionsLength block)%nat eqn:? | | ] ] ]
    | | | | ]
  | ];
  unfold afterSwitch; destruct (0 <? routingTableSize cm)%nat eqn:?;
  cbn [fst snd app negb dbAfter].

(** X1: a ContentAdded observation is emitted exactly when the call wrote to
    the store, and it always carries the key, the type and the value of the
    call. *)
Theorem content_added_iff_written cm t hashKey value :
  let effects := snd (add cm t hashKey value) in
  ((exists k v, In (DbPut k v) effects) <->
   In (Emit (ContentAdded hashKey t (toHexString value))) effects) /\
  (forall k t' c, In (Emit (ContentAdded k t' c)) effects ->
                  k = hashKey /\ t' = t /\ c = toHexString value).
Proof.
  cbv zeta. add_cases cm t hashKey value; simpl; naive_solver.
Qed.

(** X2: a call changes the backing store at no key but the content key of
    its type and hash, and there only to the value it was given. *)
Theorem store_changes_only_at_content_key cm t hashKey value :
  let effects := snd (add cm t hashKey value) in
  dbAfter (db cm) effects = db cm \/
  exists hash,
    fromHexString hashKey = Ok hash /\
    dbAfter (db cm) effects =
      <[getHistoryNetworkContentKey t hash := toHexString value]> (db cm).
Proof.
  cbv zeta. add_cases cm t hashKey value; eauto.
Qed.

(** X3: a call rejects for one of three reasons only: a key that is not
    hex, a content type outside the five, which the encoder of content keys
    rejects before the [switch] is reached, or a rejection by the network
    while it looked for the block of a body.  A rejected call has written
    nothing, emitted nothing and gossiped nothing. *)
Theorem rejected_call_leaves_no_trace cm t hashKey value msg :
  fst (add cm t hashKey value) = Throw msg ->
  let effects := snd (add cm t hashKey value) in
  (fromHexString hashKey = Throw msg \/
   (exists code, t = OtherType code /\ msg = "unsupported content type") \/
   (t = BlockBody /\ getBlockByHash hashKey = Throw msg)) /\
  (forall e, In e effects -> e = GetBlockByHash hashKey) /\
  dbAfter (db cm) effects = db cm.
Proof.
  cbv zeta. add_cases cm t hashKey value; simpl; intros Hthrow;
    try discriminate Hthrow; try (injection Hthrow as <-); naive_solver.
Qed.

(** X4: a header proof is never stored; the call emits one Verified
    observation, true exactly when the proof deserializes and the
    accumulator accepts it, and hands the key to gossip whenever the routing
    table has a peer, whether the proof verified or not. *)
Theorem header_proof_effects cm hashKey value hash :
  fromHexString hashKey = Ok hash ->
  exists verified,
    add cm HeaderProof hashKey value =
      (Ok tt,
       Emit (Verified hashKey verified)
       :: (if (0 <? routingTableSize cm)%nat then [GossipAdd hashKey HeaderProof] else [])) /\
    (verified = true <->
     exists proof, deserializeProof value = Ok proof /\
                   verifyInclusionProof proof hashKey = Ok true) /\
    dbAfter (db cm) (snd (add cm HeaderProof hashKey value)) = db cm.
Proof.
  intros Hhex. unfold addContentToHistory, afterSwitch. rewrite Hhex.
  eexists. split; [reflexivity|]. split.
  - destruct (deserializeProof value) as [proof|] eqn:Hd.
    + destruct (verifyInclusionProof proof hashKey) as [[]|] eqn:Hv.
      * split; [intros _; exists proof; auto|reflexivity].
      * split; [discriminate|]. intros (p & Hp & Hp'). congruence.
      * split; [discriminate|]. intros (p & Hp & Hp'). congruence.
    + split; [discriminate|]. intros (p & Hp & _). discriminate.
  - cbn [snd dbAfter app]. destruct (0 <? routingTableSize cm)%nat; reflexivity.
Qed.

(** X5: the network is asked for a block only for a body, with a valid key
    and a non-empty value, whose block could not be rebuilt from a header in
    the store; it is asked for the key of the call. *)
Theorem network_asked_only_without_local_header cm t hashKey value h :
  In (GetBlockByHash h) (snd (add cm t hashKey value)) ->
  t = BlockBody /\ h = hashKey /\ value <> [] /\
  exists hash,
    fromHexString hashKey = Ok hash /\
    ~ (exists hexHeader header block,
         db cm !! getHistoryNetworkContentKey BlockHeader hash = Some hexHeader /\
         fromHexString hexHeader = Ok header /\
         reassembleBlock header value = Ok block).
Proof.
  add_cases cm t hashKey value; simpl; intros Hin;
    repeat match goal with
      | H : _ \/ _ |- _ => destruct H
      | H : False |- _ => contradiction
      | H : _ = GetBlockByHash _ |- _ => first [discriminate H | injection H as <-]
      end;
    (split; [reflexivity|]); (split; [reflexivity|]);
    (split; [intros ->; discriminate|]); eauto.
Qed.

(** X6: a key is handed to gossip exactly when the routing table has a peer
    and the call either wrote to the store or was for a header proof with a
    valid key; with no peer nothing is gossiped. *)
Theorem gossip_iff_peers_and_written cm t hashKey value :
  let effects := snd (add cm t hashKey value) in
  forall k t',
    In (GossipAdd k t') effects <->
    k = hashKey /\ t' = t /\ (0 < routingTableSize cm)%nat /\
    ((exists key v, In (DbPut key v) effects) \/
     (t = HeaderProof /\ exists hash, fromHexString hashKey = Ok hash)).
Proof.
  cbv zeta. intros k t'.
  add_cases cm t hashKey value; simpl;
    repeat match goal with
      | H : (0 <? _)%nat = true |- _ => apply Nat.ltb_lt in H
      | H : (0 <? _)%nat = false |- _ => apply Nat.ltb_ge in H
      end;
    split; intros Hgossip; try (exfalso; naive_solver lia); naive_solver.
Qed.
End AddContent.

End HistoryEffectFacts.

Module HistoryEffectWitness.
Import History HistoryEffectFacts.

Lemma rejected_call_leaves_no_trace_witness :
  fst (Sample.addContent Sample.manager (OtherType 9) "0xaa" [x01]) =
    Throw "unsupported content type" /\
  (forall e, In e (snd (Sample.addContent Sample.manager (OtherType 9) "0xaa" [x01])) ->
             e = GetBlockByHash "0xaa") /\
  dbAfter (db Sample.manager)
    (snd (Sample.addContent Sample.manager (OtherType 9) "0xaa" [x01])) = db Sample.manager.
Proof.
  split; [reflexivity|].
  exact (proj2 (rejected_call_leaves_no_trace strictHexToBytes
                  Sample.getHistoryNetworkContentKey bytes bytes bytes
                  Sample.fromRLPSerializedHeader Sample.headerHash Sample.reassembleBlock
                  Sample.getBlockByHash Sample.transactionsLength Sample.deserializeProof
                  Sample.verifyInclusionProof Sample.manager (OtherType 9) "0xaa" [x01]
                  "unsupported content type" eq_refl)).
Defined.

Lemma header_proof_effects_witness :
  strictHexToBytes "0xaa" = Ok [xaa] /\
  exists verified,
    Sample.addContent
      {| nodeId := 0; radius := 0; db := ∅; routingTableSize := 3 |}
      HeaderProof "0xaa" [x01] =
      (Ok tt, [Emit (Verified "0xaa" verified); GossipAdd "0xaa" HeaderProof]) /\
    verified = false.
Proof.
  split; [reflexivity|].
  destruct (header_proof_effects strictHexToBytes
              Sample.getHistoryNetworkContentKey bytes bytes bytes
              Sample.fromRLPSerializedHeader Sample.headerHash Sample.reassembleBlock
              Sample.getBlockByHash Sample.transactionsLength Sample.deserializeProof
              Sample.verifyInclusionProof
              {| nodeId := 0; radius := 0; db := ∅; routingTableSize := 3 |}
              "0xaa" [x01] [xaa] eq_refl) as (verified & Hrun & Hiff & _).
  exists verified. split; [exact Hrun|].
  destruct verified; [|reflexivity].
  destruct (proj1 Hiff eq_refl) as (proof & _ & Hv). discriminate Hv.
Defined.

Lemma network_asked_only_without_local_header_witness :
  In (GetBlockByHash "0xaa") (snd (Sample.addContent Sample.manager BlockBody "0xaa" [x01])) /\
  db Sample.manager !! Sample.getHistoryNetworkContentKey BlockHeader [xaa] = None.
Proof.
  assert (Hin : In (GetBlockByHash "0xaa")
                   (snd (Sample.addContent Sample.manager BlockBody "0xaa" [x01])))
    by (left; reflexivity).
  split; [exact Hin|].
  destruct (network_asked_only_without_local_header strictHexToBytes
              Sample.getHistoryNetworkContentKey bytes bytes bytes
              Sample.fromRLPSerializedHeader Sample.headerHash Sample.reassembleBlock
              Sample.getBlockByHash Sample.transactionsLength Sample.deserializeProof
              Sample.verifyInclusionProof Sample.manager BlockBody "0xaa" [x01] "0xaa" Hin)
    as (_ & _ & _ & hash & Hhex & Hno).
  reflexivity.
Defined.

End HistoryEffectWitness.

(** ** The state sub-protocol: outcomes of a FINDCONTENT exchange *)
Module StateNetworkMoreFacts.
Import StateNetwork HexFacts.

Lemma toHexString_truthy (bs : bytes) :
  exists c s, toHexString bs = String c s.
Proof. eexists _, _. reflexivity. Qed.

Section Methods.
Variable ENR : Type.
Variable decodeTxt : string -> Result ENR.
Variable getWithPending : string -> option ENR.
Variable serializeFindContent : bytes -> bytes.
Variable sendMessage : ENR -> bytes -> Result bytes.
Variable deserializeContent : bytes -> Result ContentMessage.
Variable decodeHistoryNetworkContentKey : string -> N * string.
Variable hexToBytes : string -> Result bytes.
Hypothesis hexToBytes_toHexString : forall bs, hexToBytes (toHexString bs) = Ok bs.

Local Abbreviation find :=
  (sendFindContent ENR decodeTxt getWithPending serializeFindContent sendMessage
     deserializeContent decodeHistoryNetworkContentKey).

(** X7: content stored under a key is what [findContentLocally] returns for
    that key, and the answers for all other keys stay as they were. *)
Theorem stateStore_then_findContentLocally (p : Protocol) (contentKey content : bytes) :
  let p' := stateStore p (toHexString contentKey) (toHexString content) in
  findContentLocally hexToBytes p' contentKey = Ok content /\
  requests p' = requests p /\
  (forall other, other <> contentKey ->
     findContentLocally hexToBytes p' other = findContentLocally hexToBytes p other).
Proof.
  cbv zeta. unfold findContentLocally, retrieve, stateStore. cbn [db requests].
  split; [|split; [reflexivity|]].
  - rewrite lookup_insert_eq.
    destruct (toHexString_truthy content) as (c & s & Hs). rewrite Hs, <- Hs.
    apply hexToBytes_toHexString.
  - intros other Hne. rewrite lookup_insert_ne; [reflexivity|].
    intros Heq. apply toHexString_inj in Heq. congruence.
Qed.

(** X8: whatever the peer answers, the method returns a union only if that
    union is what the response decodes to, and then the protocol has changed
    by the arm of the union alone: one uTP request whose connection id is
    read from the payload, or the content stored under the key, or nothing
    for a list of ENRs.  Whenever it returns [undefined] or rejects, the
    protocol is as it was. *)
Theorem sendFindContent_outcomes (p : Protocol) (dstId : string) (key : bytes) :
  match find p dstId key with
  | (Ok (Some decoded), p') =>
      (exists enr code payload,
         resolveEnr ENR decodeTxt getWithPending dstId = Ok (Some enr) /\
         sendMessage enr (serializeFindContent key) = Ok (code :: payload) /\
         Byte.to_N code = MessageCodes_CONTENT /\
         deserializeContent payload = Ok decoded) /\
      match decoded with
      | FoundUTP value =>
          exists id,
            getUint16 value = Some id /\
            db p' = db p /\
            requests p' = requests p ++
              [{| contentKeys := [key]; peerId := dstId; connectionId := id;
                  requestCode := FINDCONTENT_READ; contents := [] |}]
      | FoundCONTENT value =>
          p' = stateStore p (toHexString key) (toHexString value)
      | FoundENRS _ => p' = p
      end
  | (_, p') => p' = p
  end.
Proof.
  unfold sendFindContent.
  destruct (resolveEnr ENR decodeTxt getWithPending dstId) as [[enr|]|] eqn:Henr;
    [|reflexivity|reflexivity].
  destruct (sendMessage enr (serializeFindContent key)) as [[|code payload]|] eqn:Hres;
    [reflexivity| |reflexivity].
  destruct (Byte.to_N code =? MessageCodes_CONTENT)%N eqn:Hcode; [|reflexivity].
  apply N.eqb_eq in Hcode. unfold onContent.
  destruct (deserializeContent payload) as [decoded|] eqn:Hdec; [|reflexivity].
  destruct decoded as [value|value|enrs].
  - destruct (getUint16 value) as [id|] eqn:Hid; [|reflexivity].
    split; [exists enr, code, payload; auto|]. exists id. auto.
  - split; [exists enr, code, payload; auto|]. reflexivity.
  - split; [exists enr, code, payload; auto|]. reflexivity.
Qed.

(** X9: content that a peer returns inline is served locally from then on:
    after the exchange [findContentLocally] returns it for the key asked. *)
Theorem inline_content_is_served_locally (p p' : Protocol) (dstId : string)
    (key value : bytes) :
  find p dstId key = (Ok (Some (FoundCONTENT value)), p') ->
  findContentLocally hexToBytes p' key = Ok value /\ requests p' = requests p.
Proof.
  unfold sendFindContent. intros Hrun.
  destruct (resolveEnr ENR decodeTxt getWithPending dstId) as [[enr|]|];
    try discriminate Hrun.
  destruct (sendMessage enr (serializeFindContent key)) as [[|code payload]|];
    try discriminate Hrun.
  destruct (Byte.to_N code =? MessageCodes_CONTENT)%N; try discriminate Hrun.
  unfold onContent in Hrun.
  destruct (deserializeContent payload) as [[v|v|enrs]|]; try discriminate Hrun.
  - destruct (getUint16 v); discriminate Hrun.
  - injection Hrun as <- <-.
    unfold findContentLocally, retrieve, stateStore. cbn [db requests].
    rewrite lookup_insert_eq.
    destruct (toHexString_truthy v) as (c & s & Hs). rewrite Hs, <- Hs.
    split; [apply hexToBytes_toHexString|reflexivity].
Qed.

End Methods.

(** A peer that answers every request with the given response. *)
Local Abbreviation findWith response :=
  (sendFindContent unit (fun _ => Ok tt) (fun _ => Some tt) (fun k => k)
     (fun _ _ => Ok response)
     (fun b => match b with
               | x00 :: rest => Ok (FoundUTP rest)
               | x01 :: rest => Ok (FoundCONTENT rest)
               | _ => Throw "unsupported"
               end)
     (fun s => (0%N, s))).

Lemma stateStore_then_findContentLocally_witness :
  (forall bs, strictHexToBytes (toHexString bs) = Ok bs) /\
  findContentLocally strictHexToBytes
    (stateStore {| db := ∅; requests := [] |} "0x01" "0xbeef") [x01] = Ok [xbe; xef].
Proof.
  split; [exact strictHexToBytes_toHexString|].
  exact (proj1 (stateStore_then_findContentLocally strictHexToBytes
                  strictHexToBytes_toHexString {| db := ∅; requests := [] |}
                  [x01] [xbe; xef])).
Defined.

Lemma inline_content_is_served_locally_witness :
  findWith [x05; x01; xbe; xef] {| db := ∅; requests := [] |} "0xabcd" [x07] =
    (Ok (Some (FoundCONTENT [xbe; xef])), {| db := {["0x07" := "0xbeef"]}; requests := [] |}) /\
  findContentLocally strictHexToBytes {| db := {["0x07" := "0xbeef"]}; requests := [] |} [x07] =
    Ok [xbe; xef].
Proof.
  assert (Hrun : findWith [x05; x01; xbe; xef] {| db := ∅; requests := [] |} "0xabcd" [x07] =
                 (Ok (Some (FoundCONTENT [xbe; xef])),
                  {| db := {["0x07" := "0xbeef"]}; requests := [] |})) by reflexivity.
  split; [exact Hrun|].
  exact (proj1 (inline_content_is_served_locally unit (fun _ => Ok tt) (fun _ => Some tt)
                  (fun k => k) (fun _ _ => Ok [x05; x01; xbe; xef]) _ (fun s => (0%N, s))
                  strictHexToBytes strictHexToBytes_toHexString _ _ _ _ _ Hrun)).
Defined.

End StateNetworkMoreFacts.

(** ** Beacon content keys: what a key determines *)
Module BeaconMoreFacts.
Import Beacon HexFacts.

Section Keys.
Variable selectorOf : BeaconLightClientNetworkContentType -> byte.
Variable Decoded : Type.
Variable deserialize : Ssz.t -> bytes -> Result Decoded.
Hypothesis selectorOf_inj : forall t1 t2, selectorOf t1 = selectorOf t2 -> t1 = t2.

Lemma key_is_hex (t : BeaconLightClientNetworkContentType) (b : bytes) :
  getBeaconContentKey selectorOf t b = toHexString (selectorOf t :: b).
Proof. unfold getBeaconContentKey. symmetry. apply toHexString_cons. Qed.

(** X11: a content key determines its content type and its body: two keys
    are equal only if both are. *)
Theorem getBeaconContentKey_injective
    (t1 t2 : BeaconLightClientNetworkContentType) (b1 b2 : bytes) :
  getBeaconContentKey selectorOf t1 b1 = getBeaconContentKey selectorOf t2 b2 ->
  t1 = t2 /\ b1 = b2.
Proof.
  rewrite !key_is_hex. intros Heq. apply toHexString_inj in Heq.
  injection Heq as Hs Hb. split; [apply selectorOf_inj; exact Hs|exact Hb].
Qed.

(** X12: decoding deserializes the rest of the key, under the type wired to
    a content type, only when the first byte is that content type's
    selector; an empty key and a first byte that is no selector are errors
    and reach no deserializer. *)
Theorem decodeBeaconContentKey_dispatch (serializedKey : bytes) :
  match serializedKey with
  | [] =>
      decodeBeaconContentKey selectorOf Decoded deserialize serializedKey =
        Throw "unknown content type undefined"
  | selector :: rest =>
      (forall t, selector = selectorOf t ->
         decodeBeaconContentKey selectorOf Decoded deserialize serializedKey =
           deserialize (deserializedAs t) rest) /\
      ((forall t, selector <> selectorOf t) ->
         decodeBeaconContentKey selectorOf Decoded deserialize serializedKey =
           Throw ("unknown content type " +:+ pretty (Byte.to_N selector)))
  end.
Proof.
  destruct serializedKey as [|selector rest]; [reflexivity|].
  unfold decodeBeaconContentKey. split.
  - intros t ->.
    assert (Heqb : forall t', Byte.eqb (selectorOf t) (selectorOf t') = bool_decide (t = t')).
    { intros t'. case_bool_decide as Ht.
      - subst. apply Byte.byte_dec_lb. reflexivity.
      - destruct (Byte.eqb (selectorOf t) (selectorOf t')) eqn:E; [|reflexivity].
        apply Byte.byte_dec_bl, selectorOf_inj in E. contradiction. }
    rewrite !Heqb. destruct t; reflexivity.
  - intros Hno.
    assert (Hf : forall t, Byte.eqb selector (selectorOf t) = false).
    { intros t. destruct (Byte.eqb selector (selectorOf t)) eqn:E; [|reflexivity].
      apply Byte.byte_dec_bl in E. exfalso. exact (Hno t E). }
    rewrite !Hf. reflexivity.
Qed.
End Keys.

Lemma portalSelector_distinct (t1 t2 : BeaconLightClientNetworkContentType) :
  portalSelector t1 = portalSelector t2 -> t1 = t2.
Proof. destruct t1, t2; simpl; intros H; try reflexivity; discriminate H. Qed.

Lemma getBeaconContentKey_injective_witness :
  getBeaconContentKey portalSelector LightClientBootstrap [x0a] =
    getBeaconContentKey portalSelector LightClientBootstrap [x0a] /\
  LightClientBootstrap = LightClientBootstrap /\ [x0a] = [x0a].
Proof.
  split; [reflexivity|].
  exact (getBeaconContentKey_injective portalSelector portalSelector_distinct
           LightClientBootstrap LightClientBootstrap [x0a] [x0a] eq_refl).
Defined.

Lemma decodeBeaconContentKey_dispatch_witness :
  decodeBeaconContentKey portalSelector bytes sampleDeserialize [x03; x0a] = Ok [x0a] /\
  decodeBeaconContentKey portalSelector bytes sampleDeserialize [x09; x0a] =
    Throw "unknown content type 9".
Proof.
  pose proof (decodeBeaconContentKey_dispatch portalSelector bytes sampleDeserialize
                portalSelector_distinct [x03; x0a]) as H3.
  pose proof (decodeBeaconContentKey_dispatch portalSelector bytes sampleDeserialize
                portalSelector_distinct [x09; x0a]) as H9.
  split.
  - exact (proj1 H3 LightClientOptimisticUpdate eq_refl).
  - apply (proj2 H9). intros t. destruct t; discriminate.
Defined.

End BeaconMoreFacts.

(** ** The state-manager adaptor: the root its reads are made against *)
Module StateManagerReadFacts.
Import StateManager StateManagerReads.

Section Reads.
Context {StateNetwork Address Account : Type}.
Variable addressToString : Address -> string.
Variable codeHashOf : Account -> bytes.
Variable networkGetAccount : StateNetwork -> string -> string -> Result (option Account).
Variable networkGetBytecode : StateNetwork -> string -> string -> Result (option bytes).
Variable networkGetContractStorage :
  StateNetwork -> string -> N -> string -> Result (option bytes).
Implicit Types (m : @UltralightStateManager StateNetwork) (c : @Call Address Account).

Lemma session_stateRoot (cs : list (@Call Address Account)) :
  forall m,
    state (session m cs) = state m /\
    stateRoot (session m cs) = lastRootHex cs (stateRoot m) /\
    stateRootBytes (session m cs) = lastRoot cs (stateRootBytes m).
Proof.
  induction cs as [|c cs IH]; intros m; [repeat split; reflexivity|].
  change (session m (c :: cs)) with (session (snd (perform m c)) cs).
  destruct (IH (snd (perform m c))) as (Hs & Hh & Hr).
  rewrite Hs, Hh, Hr. destruct c; repeat split; reflexivity.
Qed.

Lemma lastRootHex_in_sync (cs : list (@Call Address Account)) :
  forall (h : string) (r : bytes),
    (existsb setsRoot cs = true \/ h = toHexString r) ->
    lastRootHex cs h = toHexString (lastRoot cs r).
Proof.
  induction cs as [|c cs IH]; intros h r Hor.
  - destruct Hor as [Hor|Hor]; [discriminate Hor|exact Hor].
  - destruct c; simpl in *; try (apply IH; exact Hor).
    apply IH. right. reflexivity.
Qed.

Lemma lastRootHex_unset (cs : list (@Call Address Account)) :
  forall (h : string) (r : bytes),
    existsb setsRoot cs = false -> lastRootHex cs h = h /\ lastRoot cs r = r.
Proof.
  induction cs as [|c cs IH]; intros h r Hno; [split; reflexivity|].
  destruct c; simpl in *; try (apply IH; exact Hno). discriminate Hno.
Qed.

(** X13: after any calls on a fresh manager, the three reads ask the network
    about the hex string of the root last given to [setStateRoot], which is
    the hex string of what [getStateRoot] returns; before the first
    [setStateRoot] they ask about the empty string, which is not the hex
    string "0x" of the empty root that [getStateRoot] returns. *)
Theorem reads_use_last_root (net : StateNetwork) (cs : list (@Call Address Account))
    (address : Address) (key : bytes) :
  let m := session (constructor net) cs in
  let root := if existsb setsRoot cs then toHexString (stateRootBytes m) else "" in
  getAccount addressToString networkGetAccount m address =
    networkGetAccount net (addressToString address) root /\
  getContractStorage addressToString networkGetContractStorage m address key =
    match networkGetContractStorage net (addressToString address) (bytesToBigInt key) root with
    | Throw e => Throw e
    | Ok None => Ok []
    | Ok (Some res) => Ok res
    end /\
  (networkGetAccount net (addressToString address) root = Ok None ->
   getContractCode addressToString codeHashOf networkGetAccount networkGetBytecode m address =
     Ok []) /\
  (existsb setsRoot cs = false -> stateRootBytes m = [] /\ root <> toHexString []).
Proof.
  cbv zeta.
  destruct (session_stateRoot cs (constructor net)) as (Hs & Hh & Hr).
  assert (Hroot : stateRoot (session (constructor net) cs) =
                  if existsb setsRoot cs
                  then toHexString (stateRootBytes (session (constructor net) cs))
                  else "").
  { rewrite Hh, Hr. destruct (existsb setsRoot cs) eqn:E.
    - apply lastRootHex_in_sync. left. exact E.
    - apply (lastRootHex_unset cs "" []). exact E. }
  unfold getAccount, getContractStorage, getContractCode. rewrite Hs, Hroot.
  cbn [constructor state].
  split; [reflexivity|]. split; [reflexivity|]. split.
  - intros ->. reflexivity.
  - intros E. rewrite E, Hr. split; [apply (lastRootHex_unset cs "" []); exact E|discriminate].
Qed.

(** X14: a shallow copy reads from the same network but has forgotten the
    state root: whatever root the manager was given, the copy returns the
    empty root and reads against the empty string. *)
Theorem shallowCopy_forgets_root (net : StateNetwork) (cs : list (@Call Address Account))
    (address : Address) :
  let copy := shallowCopy (session (constructor net) cs) in
  copy = constructor net /\
  getStateRoot copy = (Ok [], copy) /\
  getAccount addressToString networkGetAccount copy address =
    networkGetAccount net (addressToString address) "".
Proof.
  cbv zeta. unfold shallowCopy.
  destruct (session_stateRoot cs (constructor net)) as (Hs & _ & _).
  rewrite Hs. repeat split.
Qed.

End Reads.

End StateManagerReadFacts.
(** ** JavaScript maps: set, delete and distinct keys *)
Module JSMapFacts.
Import JSFacts.

Section Keyed.
Context {V : Type}.
Implicit Types (m : list (string * V)) (k : string) (v : V).

Lemma get_set_other k k' v m : k <> k' -> JS.get k' (JS.set k v m) = JS.get k' m.
Proof.
  intros Hne. induction m as [|[k0 v0] m IH]; simpl.
  - destruct (String.eqb k' k) eqn:E; [apply String.eqb_eq in E; congruence|reflexivity].
  - destruct (String.eqb k k0) eqn:E; simpl.
    + apply String.eqb_eq in E. subst k0.
      destruct (String.eqb k' k) eqn:E'; [apply String.eqb_eq in E'; congruence|reflexivity].
    + destruct (String.eqb k' k0); [reflexivity|exact IH].
Qed.

Lemma get_delete_other k k' m : k <> k' -> JS.get k' (JS.delete k m) = JS.get k' m.
Proof.
  intros Hne. induction m as [|[k0 v0] m IH]; simpl; [reflexivity|].
  destruct (String.eqb k k0) eqn:E; simpl.
  - apply String.eqb_eq in E. subst k0.
    destruct (String.eqb k' k) eqn:E'; [apply String.eqb_eq in E'; congruence|reflexivity].
  - destruct (String.eqb k' k0); [reflexivity|exact IH].
Qed.

Lemma keys_delete_subseteq k m : JS.keys (JS.delete k m) ⊆ JS.keys m.
Proof.
  induction m as [|[k0 v0] m IH]; simpl; [reflexivity|].
  destruct (String.eqb k k0); simpl.
  - apply list_subseteq_cons. reflexivity.
  - intros x Hx. apply elem_of_cons in Hx as [->|Hx]; [left|right; apply IH; exact Hx].
Qed.

Lemma NoDup_keys_delete k m : NoDup (JS.keys m) -> NoDup (JS.keys (JS.delete k m)).
Proof.
  induction m as [|[k0 v0] m IH]; simpl; intros Hnd; [exact Hnd|].
  apply NoDup_cons in Hnd as [Hk0 Hnd].
  destruct (String.eqb k k0); simpl; [exact Hnd|].
  apply NoDup_cons. split; [|apply IH; exact Hnd].
  intros Hin. apply Hk0. apply (keys_delete_subseteq k m). exact Hin.
Qed.

Lemma get_delete_same k m : NoDup (JS.keys m) -> JS.get k (JS.delete k m) = None.
Proof.
  induction m as [|[k0 v0] m IH]; simpl; intros Hnd; [reflexivity|].
  apply NoDup_cons in Hnd as [Hk0 Hnd].
  destruct (String.eqb k k0) eqn:E; simpl.
  - apply String.eqb_eq in E. subst k0. apply get_None_not_key. exact Hk0.
  - rewrite E. apply IH. exact Hnd.
Qed.

Lemma keys_set k v m :
  JS.keys (JS.set k v m) =
  match JS.get k m with Some _ => JS.keys m | None => JS.keys m ++ [k] end.
Proof.
  induction m as [|[k0 v0] m IH]; simpl; [reflexivity|].
  destruct (String.eqb k k0) eqn:E; simpl.
  - apply String.eqb_eq in E. subst. reflexivity.
  - rewrite IH. destruct (JS.get k m); reflexivity.
Qed.

Lemma NoDup_keys_set k v m : NoDup (JS.keys m) -> NoDup (JS.keys (JS.set k v m)).
Proof.
  intros Hnd. rewrite keys_set. destruct (JS.get k m) eqn:E; [exact Hnd|].
  apply NoDup_app. split; [exact Hnd|]. split; [|apply NoDup_singleton].
  intros x Hx Hx'. apply list_elem_of_singleton in Hx'. subst x.
  apply get_None_not_key in E. contradiction.
Qed.

Lemma NoDup_keys_fromEntries (es : list (string * V)) : NoDup (JS.keys (JS.fromEntries es)).
Proof.
  unfold JS.fromEntries.
  assert (H : forall m, NoDup (JS.keys m) ->
                        NoDup (JS.keys (foldl (fun m e => JS.set (fst e) (snd e) m) m es))).
  { induction es as [|e es IH]; intros m Hm; [exact Hm|].
    simpl. apply IH. apply NoDup_keys_set. exact Hm. }
  apply H. apply NoDup_nil_2.
Qed.

Lemma get_Some_elem_of k v m : JS.get k m = Some v -> (k, v) ∈ m.
Proof.
  induction m as [|[k0 v0] m IH]; simpl; [discriminate|].
  destruct (String.eqb k k0) eqn:E.
  - apply String.eqb_eq in E. subst. intros [= ->]. left.
  - intros H. right. apply IH. exact H.
Qed.
End Keyed.

End JSMapFacts.

(** ** The state database: reading and writing a [TrieLevel] *)
Module TrieLevelFacts.
Import StateDatabase StateDatabaseMore HexFacts.

Section Levels.
Context {StateRootIndex : Type}.
Variable fromHexString : string -> Result bytes.
Hypothesis fromHexString_toHexString : forall bs, fromHexString (toHexString bs) = Ok bs.
Implicit Types (s : @Store StateRootIndex) (d : @StateDB StateRootIndex) (l : TrieLevel).

Lemma TrieLevel_get_run l key s :
  TrieLevel_get fromHexString l key s = Some (Ok (readKey fromHexString s l key), s).
Proof.
  unfold TrieLevel_get, readKey.
  destruct (levels s !! level_db l) as [m|]; [|reflexivity].
  destruct (entries m !! toHexString key) as [v|]; [|reflexivity].
  destruct (fromHexString v); reflexivity.
Qed.

(** What a reader sees after one operation of a batch. *)
Lemma readKey_put l key val lv d key' :
  (level_db l < length lv)%nat ->
  readKey fromHexString
    {| levels := alter (fun m => {| entries := <[toHexString key := toHexString val]> (entries m);
                                    status := status m; latency := latency m |})
                       (level_db l) lv;
       this := d |} l key' =
  if bool_decide (key = key') then Some val
  else readKey fromHexString {| levels := lv; this := d |} l key'.
Proof.
  intros Hl. unfold readKey. cbn [levels].
  rewrite list_lookup_alter_eq.
  destruct (lookup_lt_is_Some_2 _ _ Hl) as [m Hm]. rewrite Hm. cbn.
  case_bool_decide as Hk.
  - subst. rewrite lookup_insert_eq, fromHexString_toHexString. reflexivity.
  - rewrite lookup_insert_ne; [reflexivity|].
    intros Heq. apply toHexString_inj in Heq. contradiction.
Qed.

Lemma readKey_del l key lv d key' :
  (level_db l < length lv)%nat ->
  readKey fromHexString
    {| levels := alter (fun m => {| entries := base.delete (toHexString key) (entries m);
                                    status := status m; latency := latency m |})
                       (level_db l) lv;
       this := d |} l key' =
  if bool_decide (key = key') then None
  else readKey fromHexString {| levels := lv; this := d |} l key'.
Proof.
  intros Hl. unfold readKey. cbn [levels].
  rewrite list_lookup_alter_eq.
  destruct (lookup_lt_is_Some_2 _ _ Hl) as [m Hm]. rewrite Hm. cbn.
  case_bool_decide as Hk.
  - subst. rewrite lookup_delete_eq. reflexivity.
  - rewrite lookup_delete_ne; [reflexivity|].
    intros Heq. apply toHexString_inj in Heq. contradiction.
Qed.

Lemma readKey_other_level l l' f lv d key :
  level_db l' <> level_db l ->
  readKey fromHexString {| levels := alter f (level_db l) lv; this := d |} l' key =
  readKey fromHexString {| levels := lv; this := d |} l' key.
Proof.
  intros Hne. unfold readKey. cbn [levels].
  rewrite list_lookup_alter_ne by congruence. reflexivity.
Qed.

Lemma status_alter (f : MemoryLevel -> MemoryLevel) (i j : nat) (lv : list MemoryLevel) :
  (forall m, status (f m) = status m) ->
  status <$> alter f i lv !! j = status <$> lv !! j.
Proof.
  intros Hf. destruct (decide (i = j)) as [->|Hne].
  - rewrite list_lookup_alter_eq. destruct (lv !! j); cbn; [rewrite Hf|]; reflexivity.
  - rewrite list_lookup_alter_ne by exact Hne. reflexivity.
Qed.

Lemma status_lt l s (st : TrieLevelStatus) :
  TrieLevel_status l s = Some st -> (level_db l < length (levels s))%nat.
Proof.
  unfold TrieLevel_status. intros H.
  destruct (levels s !! level_db l) as [m|] eqn:Hm; [|discriminate].
  apply lookup_lt_Some in Hm. exact Hm.
Qed.

(** X15: on an open database, [get] after [put] returns the value
    put and [get] after [del] returns [null]; neither changes what is read
    at another key or in another database, nor the [StateDB] object, and
    the database stays open. *)
Theorem trieLevel_put_get_del l (key val : bytes) s :
  TrieLevel_status l s = Some Open ->
  exists s1 s2,
    TrieLevel_put l key val s = Some (Ok tt, s1) /\
    TrieLevel_get fromHexString l key s1 = Some (Ok (Some val), s1) /\
    TrieLevel_del l key s1 = Some (Ok tt, s2) /\
    TrieLevel_get fromHexString l key s2 = Some (Ok None, s2) /\
    (forall key', key' <> key ->
       fst <$> TrieLevel_get fromHexString l key' s1 =
         fst <$> TrieLevel_get fromHexString l key' s /\
       fst <$> TrieLevel_get fromHexString l key' s2 =
         fst <$> TrieLevel_get fromHexString l key' s) /\
    (forall l' key', level_db l' <> level_db l ->
       fst <$> TrieLevel_get fromHexString l' key' s2 =
         fst <$> TrieLevel_get fromHexString l' key' s) /\
    this s1 = this s /\ this s2 = this s /\
    TrieLevel_status l s1 = Some Open /\ TrieLevel_status l s2 = Some Open.
Proof.
  intros Hopen. pose proof (status_lt l s Open Hopen) as Hl. revert Hopen Hl.
  destruct s as [lv d]. unfold TrieLevel_status. cbn [levels this]. intros Hopen Hl.
  unfold TrieLevel_put, TrieLevel_del, modifyLevel. cbn [levels this].
  eexists _, _. split; [reflexivity|].
  pose proof (length_alter (fun m =>
                {| entries := <[toHexString key := toHexString val]> (entries m);
                   status := status m; latency := latency m |}) lv (level_db l)) as Hlen.
  rewrite !TrieLevel_get_run. cbn [levels this].
  split; [|split; [reflexivity|split; [|split; [|split; [|split; [reflexivity|
    split; [reflexivity|split]]]]]]].
  - rewrite readKey_put by exact Hl. rewrite bool_decide_eq_true_2 by reflexivity. reflexivity.
  - rewrite readKey_del by (rewrite Hlen; exact Hl).
    rewrite bool_decide_eq_true_2 by reflexivity. reflexivity.
  - intros key' Hne. rewrite !TrieLevel_get_run. cbn [fmap option_fmap option_map fst].
    rewrite readKey_del by (rewrite Hlen; exact Hl).
    rewrite readKey_put by exact Hl.
    rewrite bool_decide_eq_false_2 by congruence. split; reflexivity.
  - intros l' key' Hne. rewrite !TrieLevel_get_run. cbn [fmap option_fmap option_map fst].
    rewrite !readKey_other_level by exact Hne. reflexivity.
  - cbn [levels]. rewrite status_alter by reflexivity. exact Hopen.
  - cbn [levels]. rewrite !status_alter by reflexivity. exact Hopen.
Qed.

Lemma batch_run l (opStack : list BatchDBOp) :
  forall lv d, (level_db l < length lv)%nat ->
    exists lv',
      TrieLevel_batch l opStack {| levels := lv; this := d |} =
        Some (Ok tt, {| levels := lv'; this := d |}) /\
      length lv' = length lv /\
      (forall key, readKey fromHexString {| levels := lv'; this := d |} l key =
                   batchValue opStack key
                     (readKey fromHexString {| levels := lv; this := d |} l key)) /\
      (forall i, i <> level_db l -> lv' !! i = lv !! i) /\
      (forall i, status <$> lv' !! i = status <$> lv !! i).
Proof.
  induction opStack as [|op opStack IH]; intros lv d Hl.
  - exists lv. repeat split; reflexivity.
  - destruct op as [k v|k]; cbn [TrieLevel_batch]; unfold bind at 1;
      unfold TrieLevel_put, TrieLevel_del, modifyLevel; cbn [levels this];
      match goal with |- context [TrieLevel_batch l opStack {| levels := ?lv1; this := d |}] =>
        destruct (IH lv1 d) as (lv' & Hrun & Hlen & Hread & Hlev & Hst);
          [rewrite length_alter; exact Hl|]
      end;
      exists lv'; (split; [exact Hrun|]);
      (split; [rewrite Hlen, length_alter; reflexivity|]).
    + split; [|split].
      * intros key. rewrite Hread, readKey_put by exact Hl. reflexivity.
      * intros i Hi. rewrite Hlev by exact Hi. apply list_lookup_alter_ne. congruence.
      * intros i. rewrite Hst. apply status_alter. reflexivity.
    + split; [|split].
      * intros key. rewrite Hread, readKey_del by exact Hl. reflexivity.
      * intros i Hi. rewrite Hlev by exact Hi. apply list_lookup_alter_ne. congruence.
      * intros i. rewrite Hst. apply status_alter. reflexivity.
Qed.

(** X16: a batch on an open database is its operations in order:
    afterwards each key reads as the last operation on it left it (the
    value of the last put, [null] after a last del), a key the batch does
    not mention reads as before, and the database is still open. *)
Theorem trieLevel_batch_last_wins l (opStack : list BatchDBOp) s :
  TrieLevel_status l s = Some Open ->
  exists s',
    TrieLevel_batch l opStack s = Some (Ok tt, s') /\
    this s' = this s /\
    TrieLevel_status l s' = Some Open /\
    forall key before,
      TrieLevel_get fromHexString l key s = Some (Ok before, s) ->
      TrieLevel_get fromHexString l key s' = Some (Ok (batchValue opStack key before), s').
Proof.
  intros Hopen. pose proof (status_lt l s Open Hopen) as Hl. revert Hopen Hl.
  destruct s as [lv d]. unfold TrieLevel_status. cbn [levels this]. intros Hopen Hl.
  destruct (batch_run l opStack lv d Hl) as (lv' & Hrun & _ & Hread & _ & Hst).
  eexists. split; [exact Hrun|]. split; [reflexivity|].
  split; [cbn [levels]; rewrite Hst; exact Hopen|].
  intros key before. rewrite !TrieLevel_get_run. intros [= <-]. rewrite Hread. reflexivity.
Qed.
End Levels.

End TrieLevelFacts.

(** ** The state database: the registry of sublevels and the account records *)
Module StateDBRegistryFacts.
Import StateDatabase StateDatabaseMore StateDatabaseFacts JSFacts JSMapFacts HexFacts.

Section Registry.
Context {StateRootIndex Address : Type}.
Variable fromHexString : string -> Result bytes.
Variable openLatency : nat -> nat.
Variable Address_fromString : string -> Result Address.
Variable accountExists : gmap string string -> bytes -> Address -> bool.
Variable getAccountAt : gmap string string -> bytes -> Address -> Account.
Hypothesis fromHexString_toHexString : forall bs, fromHexString (toHexString bs) = Ok bs.
Implicit Types (s : @Store StateRootIndex) (d : @StateDB StateRootIndex).

Lemma registryOk_set d (stateRoot : bytes) (sub : TrieLevel) :
  registryOk d ->
  registryOk {| accountTries := JS.set (toHexString stateRoot) sub (accountTries d);
                knownAddresses := knownAddresses d; stateRootIndex := stateRootIndex d |}.
Proof.
  intros [Hnd Hhex]. split; cbn [accountTries].
  - apply NoDup_keys_set. exact Hnd.
  - rewrite keys_set. destruct (JS.get (toHexString stateRoot) (accountTries d)); [exact Hhex|].
    apply Forall_app. split; [exact Hhex|]. apply Forall_singleton. eauto.
Qed.

Lemma registryOk_delete d (stateRoot : bytes) :
  registryOk d ->
  registryOk {| accountTries := JS.delete (toHexString stateRoot) (accountTries d);
                knownAddresses := knownAddresses d; stateRootIndex := stateRootIndex d |}.
Proof.
  intros [Hnd Hhex]. split; cbn [accountTries].
  - apply NoDup_keys_delete. exact Hnd.
  - rewrite Forall_forall in *. intros k Hk. apply Hhex.
    apply (keys_delete_subseteq (toHexString stateRoot)). exact Hk.
Qed.

Lemma hex_ne (r r' : bytes) : r <> r' -> toHexString r <> toHexString r'.
Proof. intros Hne Heq. apply toHexString_inj in Heq. contradiction. Qed.

(** X17: a sublevel put under a root is the one [getSublevel] returns,
    without a new database being made; after [delSublevel] the root is
    unknown again; registrations of other roots are not touched, and the
    registry keeps distinct keys. *)
Theorem sublevel_registry_laws (stateRoot : bytes) (sub : TrieLevel) s :
  registryOk (this s) ->
  exists s1 s2,
    putSublevel stateRoot sub s = Some (Ok sub, s1) /\
    getSublevel openLatency stateRoot s1 = Some (Ok sub, s1) /\
    delSublevel stateRoot s1 = Some (Ok tt, s2) /\
    JS.get (toHexString stateRoot) (accountTries (this s2)) = None /\
    (forall other, other <> stateRoot ->
       JS.get (toHexString other) (accountTries (this s1)) =
         JS.get (toHexString other) (accountTries (this s)) /\
       JS.get (toHexString other) (accountTries (this s2)) =
         JS.get (toHexString other) (accountTries (this s))) /\
    levels s1 = levels s /\ levels s2 = levels s /\
    registryOk (this s1) /\ registryOk (this s2).
Proof.
  intros Hok. unfold putSublevel, delSublevel, bind, modifyThis, ret. cbn [this levels].
  eexists _, _. split; [reflexivity|].
  pose proof (registryOk_set (this s) stateRoot sub Hok) as Hok1.
  rewrite getSublevel_run. cbn [this accountTries]. rewrite get_set_same.
  split; [reflexivity|]. split; [reflexivity|]. cbn [this accountTries levels].
  split; [apply get_delete_same, Hok1|].
  split; [|split; [reflexivity|split; [reflexivity|split; [exact Hok1|]]]].
  - intros other Hne.
    rewrite get_delete_other by (apply hex_ne; congruence).
    rewrite get_set_other by (apply hex_ne; congruence). split; reflexivity.
  - apply (registryOk_delete _ stateRoot) in Hok1. exact Hok1.
Qed.

(** The store [addRoot] leaves has every registered database open if the
    store it started from had. *)
Lemma registryOpen_addRoot (stateRoot : bytes) s :
  registryOpen s ->
  registryOpen
    {| levels := levels s ++ [opened];
       this := {| accountTries :=
                    JS.set (toHexString stateRoot) {| level_db := length (levels s) |}
                      (accountTries (this s));
                  knownAddresses := knownAddresses (this s);
                  stateRootIndex := stateRootIndex (this s) |} |}.
Proof.
  intros Hopen k sub. unfold TrieLevel_status. cbn [this accountTries levels].
  destruct (decide (k = toHexString stateRoot)) as [->|Hne].
  - rewrite get_set_same. intros [= <-]. cbn [level_db].
    rewrite list_lookup_middle by reflexivity. reflexivity.
  - rewrite get_set_other by congruence. intros Hk.
    pose proof (Hopen k sub Hk) as Hst. unfold TrieLevel_status in Hst.
    destruct (levels s !! level_db sub) as [m|] eqn:Hm; [|discriminate].
    rewrite (lookup_app_l_Some _ _ _ _ Hm). exact Hst.
Qed.

(** X18: [getSublevel] is idempotent: asked again for the same root it
    returns the same database and changes nothing; it never drops or
    replaces a registration or a database, keeps the registry's keys
    distinct, and the database it returns is open when the registered ones
    were. *)
Theorem getSublevel_idempotent (stateRoot : bytes) s (sub : TrieLevel) s1 :
  getSublevel openLatency stateRoot s = Some (Ok sub, s1) ->
  getSublevel openLatency stateRoot s1 = Some (Ok sub, s1) /\
  (forall k known, JS.get k (accountTries (this s)) = Some known ->
                   JS.get k (accountTries (this s1)) = Some known) /\
  (forall i m, levels s !! i = Some m -> levels s1 !! i = Some m) /\
  (registryOk (this s) -> registryOk (this s1)) /\
  (registryOpen s -> registryOpen s1 /\ TrieLevel_status sub s1 = Some Open).
Proof.
  rewrite getSublevel_run.
  destruct (JS.get (toHexString stateRoot) (accountTries (this s))) as [known|] eqn:Hget.
  - intros [= <- <-]. rewrite getSublevel_run, Hget.
    split; [reflexivity|]. split; [auto|]. split; [auto|]. split; [auto|].
    intros Hopen. split; [exact Hopen|]. exact (Hopen _ _ Hget).
  - rewrite addRoot_run. intros [= <- <-].
    rewrite getSublevel_run. cbn [this accountTries levels]. rewrite get_set_same.
    split; [reflexivity|]. split; [|split; [|split]].
    + intros k known Hk. rewrite (set_fresh _ _ _ Hget). apply get_app_l. exact Hk.
    + intros i m Hi. rewrite lookup_app_l; [exact Hi|]. apply lookup_lt_Some in Hi. exact Hi.
    + apply registryOk_set.
    + intros Hopen. pose proof (registryOpen_addRoot stateRoot s Hopen) as Hopen1.
      split; [exact Hopen1|].
      apply (Hopen1 (toHexString stateRoot)). cbn [this accountTries]. apply get_set_same.
Qed.

Lemma bind_ok {A B} (c : @Run StateRootIndex A) (k : A -> @Run StateRootIndex B) s a s1 :
  c s = Some (Ok a, s1) -> bind c k s = k a s1.
Proof. unfold bind. intros ->. reflexivity. Qed.

Lemma mapRun_unchanged {A B C} (f : A -> @Run StateRootIndex B) (key : C -> A) (g : C -> B)
    (es : list C) s :
  (forall e, e ∈ es -> f (key e) s = Some (Ok (g e), s)) ->
  mapRun f (map key es) s = Some (Ok (map g es), s).
Proof.
  induction es as [|e es IH]; intros Hf; [reflexivity|].
  cbn [map mapRun].
  rewrite (bind_ok _ _ s (g e) s) by (apply Hf; left).
  rewrite (bind_ok _ _ s (map g es) s) by (apply IH; intros e' He'; apply Hf; right; exact He').
  reflexivity.
Qed.

Lemma entry_lookup s (e : string * TrieLevel) :
  registryOk (this s) -> e ∈ accountTries (this s) ->
  exists r, fst e = toHexString r /\ fromHexString (fst e) = Ok r /\
            JS.get (toHexString r) (accountTries (this s)) = Some (snd e).
Proof.
  intros [Hnd Hhex] Hin. rewrite Forall_forall in Hhex.
  destruct (Hhex (fst e)) as [r Hr].
  { apply list_elem_of_fmap. exists e. auto. }
  exists r. split; [exact Hr|]. split; [rewrite Hr; apply fromHexString_toHexString|].
  rewrite <- Hr. destruct e as [k sub]. apply get_entry; assumption.
Qed.

Lemma Trie_create_hash (db : TrieLevel) (root : bytes) :
  length root = 32%nat ->
  Trie_create db root = Ok {| trie_database := db; trie_root := root |}.
Proof. intros Hlen. unfold Trie_create. rewrite Hlen. reflexivity. Qed.

Lemma Trie_create_other (db : TrieLevel) (root : bytes) :
  length root <> 32%nat ->
  Trie_create db root = Throw "Invalid root length. Roots are 32 bytes".
Proof.
  intros Hlen. unfold Trie_create.
  destruct (length root =? 32)%nat eqn:E; [|reflexivity].
  apply Nat.eqb_eq in E. contradiction.
Qed.

Lemma entry_root_length s (e : string * TrieLevel) (r : bytes) :
  rootsAreHashes (this s) -> e ∈ accountTries (this s) -> fst e = toHexString r ->
  length r = 32%nat.
Proof.
  unfold rootsAreHashes. rewrite Forall_forall. intros Hlen He Hr.
  destruct (Hlen (fst e)) as (r' & Hr' & Hlen').
  { apply list_elem_of_fmap. exists e. auto. }
  rewrite Hr in Hr'. apply toHexString_inj in Hr'. subst r'. exact Hlen'.
Qed.

Lemma getAllTries_run s :
  registryOk (this s) -> rootsAreHashes (this s) ->
  getAllTries fromHexString openLatency s =
    Some (Ok (map (trieOf fromHexString) (accountTries (this s))), s).
Proof.
  intros Hok Hlen. unfold getAllTries, JS.keys. apply mapRun_unchanged.
  intros e He. destruct (entry_lookup s e Hok He) as (r & Hk & Hdec & Hget).
  unfold trieOf. rewrite Hdec.
  rewrite (bind_ok _ _ s r s) by (cbn; reflexivity).
  rewrite (bind_ok _ _ s (snd e) s) by (rewrite getSublevel_run, Hget; reflexivity).
  rewrite (Trie_create_hash _ _ (entry_root_length s e r Hlen He Hk)). reflexivity.
Qed.

Lemma filter_map_swap {A B} (P : B -> bool) (f : A -> B) (l : list A) :
  List.filter P (map f l) = map f (List.filter (fun x => P (f x)) l).
Proof.
  induction l as [|x l IH]; [reflexivity|].
  simpl. destruct (P (f x)); simpl; rewrite IH; reflexivity.
Qed.

Lemma concat_present {A B} (P : A -> bool) (g : A -> B) (l : list A) :
  concat (map (fun x => if P x then [g x] else []) l) = map g (List.filter P l).
Proof.
  induction l as [|x l IH]; [reflexivity|].
  cbn [map concat List.filter]. rewrite IH. destruct (P x); reflexivity.
Qed.

Lemma getAddrRoots_run (addr : string) (a : Address) s :
  registryOk (this s) -> rootsAreHashes (this s) -> Address_fromString addr = Ok a ->
  _getAddrRoots fromHexString openLatency Address_fromString accountExists addr s =
    Some (Ok (map (fun e => trie_root (trieOf fromHexString e))
                (List.filter (holdsAccount fromHexString accountExists s a)
                   (accountTries (this s)))), s).
Proof.
  intros Hok Hlen Ha. unfold _getAddrRoots.
  rewrite (bind_ok _ _ s _ s (getAllTries_run s Hok Hlen)).
  erewrite bind_ok.
  2:{ apply (mapRun_unchanged _ (trieOf fromHexString)
               (fun e => if holdsAccount fromHexString accountExists s a e
                         then [trie_root (trieOf fromHexString e)] else [])).
      intros e _. rewrite Ha. cbn [liftResult].
      rewrite (bind_ok _ _ s a s) by reflexivity. reflexivity. }
  unfold ret. rewrite concat_present. reflexivity.
Qed.

Lemma filter_elem_of {A} (P : A -> bool) (l : list A) (x : A) :
  x ∈ List.filter P l -> x ∈ l /\ P x = true.
Proof. intros H. apply list_elem_of_In, filter_In in H as [H1 H2]. split; [apply list_elem_of_In|]; assumption. Qed.

Lemma NoDup_keys_filter {V} (P : string * V -> bool) (m : list (string * V)) :
  NoDup (JS.keys m) -> NoDup (JS.keys (List.filter P m)).
Proof.
  induction m as [|e m IH]; intros Hnd; [exact Hnd|].
  apply NoDup_cons in Hnd as [He Hnd]. simpl.
  destruct (P e); [|apply IH; exact Hnd].
  simpl. apply NoDup_cons. split; [|apply IH; exact Hnd].
  intros Hin. apply He. apply list_elem_of_fmap in Hin as (e' & Heq & He').
  apply filter_elem_of in He' as [He' _].
  apply list_elem_of_fmap. exists e'. auto.
Qed.

Lemma getAccountRecord_run (addr : string) (a : Address) s :
  registryOk (this s) -> rootsAreHashes (this s) -> Address_fromString addr = Ok a ->
  getAccountRecord fromHexString openLatency Address_fromString accountExists getAccountAt
    addr s =
    Some (Ok (recordOf fromHexString accountExists getAccountAt s addr a), s).
Proof.
  intros Hok Hlen Ha. unfold getAccountRecord.
  rewrite (bind_ok _ _ s _ s (getAddrRoots_run addr a s Hok Hlen Ha)).
  erewrite bind_ok.
  2:{ apply (mapRun_unchanged _ (fun e => trie_root (trieOf fromHexString e))
               (recordEntry fromHexString getAccountAt s a)).
      intros e He. apply filter_elem_of in He as [He _].
      destruct (entry_lookup s e Hok He) as (r & Hk & Hdec & Hget).
      rewrite Ha. cbn [liftResult]. rewrite (bind_ok _ _ s a s) by reflexivity.
      unfold recordEntry, trieOf, getAccount, getStateTrie. cbn [trie_root trie_database].
      rewrite Hdec. unfold bind. rewrite getSublevel_run, Hget.
      rewrite (Trie_create_hash _ _ (entry_root_length s e r Hlen He Hk)).
      cbn [liftResult]. unfold ret.
      rewrite Hk. unfold trieEntries. reflexivity. }
  unfold ret, recordOf. rewrite fromEntries_NoDup; [reflexivity|].
  unfold JS.keys. rewrite map_map. cbn [recordEntry fst].
  apply (NoDup_keys_filter _ _ (proj1 Hok)).
Qed.

Lemma get_filtered {V W} (P : string * V -> bool) (g : string * V -> W)
    (m : list (string * V)) (k : string) :
  NoDup (JS.keys m) ->
  JS.get k (map (fun e => (fst e, g e)) (List.filter P m)) =
  match JS.get k m with
  | Some v => if P (k, v) then Some (g (k, v)) else None
  | None => None
  end.
Proof.
  induction m as [|[k0 v0] m IH]; intros Hnd; [reflexivity|].
  apply NoDup_cons in Hnd as [Hk0 Hnd]. cbn [fst] in Hk0. cbn [List.filter JS.get].
  destruct (String.eqb k k0) eqn:E.
  - apply String.eqb_eq in E. subst k0.
    destruct (P (k, v0)); cbn [map JS.get fst].
    + rewrite String.eqb_refl. reflexivity.
    + rewrite IH by exact Hnd.
      apply get_None_not_key in Hk0. rewrite Hk0. reflexivity.
  - destruct (P (k0, v0)); cbn [map JS.get fst]; [rewrite E|]; apply IH; exact Hnd.
Qed.

Lemma sublist_keys_filter {V} (P : string * V -> bool) (m : list (string * V)) :
  sublist (JS.keys (List.filter P m)) (JS.keys m).
Proof.
  induction m as [|e m IH]; [constructor|].
  simpl. destruct (P e); simpl; [apply sublist_skip|apply sublist_cons]; exact IH.
Qed.

(** X19: with the registry in order, its roots 32 bytes long and its
    databases open, [getAccountRecord] for the string of an address leaves
    the store as it was and gives the record of the address: one entry for
    each registered root whose trie the state manager finds the account in,
    in the order of the registry, with the account the state manager reads
    from that trie. *)
Theorem getAccountRecord_reads_registry (addr : string) (a : Address) s :
  registryOk (this s) -> rootsAreHashes (this s) -> registryOpen s ->
  Address_fromString addr = Ok a ->
  exists record,
    getAccountRecord fromHexString openLatency Address_fromString accountExists getAccountAt
      addr s = Some (Ok record, s) /\
    address record = addr /\
    NoDup (JS.keys (accounts record)) /\
    sublist (JS.keys (accounts record)) (JS.keys (accountTries (this s))) /\
    forall (root : bytes) (sub : TrieLevel),
      JS.get (toHexString root) (accountTries (this s)) = Some sub ->
      JS.get (toHexString root) (accounts record) =
        let trie := {| trie_database := sub; trie_root := root |} in
        if accountExists (trieEntries trie s) root a
        then Some (getAccountAt (trieEntries trie s) root a)
        else None.
Proof.
  intros Hok Hlen _ Ha. eexists. split; [apply getAccountRecord_run; eassumption|].
  unfold recordOf. cbn [address accounts].
  split; [reflexivity|].
  assert (Hkeys : JS.keys (map (recordEntry fromHexString getAccountAt s a)
                             (List.filter (holdsAccount fromHexString accountExists s a)
                                (accountTries (this s)))) =
                  JS.keys (List.filter (holdsAccount fromHexString accountExists s a)
                             (accountTries (this s)))).
  { unfold JS.keys. rewrite map_map. reflexivity. }
  rewrite Hkeys.
  split; [apply NoDup_keys_filter, Hok|]. split; [apply sublist_keys_filter|].
  intros root sub Hget. cbv zeta.
  unfold recordEntry. rewrite get_filtered by apply Hok. rewrite Hget.
  unfold holdsAccount, trieOf. cbn [fst snd trie_root trie_database].
  rewrite fromHexString_toHexString. reflexivity.
Qed.
End Registry.

End StateDBRegistryFacts.

(** ** Sorting again, and updating an account with a proof that verifies *)
Module StateDBUpdateFacts.
Import StateDatabase StateDatabaseMore StateDatabaseFacts JSFacts JSMapFacts HexFacts.
Import SortFacts TrieLevelFacts StateDBRegistryFacts.

Lemma sort_sorted (accountRecord : AccountRecord) (es : list (string * Account)) :
  Forall (readsBack accountRecord) es -> StronglySorted entryLe es ->
  JS.sort (compareRoots accountRecord) (map fst es) = Ok (map fst es).
Proof.
  induction es as [|x rest IH]; intros Hrb Hs; [reflexivity|].
  apply Forall_cons in Hrb as [Hx Hrest].
  apply StronglySorted_inv in Hs as [Hsrest Hxrest].
  cbn [map JS.sort]. rewrite (IH Hrest Hsrest).
  destruct rest as [|y rest']; [reflexivity|].
  apply Forall_cons in Hrest as [Hy _]. apply Forall_cons in Hxrest as [Hxy _].
  destruct (compareRoots_sign accountRecord x y Hx Hy) as (v & Hcmp & Hsign).
  cbn [map JS.insert]. rewrite Hcmp.
  destruct (JSNumber.isPositive v) eqn:Hpos; [|reflexivity].
  exfalso. apply (keyLt_not_le _ _ (proj1 Hsign eq_refl)). exact Hxy.
Qed.

Lemma sortAccountRecord_returns (accountRecord : AccountRecord) :
  NoDup (JS.keys (accounts accountRecord)) ->
  exists sorted,
    sortAccountRecord accountRecord =
      Ok {| address := address accountRecord; accounts := sorted |} /\
    sorted ≡ₚ accounts accountRecord /\
    StronglySorted entryLe sorted.
Proof.
  intros Hnd.
  assert (Hrb : Forall (readsBack accountRecord) (accounts accountRecord)).
  { apply Forall_forall. intros [k a] Hin. apply get_entry; assumption. }
  destruct (sort_entries accountRecord _ Hrb) as (sorted & Hsort & Hperm & Hs & _).
  exists sorted. unfold sortAccountRecord. unfold JS.keys at 1. rewrite Hsort.
  rewrite entriesOf_readsBack by (rewrite Hperm; exact Hrb).
  rewrite fromEntries_NoDup by (unfold JS.keys; rewrite Hperm; exact Hnd).
  auto.
Qed.

(** X20: sorting is idempotent: the record [sortAccountRecord] returns is
    returned unchanged when it is sorted again. *)
Theorem sortAccountRecord_idempotent (accountRecord sorted : AccountRecord) :
  NoDup (JS.keys (accounts accountRecord)) ->
  sortAccountRecord accountRecord = Ok sorted ->
  sortAccountRecord sorted = Ok sorted.
Proof.
  intros Hnd Hrun.
  destruct (sortAccountRecord_returns accountRecord Hnd) as (l & Hl & Hperm & Hs).
  rewrite Hl in Hrun. injection Hrun as <-.
  assert (Hnd' : NoDup (JS.keys l)) by (unfold JS.keys; rewrite Hperm; exact Hnd).
  set (r := {| address := address accountRecord; accounts := l |}).
  assert (Hrb : Forall (readsBack r) l).
  { apply Forall_forall. intros [k a] Hin. apply get_entry; assumption. }
  unfold sortAccountRecord. unfold JS.keys at 1. cbn [accounts address r].
  fold r. rewrite (sort_sorted r l Hrb Hs), (entriesOf_readsBack r l Hrb).
  rewrite fromEntries_NoDup by exact Hnd'. reflexivity.
Qed.

Lemma sortAccountRecord_idempotent_witness :
  NoDup (JS.keys (accounts Sample.largeBalances)) /\
  exists sorted,
    sortAccountRecord Sample.largeBalances = Ok sorted /\
    sortAccountRecord sorted = Ok sorted.
Proof.
  assert (Hnd : NoDup (JS.keys (accounts Sample.largeBalances))).
  { apply (bool_decide_unpack _). vm_compute. exact I. }
  split; [exact Hnd|].
  eexists. split; [vm_compute; reflexivity|].
  apply (sortAccountRecord_idempotent Sample.largeBalances _ Hnd). vm_compute. reflexivity.
Defined.

Section Update.
Context {StateRootIndex Address : Type}.
Variable Paths : Type.
Variable StateRootIndex_from : list (list string) -> StateRootIndex.
Variable StateRootIndex_pathThru : StateRootIndex -> list string -> Paths.
Variable StateRootIndex_update : StateRootIndex -> list (list string) -> StateRootIndex.
Variable fromHexString : string -> Result bytes.
Variable openLatency : nat -> nat.
Variable verifyProof : bytes -> bytes -> list bytes -> bool.
Variable keccak256 : bytes -> bytes.
Variable EMPTY_TRIE_ROOT : bytes.
Variable Address_fromString : string -> Result Address.
Variable accountExists : gmap string string -> bytes -> Address -> bool.
Variable getAccountAt : gmap string string -> bytes -> Address -> Account.
Hypothesis fromHexString_toHexString : forall bs, fromHexString (toHexString bs) = Ok bs.
Implicit Types (s : @Store StateRootIndex) (d : @StateDB StateRootIndex).

Lemma batchValue_puts (w : bytes) (ws : list bytes) :
  forall before,
    (w ∈ ws \/ exists w', before = Some w' /\ keccak256 w' = keccak256 w) ->
    exists w',
      batchValue (map (fun n => OpPut (keccak256 n) n) ws) (keccak256 w) before = Some w' /\
      keccak256 w' = keccak256 w.
Proof.
  unfold batchValue. induction ws as [|n ws IH]; intros before Hor.
  - destruct Hor as [Hin|Hb]; [apply elem_of_nil in Hin; contradiction|exact Hb].
  - cbn [map fold_left]. apply IH.
    destruct Hor as [Hin|(w' & -> & Hw')].
    + apply elem_of_cons in Hin as [->|Hin]; [|left; exact Hin].
      right. rewrite bool_decide_eq_true_2 by reflexivity. eauto.
    + right. case_bool_decide; eauto.
Qed.

Lemma getSublevel_cases (stateRoot : bytes) s :
  registryOk (this s) -> registryOpen s ->
  exists (sub : TrieLevel) lv tries,
    getSublevel openLatency stateRoot s =
      Some (Ok sub, {| levels := lv;
                       this := {| accountTries := tries;
                                  knownAddresses := knownAddresses (this s);
                                  stateRootIndex := stateRootIndex (this s) |} |}) /\
    JS.get (toHexString stateRoot) tries = Some sub /\
    (level_db sub < length lv)%nat /\
    NoDup (JS.keys tries) /\
    Forall (fun k => exists r, k = toHexString r) (JS.keys tries) /\
    (forall other, other <> stateRoot ->
       JS.get (toHexString other) tries = JS.get (toHexString other) (accountTries (this s))) /\
    (forall i, (i < length (levels s))%nat -> lv !! i = levels s !! i) /\
    (forall k sub', JS.get k tries = Some sub' ->
                    status <$> lv !! level_db sub' = Some Open) /\
    (forall k, k ∈ JS.keys tries ->
               k ∈ JS.keys (accountTries (this s)) \/ k = toHexString stateRoot).
Proof.
  intros Hok Hopen. rewrite getSublevel_run.
  destruct (JS.get (toHexString stateRoot) (accountTries (this s))) as [known|] eqn:Hget.
  - exists known, (levels s), (accountTries (this s)).
    pose proof (status_lt known s Open (Hopen _ _ Hget)) as Hlt.
    destruct s as [lv [tries known' idx]]. cbn in *.
    split; [reflexivity|]. split; [exact Hget|]. split; [exact Hlt|].
    destruct Hok as [Hnd Hhex]. auto 10.
  - rewrite addRoot_run. eexists _, _, _. split; [reflexivity|].
    pose proof (registryOk_set (this s) stateRoot {| level_db := length (levels s) |} Hok)
      as [Hnd Hhex].
    split; [apply get_set_same|]. cbn [level_db].
    split; [rewrite length_app; simpl; lia|].
    split; [exact Hnd|]. split; [exact Hhex|]. split; [|split; [|split]].
    + intros other Hne. apply get_set_other. apply hex_ne. congruence.
    + intros i Hi. apply lookup_app_l. exact Hi.
    + exact (registryOpen_addRoot stateRoot s Hopen).
    + intros k. rewrite keys_set, Hget. intros Hk.
      apply elem_of_app in Hk as [Hk|Hk]; [left; exact Hk|].
      apply list_elem_of_singleton in Hk. right. exact Hk.
Qed.

Lemma bind_throw {A B} (c : @Run StateRootIndex A) (k : A -> @Run StateRootIndex B)
    s (msg : string) s1 :
  c s = Some (Throw msg, s1) -> bind c k s = Some (Throw msg, s1).
Proof. unfold bind. intros ->. reflexivity. Qed.

(** A loop over a list whose steps leave the store alone throws as soon as
    one step does. *)
Lemma mapRun_first_throw {A B} (f : A -> @Run StateRootIndex B) (l : list A) s (msg : string) :
  (forall x, x ∈ l -> f x s = Some (Throw msg, s) \/ exists b, f x s = Some (Ok b, s)) ->
  (exists x, x ∈ l /\ f x s = Some (Throw msg, s)) ->
  mapRun f l s = Some (Throw msg, s).
Proof.
  induction l as [|x l IH]; intros Hall (bad & Hbad & Hthrow).
  - apply elem_of_nil in Hbad. contradiction.
  - cbn [mapRun]. destruct (Hall x) as [Hx|[b Hx]]; [left| |].
    + apply bind_throw. exact Hx.
    + rewrite (bind_ok _ _ s b s Hx). apply bind_throw. apply IH.
      * intros y Hy. apply Hall. right. exact Hy.
      * apply elem_of_cons in Hbad as [->|Hbad]; [congruence|]. eauto.
Qed.

(** A registered root that is not 32 bytes long stops every walk over the
    registry. *)
Lemma getAllTries_short_root (bad : bytes) s :
  registryOk (this s) ->
  JS.get (toHexString bad) (accountTries (this s)) <> None ->
  length bad <> 32%nat ->
  getAllTries fromHexString openLatency s =
    Some (Throw "Invalid root length. Roots are 32 bytes", s).
Proof.
  intros Hok Hreg Hlen. unfold getAllTries. apply mapRun_first_throw.
  - intros k Hk. apply list_elem_of_fmap in Hk as (e & -> & He).
    destruct (entry_lookup fromHexString fromHexString_toHexString s e Hok He)
      as (r & Hk & Hdec & Hget).
    rewrite Hdec. cbn [liftResult].
    rewrite (bind_ok _ _ s r s) by reflexivity.
    rewrite (bind_ok _ _ s (snd e) s) by (rewrite getSublevel_run, Hget; reflexivity).
    destruct (decide (length r = 32%nat)) as [H32|H32].
    + right. rewrite (Trie_create_hash _ _ H32). eexists. reflexivity.
    + left. rewrite (Trie_create_other _ _ H32). reflexivity.
  - exists (toHexString bad). split.
    + destruct (decide (toHexString bad ∈ JS.keys (accountTries (this s)))) as [Hin|Hout];
        [exact Hin|].
      apply get_None_not_key in Hout. contradiction.
    + destruct (JS.get (toHexString bad) (accountTries (this s))) as [sub|] eqn:Hget;
        [|contradiction].
      rewrite fromHexString_toHexString. cbn [liftResult].
      rewrite (bind_ok _ _ s bad s) by reflexivity.
      rewrite (bind_ok _ _ s sub s) by (rewrite getSublevel_run, Hget; reflexivity).
      rewrite (Trie_create_other _ _ Hlen). reflexivity.
Qed.

Lemma getAccountRecord_short_root (bad : bytes) (addr : string) s :
  registryOk (this s) ->
  JS.get (toHexString bad) (accountTries (this s)) <> None ->
  length bad <> 32%nat ->
  getAccountRecord fromHexString openLatency Address_fromString accountExists getAccountAt addr s =
    Some (Throw "Invalid root length. Roots are 32 bytes", s).
Proof.
  intros Hok Hreg Hlen. unfold getAccountRecord, _getAddrRoots.
  apply bind_throw, bind_throw. apply (getAllTries_short_root bad); assumption.
Qed.

(** What [updateAccount] does after its first four statements: the record
    of the address is read, sorted and entered in the index. *)
Local Abbreviation indexRecord addr trie' :=
  (bind (getAccountRecord fromHexString openLatency Address_fromString accountExists getAccountAt
           (toHexString addr))
     (fun rec =>
        bind (liftResult (sortAccountRecord rec))
          (fun sorted =>
             bind (modifyThis (fun d =>
                     {| accountTries := accountTries d; knownAddresses := knownAddresses d;
                        stateRootIndex :=
                          StateRootIndex_update (stateRootIndex d) [JS.keys (accounts sorted)] |}))
               (fun _ => ret trie')))).

(** The run of [updateAccount] on a root of 32 bytes, up to the reading of
    the account record: the proof nodes are in the root's database and the
    root is registered last, whatever the proof is worth. *)
Lemma updateAccount_until_record (stateRoot addr : bytes) (witnesses : list bytes) s :
  registryOk (this s) -> registryOpen s -> length stateRoot = 32%nat ->
  exists (trie' : Trie) lv' tries',
    let d' := {| accountTries := tries';
                 knownAddresses := JS.add (toHexString addr) (knownAddresses (this s));
                 stateRootIndex := stateRootIndex (this s) |} in
    let sD := {| levels := lv'; this := d' |} in
    updateAccount StateRootIndex_update fromHexString openLatency verifyProof keccak256
      EMPTY_TRIE_ROOT Address_fromString accountExists getAccountAt stateRoot addr witnesses s =
      indexRecord addr trie' sD /\
    JS.get (toHexString stateRoot) tries' = Some (trie_database trie') /\
    last (JS.keys tries') = Some (toHexString stateRoot) /\
    (forall w, w ∈ witnesses ->
       exists w',
         readKey fromHexString sD (trie_database trie') (keccak256 w) = Some w' /\
         keccak256 w' = keccak256 w) /\
    (forall other, other <> stateRoot ->
       JS.get (toHexString other) tries' =
         JS.get (toHexString other) (accountTries (this s))) /\
    (forall k, k ∈ JS.keys tries' ->
               k ∈ JS.keys (accountTries (this s)) \/ k = toHexString stateRoot) /\
    registryOk d' /\ registryOpen sD.
Proof.
  intros Hok Hopen H32.
  unfold updateAccount.
  erewrite bind_ok by (unfold modifyThis; reflexivity).
  set (sA := {| levels := levels s;
                this := {| accountTries := accountTries (this s);
                           knownAddresses := JS.add (toHexString addr) (knownAddresses (this s));
                           stateRootIndex := stateRootIndex (this s) |} |}).
  destruct (getSublevel_cases stateRoot sA Hok Hopen)
    as (sub & lv & tries & Hsub & Hget & Hlv & Hnd & Hhex & Hothers & _ & Hopen1 & Hkeys).
  cbn [sA this knownAddresses stateRootIndex accountTries] in Hsub, Hothers, Hkeys.
  unfold getStateTrie.
  erewrite bind_ok
    by (erewrite bind_ok by exact Hsub; rewrite (Trie_create_hash _ _ H32); reflexivity).
  unfold promiseIsTruthy. cbn [negb].
  unfold fromProof. cbn [trie_database trie_root].
  destruct (batch_run fromHexString fromHexString_toHexString {| level_db := level_db sub |}
              (map (fun nodeValue => OpPut (keccak256 nodeValue) nodeValue) witnesses)
              lv {| accountTries := tries;
                    knownAddresses := JS.add (toHexString addr) (knownAddresses (this s));
                    stateRootIndex := stateRootIndex (this s) |} Hlv)
    as (lv' & Hbatch & Hlen & Hread & _ & Hst).
  erewrite bind_ok by (erewrite bind_ok by exact Hbatch; reflexivity).
  erewrite bind_ok by (unfold delSublevel, modifyThis; reflexivity).
  cbn [this levels accountTries knownAddresses stateRootIndex].
  erewrite bind_ok by (unfold putSublevel, bind, modifyThis, ret; reflexivity).
  cbn [this levels accountTries knownAddresses stateRootIndex trie_database].
  set (tries' := JS.set (toHexString stateRoot) {| level_db := level_db sub |}
                   (JS.delete (toHexString stateRoot) tries)).
  assert (Hdel : JS.get (toHexString stateRoot) (JS.delete (toHexString stateRoot) tries) = None)
    by (apply get_delete_same; exact Hnd).
  eexists _, lv', tries'. cbv zeta. split; [reflexivity|].
  cbn [trie_database].
  split; [subst tries'; apply get_set_same|].
  split; [subst tries'; rewrite keys_set, Hdel; apply last_snoc|].
  split; [|split; [|split; [|split; [split|]]]].
  - intros w Hw.
    destruct (batchValue_puts w witnesses
                (readKey fromHexString
                   {| levels := lv;
                      this := {| accountTries := tries;
                                 knownAddresses := JS.add (toHexString addr) (knownAddresses (this s));
                                 stateRootIndex := stateRootIndex (this s) |} |}
                   {| level_db := level_db sub |} (keccak256 w)) (or_introl Hw))
      as (w' & Hval & Hw').
    exists w'. split; [|exact Hw'].
    rewrite <- Hval, <- Hread. reflexivity.
  - intros other Hne. subst tries'.
    rewrite get_set_other by (apply hex_ne; congruence).
    rewrite get_delete_other by (apply hex_ne; congruence).
    apply Hothers. exact Hne.
  - intros k. subst tries'. rewrite keys_set, Hdel. intros Hk.
    apply elem_of_app in Hk as [Hk|Hk].
    + apply Hkeys. apply (keys_delete_subseteq (toHexString stateRoot)). exact Hk.
    + apply list_elem_of_singleton in Hk. right. exact Hk.
  - cbn [accountTries]. subst tries'. apply NoDup_keys_set, NoDup_keys_delete. exact Hnd.
  - cbn [accountTries]. subst tries'.
    rewrite keys_set, Hdel. apply Forall_app. split; [|apply Forall_singleton; eauto].
    rewrite Forall_forall in *. intros k Hk. apply Hhex.
    apply (keys_delete_subseteq (toHexString stateRoot)). exact Hk.
  - intros k sub'. unfold TrieLevel_status.
    cbn [this levels accountTries]. subst tries'. rewrite Hst.
    destruct (decide (toHexString stateRoot = k)) as [<-|Hne].
    + rewrite get_set_same. intros [= <-]. exact (Hopen1 _ _ Hget).
    + rewrite get_set_other by exact Hne. rewrite get_delete_other by exact Hne.
      apply Hopen1.
Qed.

(** The run of [updateAccount] on a root of 32 bytes in a registry of such
    roots, and the store it leaves: the proof is not looked at. *)
Lemma updateAccount_run (stateRoot addr : bytes) (a : Address) (witnesses : list bytes) s :
  registryOk (this s) -> rootsAreHashes (this s) -> registryOpen s ->
  length stateRoot = 32%nat -> Address_fromString (toHexString addr) = Ok a ->
  exists trie s',
    updateAccount StateRootIndex_update fromHexString openLatency verifyProof keccak256
      EMPTY_TRIE_ROOT Address_fromString accountExists getAccountAt stateRoot addr witnesses s =
      Some (Ok trie, s') /\
    JS.get (toHexString stateRoot) (accountTries (this s')) = Some (trie_database trie) /\
    last (JS.keys (accountTries (this s'))) = Some (toHexString stateRoot) /\
    (forall w, w ∈ witnesses ->
       exists w',
         TrieLevel_get fromHexString (trie_database trie) (keccak256 w) s' =
           Some (Ok (Some w'), s') /\
         keccak256 w' = keccak256 w) /\
    knownAddresses (this s') = JS.add (toHexString addr) (knownAddresses (this s)) /\
    (exists record sorted,
       getAccountRecord fromHexString openLatency Address_fromString accountExists getAccountAt
         (toHexString addr) s' = Some (Ok record, s') /\
       sortAccountRecord record = Ok sorted /\
       stateRootIndex (this s') =
         StateRootIndex_update (stateRootIndex (this s)) [JS.keys (accounts sorted)]) /\
    (forall other, other <> stateRoot ->
       JS.get (toHexString other) (accountTries (this s')) =
         JS.get (toHexString other) (accountTries (this s))) /\
    registryOk (this s') /\ rootsAreHashes (this s') /\ registryOpen s'.
Proof.
  intros Hok Hhash Hopen H32 Ha.
  destruct (updateAccount_until_record stateRoot addr witnesses s Hok Hopen H32)
    as (trie' & lv' & tries' & Hrun & Hget & Hlast & Hnodes & Hothers & Hkeys & Hok' & Hopen').
  cbv zeta in *. rewrite Hrun. clear Hrun.
  set (sD := {| levels := lv';
                this := {| accountTries := tries';
                           knownAddresses := JS.add (toHexString addr) (knownAddresses (this s));
                           stateRootIndex := stateRootIndex (this s) |} |}) in *.
  assert (Hhash' : Forall (fun k => exists r, k = toHexString r /\ length r = 32%nat)
                          (JS.keys tries')).
  { apply Forall_forall. intros k Hk. destruct (Hkeys k Hk) as [Hold| ->]; [|eauto].
    unfold rootsAreHashes in Hhash. rewrite Forall_forall in Hhash. apply Hhash. exact Hold. }
  pose proof (getAccountRecord_run fromHexString openLatency Address_fromString accountExists
                getAccountAt fromHexString_toHexString (toHexString addr) a sD Hok' Hhash' Ha)
    as Hrec.
  erewrite bind_ok by exact Hrec.
  set (record := recordOf fromHexString accountExists getAccountAt sD (toHexString addr) a).
  assert (Hndrec : NoDup (JS.keys (accounts record))).
  { subst record. unfold recordOf. cbn [accounts]. unfold JS.keys. rewrite map_map.
    cbn [recordEntry fst]. apply (NoDup_keys_filter _ _ (proj1 Hok')). }
  destruct (sortAccountRecord_returns record Hndrec) as (sortedAccounts & Hsorted & _ & _).
  rewrite Hsorted. cbn [liftResult].
  erewrite bind_ok by (unfold ret; reflexivity).
  erewrite bind_ok by (unfold modifyThis; reflexivity).
  unfold ret. eexists _, _. split; [reflexivity|].
  subst record. subst sD.
  cbn [this levels accountTries knownAddresses stateRootIndex accounts] in *.
  split; [exact Hget|]. split; [exact Hlast|].
  split; [|split; [reflexivity|split; [|split; [exact Hothers|split; [exact Hok'|split]]]]].
  - intros w Hw. rewrite TrieLevel_get_run. destruct (Hnodes w Hw) as (w' & Hval & Hw').
    exists w'. split; [|exact Hw']. unfold readKey in *. cbn [levels] in *.
    rewrite Hval. reflexivity.
  - eexists _, _. split; [|split].
    + apply (getAccountRecord_run fromHexString openLatency Address_fromString accountExists
               getAccountAt fromHexString_toHexString _ a); [exact Hok'|exact Hhash'|exact Ha].
    + exact Hsorted.
    + reflexivity.
  - exact Hhash'.
  - exact Hopen'.
Qed.

(** X21: with the registry in order, its roots and the state root 32 bytes
    long, its databases open, the bytes of an address and a proof that
    verifies, [updateAccount] returns the trie; every proof node can then be
    read in the root's database under its hash; the root is registered with
    that database and has moved to the end of the registry; the address is
    known; the index has been updated with the roots of the address's
    record, sorted; registrations of other roots are as before. *)
Theorem updateAccount_valid_proof (stateRoot addr : bytes) (a : Address)
    (witnesses : list bytes) s :
  registryOk (this s) -> rootsAreHashes (this s) -> registryOpen s ->
  length stateRoot = 32%nat -> Address_fromString (toHexString addr) = Ok a ->
  verifyProof stateRoot addr witnesses = true ->
  exists trie s',
    updateAccount StateRootIndex_update fromHexString openLatency verifyProof keccak256
      EMPTY_TRIE_ROOT Address_fromString accountExists getAccountAt stateRoot addr witnesses s =
      Some (Ok trie, s') /\
    JS.get (toHexString stateRoot) (accountTries (this s')) = Some (trie_database trie) /\
    last (JS.keys (accountTries (this s'))) = Some (toHexString stateRoot) /\
    (forall w, w ∈ witnesses ->
       exists w',
         TrieLevel_get fromHexString (trie_database trie) (keccak256 w) s' =
           Some (Ok (Some w'), s') /\
         keccak256 w' = keccak256 w) /\
    knownAddresses (this s') = JS.add (toHexString addr) (knownAddresses (this s)) /\
    (exists record sorted,
       getAccountRecord fromHexString openLatency Address_fromString accountExists getAccountAt
         (toHexString addr) s' = Some (Ok record, s') /\
       sortAccountRecord record = Ok sorted /\
       stateRootIndex (this s') =
         StateRootIndex_update (stateRootIndex (this s)) [JS.keys (accounts sorted)]) /\
    (forall other, other <> stateRoot ->
       JS.get (toHexString other) (accountTries (this s')) =
         JS.get (toHexString other) (accountTries (this s))).
Proof.
  intros Hok Hhash Hopen H32 Ha _.
  destruct (updateAccount_run stateRoot addr a witnesses s Hok Hhash Hopen H32 Ha)
    as (trie & s' & Hrun & Hget & Hlast & Hnodes & Hknown & Hindex & Hothers & _).
  exists trie, s'. auto 10.
Qed.

(** C5: the check of the proof is made on the promise that the async
    [verifyProof] returns, not on its outcome, so a proof that does not
    verify is treated as one that does.  With the registry in order, its
    roots and the state root 32 bytes long, its databases open and the bytes
    of an address, the call does not raise 'Invalid account trie proof': it
    returns the trie, having written every proof node to the root's
    database, replaced the root's sublevel, recorded the address and updated
    the state-root index. *)
Theorem updateAccount_invalid_proof (stateRoot addr : bytes) (a : Address)
    (witnesses : list bytes) s :
  registryOk (this s) -> rootsAreHashes (this s) -> registryOpen s ->
  length stateRoot = 32%nat -> Address_fromString (toHexString addr) = Ok a ->
  verifyProof stateRoot addr witnesses = false ->
  exists trie s',
    updateAccount StateRootIndex_update fromHexString openLatency verifyProof keccak256
      EMPTY_TRIE_ROOT Address_fromString accountExists getAccountAt stateRoot addr witnesses s =
      Some (Ok trie, s') /\
    (forall w, w ∈ witnesses ->
       exists w',
         TrieLevel_get fromHexString (trie_database trie) (keccak256 w) s' =
           Some (Ok (Some w'), s') /\
         keccak256 w' = keccak256 w) /\
    JS.get (toHexString stateRoot) (accountTries (this s')) = Some (trie_database trie) /\
    last (JS.keys (accountTries (this s'))) = Some (toHexString stateRoot) /\
    knownAddresses (this s') = JS.add (toHexString addr) (knownAddresses (this s)) /\
    (exists roots,
       stateRootIndex (this s') = StateRootIndex_update (stateRootIndex (this s)) [roots]).
Proof.
  intros Hok Hhash Hopen H32 Ha _.
  destruct (updateAccount_run stateRoot addr a witnesses s Hok Hhash Hopen H32 Ha)
    as (trie & s' & Hrun & Hget & Hlast & Hnodes & Hknown & Hindex & _).
  exists trie, s'. split; [exact Hrun|]. split; [exact Hnodes|]. split; [exact Hget|].
  split; [exact Hlast|]. split; [exact Hknown|].
  destruct Hindex as (record & sorted & _ & _ & Hidx). eauto.
Qed.

Lemma addressesOk_add (x : bytes) (a : Address) (known : list string) :
  Address_fromString (toHexString x) = Ok a ->
  NoDup known /\
  Forall (fun k => (exists bs, k = toHexString bs) /\ exists a, Address_fromString k = Ok a)
         known ->
  NoDup (JS.add (toHexString x) known) /\
  Forall (fun k => (exists bs, k = toHexString bs) /\ exists a, Address_fromString k = Ok a)
         (JS.add (toHexString x) known).
Proof.
  intros Ha [Hnd Hhex]. unfold JS.add.
  destruct (existsb (String.eqb (toHexString x)) known) eqn:E; [auto|]. split.
  - apply NoDup_app. split; [exact Hnd|]. split; [|apply NoDup_singleton].
    intros y Hy Hy'. apply list_elem_of_singleton in Hy'. subst y.
    assert (Hex : existsb (String.eqb (toHexString x)) known = true); [|congruence].
    apply existsb_exists. exists (toHexString x).
    split; [apply list_elem_of_In; exact Hy|apply String.eqb_refl].
  - apply Forall_app. split; [exact Hhex|]. apply Forall_singleton. eauto.
Qed.

(** The run of [updateAccount] on a root that is not 32 bytes long: the
    address and the root are registered before [Trie.create] throws. *)
Lemma updateAccount_short_root (stateRoot addr : bytes) (witnesses : list bytes) s :
  registryOk (this s) -> registryOpen s -> length stateRoot <> 32%nat ->
  exists s1,
    updateAccount StateRootIndex_update fromHexString openLatency verifyProof keccak256
      EMPTY_TRIE_ROOT Address_fromString accountExists getAccountAt stateRoot addr witnesses s =
      Some (Throw "Invalid root length. Roots are 32 bytes", s1) /\
    JS.get (toHexString stateRoot) (accountTries (this s1)) <> None /\
    knownAddresses (this s1) = JS.add (toHexString addr) (knownAddresses (this s)) /\
    stateRootIndex (this s1) = stateRootIndex (this s) /\
    (forall other, other <> stateRoot ->
       JS.get (toHexString other) (accountTries (this s1)) =
         JS.get (toHexString other) (accountTries (this s))) /\
    registryOk (this s1) /\ registryOpen s1.
Proof.
  intros Hok Hopen Hlen.
  unfold updateAccount.
  erewrite bind_ok by (unfold modifyThis; reflexivity).
  set (sA := {| levels := levels s;
                this := {| accountTries := accountTries (this s);
                           knownAddresses := JS.add (toHexString addr) (knownAddresses (this s));
                           stateRootIndex := stateRootIndex (this s) |} |}).
  destruct (getSublevel_cases stateRoot sA Hok Hopen)
    as (sub & lv & tries & Hsub & Hget & _ & Hnd & Hhex & Hothers & _ & Hopen1 & _).
  cbn [sA this knownAddresses stateRootIndex accountTries] in Hsub, Hothers.
  eexists. split.
  - apply bind_throw. unfold getStateTrie. erewrite bind_ok by exact Hsub.
    rewrite (Trie_create_other _ _ Hlen). reflexivity.
  - cbn [this accountTries knownAddresses stateRootIndex].
    split; [rewrite Hget; discriminate|]. split; [reflexivity|]. split; [reflexivity|].
    split; [exact Hothers|]. split; [split; assumption|exact Hopen1].
Qed.

(** One call on a store in order, with a root of 32 bytes, returns and
    leaves a store in order. *)
Lemma updateAccount_step (stateRoot addr : bytes) (a : Address) (witnesses : list bytes) s :
  registryOk (this s) -> rootsAreHashes (this s) -> registryOpen s ->
  addressesOk Address_fromString (this s) -> length stateRoot = 32%nat ->
  Address_fromString (toHexString addr) = Ok a ->
  exists trie s',
    updateAccount StateRootIndex_update fromHexString openLatency verifyProof keccak256
      EMPTY_TRIE_ROOT Address_fromString accountExists getAccountAt stateRoot addr witnesses s =
      Some (Ok trie, s') /\
    registryOk (this s') /\ rootsAreHashes (this s') /\ registryOpen s' /\
    addressesOk Address_fromString (this s').
Proof.
  intros Hok Hhash Hopen Haddr H32 Ha.
  destruct (updateAccount_run stateRoot addr a witnesses s Hok Hhash Hopen H32 Ha)
    as (trie & s' & Hrun & _ & _ & _ & Hknown & _ & _ & Hok' & Hhash' & Hopen').
  exists trie, s'. split; [exact Hrun|]. split; [exact Hok'|]. split; [exact Hhash'|].
  split; [exact Hopen'|].
  unfold addressesOk. rewrite Hknown. apply (addressesOk_add addr a _ Ha). exact Haddr.
Qed.

(** X24: after any calls of [updateAccount] on a new [StateDB] with state
    roots of 32 bytes and the bytes of addresses, whatever the proofs are
    worth, every call has returned its trie and the store is in order: the
    registry's keys are the distinct hex strings of roots of 32 bytes, every
    registered database is open, and the known addresses are the distinct
    hex strings of addresses. *)
Theorem updateAccounts_keep_store_in_order (calls : list (bytes * bytes * list bytes)) :
  Forall (fun call => length call.1.1 = 32%nat /\
                      exists a, Address_fromString (toHexString call.1.2) = Ok a) calls ->
  exists results s',
    updateAccounts StateRootIndex_update fromHexString openLatency
      verifyProof keccak256 EMPTY_TRIE_ROOT Address_fromString accountExists getAccountAt calls
      (newStore StateRootIndex_from) = Some (results, s') /\
    Forall (fun r => exists trie, r = Ok trie) results /\
    length results = length calls /\
    registryOk (this s') /\ rootsAreHashes (this s') /\ registryOpen s' /\
    addressesOk Address_fromString (this s').
Proof.
  assert (Hnew : registryOk (this (newStore StateRootIndex_from)) /\
                 rootsAreHashes (this (newStore StateRootIndex_from)) /\
                 registryOpen (newStore StateRootIndex_from) /\
                 addressesOk Address_fromString (this (newStore StateRootIndex_from))).
  { split; [split; [apply NoDup_nil_2|apply Forall_nil_2]|].
    split; [apply Forall_nil_2|].
    split; [intros k sub H; discriminate H|].
    split; [apply NoDup_nil_2|apply Forall_nil_2]. }
  revert Hnew. generalize (newStore StateRootIndex_from).
  induction calls as [|[[stateRoot addr] witnesses] rest IH];
    intros s (Hok & Hhash & Hopen & Haddr) Hcalls.
  - exists [], s. cbn [updateAccounts].
    split; [reflexivity|]. split; [apply Forall_nil_2|]. split; [reflexivity|]. auto.
  - apply Forall_cons in Hcalls as [[H32 [a Ha]] Hrest]. cbn [fst snd] in H32, Ha.
    destruct (updateAccount_step stateRoot addr a witnesses s Hok Hhash Hopen Haddr H32 Ha)
      as (trie & s1 & Hrun & Hinv).
    destruct (IH s1 Hinv Hrest) as (results & s' & Hruns & Hall & Hlen & Hinv').
    exists (Ok trie :: results), s'. cbn [updateAccounts]. rewrite Hrun, Hruns.
    split; [reflexivity|]. split; [apply Forall_cons; eauto|].
    split; [cbn [length]; rewrite Hlen; reflexivity|exact Hinv'].
Qed.

(** X25: a state root that is not 32 bytes long breaks the database for
    good.  The call of [updateAccount] with it rejects with 'Invalid root
    length', but only after the address has been recorded and the root
    registered; from then on [getAccountRecord] rejects for every address,
    and so does every later [updateAccount], whatever its root. *)
Theorem short_root_breaks_registry (stateRoot addr : bytes) (witnesses : list bytes) s :
  registryOk (this s) -> registryOpen s -> length stateRoot <> 32%nat ->
  exists s1,
    updateAccount StateRootIndex_update fromHexString openLatency verifyProof keccak256
      EMPTY_TRIE_ROOT Address_fromString accountExists getAccountAt stateRoot addr witnesses s =
      Some (Throw "Invalid root length. Roots are 32 bytes", s1) /\
    JS.get (toHexString stateRoot) (accountTries (this s1)) <> None /\
    knownAddresses (this s1) = JS.add (toHexString addr) (knownAddresses (this s)) /\
    (forall address,
       getAccountRecord fromHexString openLatency Address_fromString accountExists getAccountAt address s1 =
         Some (Throw "Invalid root length. Roots are 32 bytes", s1)) /\
    (forall (stateRoot' addr' : bytes) (witnesses' : list bytes),
       exists s2,
         updateAccount StateRootIndex_update fromHexString openLatency verifyProof keccak256
           EMPTY_TRIE_ROOT Address_fromString accountExists getAccountAt stateRoot' addr' witnesses' s1 =
           Some (Throw "Invalid root length. Roots are 32 bytes", s2) /\
         JS.get (toHexString stateRoot) (accountTries (this s2)) <> None).
Proof.
  intros Hok Hopen Hlen.
  destruct (updateAccount_short_root stateRoot addr witnesses s Hok Hopen Hlen)
    as (s1 & Hrun & Hreg & Hknown & _ & _ & Hok1 & Hopen1).
  exists s1. split; [exact Hrun|]. split; [exact Hreg|]. split; [exact Hknown|]. split.
  - intros address. apply (getAccountRecord_short_root stateRoot); assumption.
  - intros stateRoot' addr' witnesses'.
    destruct (decide (length stateRoot' = 32%nat)) as [H32|Hshort].
    + destruct (updateAccount_until_record stateRoot' addr' witnesses' s1 Hok1 Hopen1 H32)
        as (trie' & lv' & tries' & Hrun' & _ & _ & _ & Hothers & _ & Hok' & _).
      cbv zeta in *. rewrite Hrun'.
      assert (Hreg' : JS.get (toHexString stateRoot) tries' <> None).
      { rewrite Hothers by congruence. exact Hreg. }
      eexists. split.
      * apply bind_throw. apply (getAccountRecord_short_root stateRoot); assumption.
      * exact Hreg'.
    + destruct (updateAccount_short_root stateRoot' addr' witnesses' s1 Hok1 Hopen1 Hshort)
        as (s2 & Hrun' & Hreg2 & _ & _ & Hothers & _).
      exists s2. split; [exact Hrun'|].
      destruct (decide (stateRoot = stateRoot')) as [->|Hne]; [exact Hreg2|].
      rewrite Hothers by exact Hne. exact Hreg.
Qed.


(** Once the roots of an address are found, the index is asked for the
    path through the keys of the array of roots. *)
Lemma pathThru_positions (addr : string) s (roots : list bytes) s' :
  _getAddrRoots fromHexString openLatency Address_fromString accountExists addr s =
    Some (Ok roots, s') ->
  getStateRootOrderForAccount Paths StateRootIndex_pathThru fromHexString openLatency
    Address_fromString accountExists addr s =
    Some (Ok (StateRootIndex_pathThru (stateRootIndex (this s'))
                (map (fun i : nat => pretty i) (seq 0 (length roots)))), s').
Proof.
  intros Hroots. unfold getStateRootOrderForAccount.
  erewrite bind_ok by exact Hroots. reflexivity.
Qed.

Lemma positions_are_not_roots (roots : list bytes) :
  roots <> [] ->
  map (fun i : nat => pretty i) (seq 0 (length roots)) <> map toHexString roots.
Proof.
  destruct roots as [|r rest]; [congruence|]. intros _ Heq.
  cbn [length seq map] in Heq. injection Heq as Heq _.
  vm_compute in Heq. discriminate Heq.
Qed.

(** X22: with the registry in order, its roots 32 bytes long, its databases
    open and the string of an address, [getStateRootOrderForAccount] finds
    the roots of the tries that hold the address, leaves the store as it
    was, and asks the index for the path through the positions "0", "1", ...
    of those roots (the keys of the array), where
    [getStateRootOrderContaining] given the same roots asks for the path
    through their hex strings; with at least one root the two questions
    differ. *)
Theorem getStateRootOrderForAccount_passes_positions (addr : string) (a : Address) s :
  registryOk (this s) -> rootsAreHashes (this s) -> registryOpen s ->
  Address_fromString addr = Ok a ->
  exists roots,
    _getAddrRoots fromHexString openLatency Address_fromString accountExists addr s =
      Some (Ok roots, s) /\
    (forall root, root ∈ roots <->
       exists sub,
         JS.get (toHexString root) (accountTries (this s)) = Some sub /\
         accountExists (trieEntries {| trie_database := sub; trie_root := root |} s)
           root a = true) /\
    getStateRootOrderForAccount Paths StateRootIndex_pathThru fromHexString openLatency
      Address_fromString accountExists addr s =
      Some (Ok (StateRootIndex_pathThru (stateRootIndex (this s))
                  (map (fun i : nat => pretty i) (seq 0 (length roots)))), s) /\
    getStateRootOrderContaining Paths StateRootIndex_pathThru roots s =
      Some (Ok (StateRootIndex_pathThru (stateRootIndex (this s))
                  (map toHexString roots)), s) /\
    (roots <> [] ->
     map (fun i : nat => pretty i) (seq 0 (length roots)) <> map toHexString roots).
Proof.
  intros Hok Hhash _ Ha.
  pose proof (getAddrRoots_run fromHexString openLatency Address_fromString accountExists
                fromHexString_toHexString addr a s Hok Hhash Ha) as Hroots.
  eexists. split; [exact Hroots|]. split; [|split; [|split]].
  - intros root. rewrite list_elem_of_fmap. split.
    + intros ([k sub] & -> & Hin). apply filter_elem_of in Hin as [Hin Hholds].
      destruct Hok as [Hnd Hhex]. rewrite Forall_forall in Hhex.
      assert (Hkey : k ∈ JS.keys (accountTries (this s))).
      { apply list_elem_of_fmap. exists (k, sub). split; [reflexivity|exact Hin]. }
      destruct (Hhex k Hkey) as [r ->].
      unfold holdsAccount, trieOf in *. cbn [fst snd trie_root trie_database] in *.
      rewrite fromHexString_toHexString in *. exists sub. split; [|exact Hholds].
      apply get_entry; [exact Hnd|exact Hin].
    + intros (sub & Hget & Hholds). exists (toHexString root, sub).
      unfold trieOf. cbn [fst snd trie_root]. rewrite fromHexString_toHexString.
      split; [reflexivity|]. apply list_elem_of_In, filter_In. split.
      * apply list_elem_of_In, get_Some_elem_of. exact Hget.
      * unfold holdsAccount, trieOf. cbn [fst snd trie_root trie_database].
        rewrite fromHexString_toHexString. exact Hholds.
  - apply pathThru_positions. exact Hroots.
  - reflexivity.
  - apply positions_are_not_roots.
Qed.

Lemma sortAll_returns (records : list AccountRecord) :
  Forall (fun r => NoDup (JS.keys (accounts r))) records ->
  exists sorted,
    sortAll records = Ok sorted /\
    Forall2 (fun r r' => sortAccountRecord r = Ok r') records sorted.
Proof.
  induction records as [|r records IH]; intros Hnd.
  - exists []. split; [reflexivity|constructor].
  - apply Forall_cons in Hnd as [Hr Hrest].
    destruct (sortAccountRecord_returns r Hr) as (l & Hl & _).
    destruct (IH Hrest) as (sorted & Hsorted & Hall).
    eexists. cbn [sortAll]. rewrite Hl, Hsorted. split; [reflexivity|].
    constructor; assumption.
Qed.

(** X23: with the registry in order, its roots 32 bytes long, its databases
    open and the known addresses the distinct hex strings of addresses,
    [setStateRootIndex] rebuilds the index from one list of roots per known
    address, in the order the addresses became known: the roots of the
    address's account record after sorting; nothing else in the store
    changes. *)
Theorem setStateRootIndex_rebuilds s :
  registryOk (this s) -> rootsAreHashes (this s) -> registryOpen s ->
  addressesOk Address_fromString (this s) ->
  exists lists,
    setStateRootIndex StateRootIndex_from fromHexString openLatency Address_fromString
      accountExists getAccountAt s =
      Some (Ok tt,
            {| levels := levels s;
               this := {| accountTries := accountTries (this s);
                          knownAddresses := knownAddresses (this s);
                          stateRootIndex := StateRootIndex_from lists |} |}) /\
    Forall2
      (fun addr roots =>
         exists record sorted,
           getAccountRecord fromHexString openLatency Address_fromString accountExists
             getAccountAt addr s = Some (Ok record, s) /\
           sortAccountRecord record = Ok sorted /\
           roots = JS.keys (accounts sorted))
      (knownAddresses (this s)) lists.
Proof.
  intros Hok Hhash _ [Hknown Hvalid]. rewrite Forall_forall in Hvalid.
  set (recordFor := fun addr : string =>
         match Address_fromString addr with
         | Ok a => recordOf fromHexString accountExists getAccountAt s addr a
         | Throw _ => {| address := addr; accounts := [] |}
         end).
  assert (Hrecord : forall addr, addr ∈ knownAddresses (this s) ->
            getAccountRecord fromHexString openLatency Address_fromString accountExists
              getAccountAt addr s = Some (Ok (recordFor addr), s)).
  { intros addr Hin. destruct (Hvalid addr Hin) as (_ & a & Ha).
    subst recordFor. cbv beta. rewrite Ha.
    apply getAccountRecord_run; assumption. }
  assert (HbyAddr : exists byAddr,
            rootsByAddr fromHexString openLatency Address_fromString accountExists s =
              Some (Ok byAddr, s) /\
            JS.keys byAddr = knownAddresses (this s)).
  { unfold rootsByAddr.
    assert (Hroots : forall l, (forall addr, addr ∈ l -> addr ∈ knownAddresses (this s)) ->
              exists entries,
                mapRun (fun addr =>
                          bind (_getAddrRoots fromHexString openLatency Address_fromString
                                  accountExists addr)
                               (fun roots => ret (addr, roots))) l s =
                  Some (Ok entries, s) /\
                JS.keys entries = l).
    { induction l as [|addr l IH]; intros Hl.
      - exists []. split; reflexivity.
      - destruct (Hvalid addr (Hl addr ltac:(left))) as (_ & a & Ha).
        destruct IH as (entries & Hrun & Hkeys); [intros x Hx; apply Hl; right; exact Hx|].
        eexists. cbn [mapRun].
        erewrite bind_ok
          by (erewrite bind_ok
                by (apply (getAddrRoots_run fromHexString openLatency Address_fromString
                             accountExists fromHexString_toHexString addr a); assumption);
              reflexivity).
        erewrite bind_ok by exact Hrun. unfold ret. split; [reflexivity|].
        cbn [JS.keys map fst]. unfold JS.keys in Hkeys. rewrite Hkeys. reflexivity. }
    destruct (Hroots (knownAddresses (this s))) as (entries & Hrun & Hkeys); [auto|].
    erewrite bind_ok by exact Hrun.
    exists (JS.fromEntries entries). unfold ret.
    rewrite fromEntries_NoDup by (rewrite Hkeys; exact Hknown).
    split; [reflexivity|exact Hkeys]. }
  destruct HbyAddr as (byAddr & HbyAddr & Hkeys).
  assert (Hrecords : getAllAccountRecords fromHexString openLatency Address_fromString
                       accountExists getAccountAt s =
                     Some (Ok (map recordFor (knownAddresses (this s))), s)).
  { unfold getAllAccountRecords. erewrite bind_ok by exact HbyAddr.
    cbv beta. rewrite Hkeys.
    rewrite <- (map_id (knownAddresses (this s))) at 1.
    apply (mapRun_unchanged _ id recordFor). intros addr Hin. apply Hrecord. exact Hin. }
  destruct (sortAll_returns (map recordFor (knownAddresses (this s))))
    as (sorted & Hsorted & Hall).
  { apply Forall_fmap, Forall_forall. intros addr Hin. unfold compose. cbv beta.
    destruct (Hvalid addr Hin) as (_ & a & Ha). subst recordFor. cbv beta. rewrite Ha.
    unfold recordOf. cbn [accounts]. unfold JS.keys. rewrite map_map. cbn [recordEntry fst].
    apply (NoDup_keys_filter _ _ (proj1 Hok)). }
  exists (map (fun account => JS.keys (accounts account)) sorted).
  unfold setStateRootIndex. erewrite bind_ok by exact Hrecords.
  rewrite Hsorted. cbn [liftResult]. erewrite bind_ok by (unfold ret; reflexivity).
  split; [reflexivity|].
  apply Forall2_fmap_l in Hall.
  assert (Hgen : forall l sorted',
            Forall2 (fun addr r' => sortAccountRecord (recordFor addr) = Ok r') l sorted' ->
            (forall addr, addr ∈ l -> addr ∈ knownAddresses (this s)) ->
            Forall2
              (fun addr roots =>
                 exists record sorted0,
                   getAccountRecord fromHexString openLatency Address_fromString accountExists
                     getAccountAt addr s = Some (Ok record, s) /\
                   sortAccountRecord record = Ok sorted0 /\
                   roots = JS.keys (accounts sorted0))
              l (map (fun account => JS.keys (accounts account)) sorted')).
  { intros l sorted' H. induction H as [|addr r' l sorted' Hr' _ IH]; intros Hl; [constructor|].
    cbn [map]. constructor.
    - eexists _, r'. split; [apply Hrecord; apply Hl; left|]. split; [exact Hr'|reflexivity].
    - apply IH. intros x Hx. apply Hl. right. exact Hx. }
  apply Hgen; [exact Hall|auto].
Qed.
End Update.

End StateDBUpdateFacts.

(** Runs of the state database on the sample instance. *)
Module StateDBWitness.
Import StateDatabase StateDatabaseMore HexFacts.
Import TrieLevelFacts StateDBRegistryFacts StateDBUpdateFacts.

(** A store with one open database and nothing registered. *)
Local Abbreviation oneLevel :=
  ({| levels := [opened]; this := this Sample.emptyStore |} : @Store Sample.Index).

(** Two state roots and the hex string of an address of 20 bytes. *)
Local Abbreviation root1 := (Sample.root32 x01).
Local Abbreviation root3 := (Sample.root32 x03).
Local Abbreviation address2 := (repeat x02 20).

Lemma emptyStore_registryOk : registryOk (this Sample.emptyStore).
Proof. split; [apply NoDup_nil_2|apply Forall_nil_2]. Qed.

Lemma emptyStore_rootsAreHashes : rootsAreHashes (this Sample.emptyStore).
Proof. apply Forall_nil_2. Qed.

Lemma emptyStore_registryOpen : registryOpen Sample.emptyStore.
Proof. intros k sub H. discriminate H. Qed.

Lemma trieLevel_put_get_del_witness :
  (forall bs, strictHexToBytes (toHexString bs) = Ok bs) /\
  TrieLevel_status {| level_db := 0 |} oneLevel = Some Open /\
  exists s1 s2,
    TrieLevel_put {| level_db := 0 |} [x01] [xbe] oneLevel = Some (Ok tt, s1) /\
    TrieLevel_get strictHexToBytes {| level_db := 0 |} [x01] s1 = Some (Ok (Some [xbe]), s1) /\
    TrieLevel_del {| level_db := 0 |} [x01] s1 = Some (Ok tt, s2) /\
    TrieLevel_get strictHexToBytes {| level_db := 0 |} [x01] s2 = Some (Ok None, s2).
Proof.
  split; [exact strictHexToBytes_toHexString|].
  assert (Hl : TrieLevel_status {| level_db := 0 |} oneLevel = Some Open) by reflexivity.
  split; [exact Hl|].
  destruct (trieLevel_put_get_del (StateRootIndex:=Sample.Index) strictHexToBytes
              strictHexToBytes_toHexString {| level_db := 0 |} [x01] [xbe] oneLevel Hl)
    as (s1 & s2 & H1 & H2 & H3 & H4 & _).
  exists s1, s2. auto.
Defined.

Lemma trieLevel_batch_last_wins_witness :
  (forall bs, strictHexToBytes (toHexString bs) = Ok bs) /\
  TrieLevel_status {| level_db := 0 |} oneLevel = Some Open /\
  exists s',
    TrieLevel_batch {| level_db := 0 |}
      [OpPut [x01] [xaa]; OpPut [x02] [xbb]; OpDel [x01]; OpPut [x02] [xcc]] oneLevel =
      Some (Ok tt, s') /\
    TrieLevel_get strictHexToBytes {| level_db := 0 |} [x01] s' = Some (Ok None, s') /\
    TrieLevel_get strictHexToBytes {| level_db := 0 |} [x02] s' = Some (Ok (Some [xcc]), s').
Proof.
  split; [exact strictHexToBytes_toHexString|].
  assert (Hl : TrieLevel_status {| level_db := 0 |} oneLevel = Some Open) by reflexivity.
  split; [exact Hl|].
  destruct (trieLevel_batch_last_wins (StateRootIndex:=Sample.Index) strictHexToBytes
              strictHexToBytes_toHexString {| level_db := 0 |}
              [OpPut [x01] [xaa]; OpPut [x02] [xbb]; OpDel [x01]; OpPut [x02] [xcc]]
              oneLevel Hl) as (s' & Hrun & _ & _ & Hread).
  exists s'. split; [exact Hrun|]. split.
  - exact (Hread [x01] None eq_refl).
  - exact (Hread [x02] None eq_refl).
Defined.

Lemma sublevel_registry_laws_witness :
  registryOk (this Sample.emptyStore) /\
  exists s1 s2,
    putSublevel root1 {| level_db := 7 |} Sample.emptyStore =
      Some (Ok {| level_db := 7 |}, s1) /\
    getSublevel (fun _ => 2%nat) root1 s1 = Some (Ok {| level_db := 7 |}, s1) /\
    delSublevel root1 s1 = Some (Ok tt, s2) /\
    JS.get (toHexString root1) (accountTries (this s2)) = None.
Proof.
  split; [exact emptyStore_registryOk|].
  destruct (sublevel_registry_laws (StateRootIndex:=Sample.Index) (fun _ => 2%nat) root1
              {| level_db := 7 |} Sample.emptyStore emptyStore_registryOk)
    as (s1 & s2 & H1 & H2 & H3 & H4 & _).
  exists s1, s2. auto.
Defined.

Lemma getSublevel_idempotent_witness :
  exists sub s1,
    getSublevel (fun _ => 2%nat) root1 Sample.emptyStore = Some (Ok sub, s1) /\
    getSublevel (fun _ => 2%nat) root1 s1 = Some (Ok sub, s1) /\
    length (levels s1) = 1%nat.
Proof.
  eexists _, _.
  assert (Hrun : getSublevel (fun _ => 2%nat) root1 Sample.emptyStore =
                 Some (Ok {| level_db := 0 |},
                       {| levels := [opened];
                          this := {| accountTries := [(toHexString root1, {| level_db := 0 |})];
                                     knownAddresses := [];
                                     stateRootIndex := [] |} |})) by reflexivity.
  split; [exact Hrun|]. split; [|reflexivity].
  exact (proj1 (getSublevel_idempotent (StateRootIndex:=Sample.Index) (fun _ => 2%nat) root1
                  Sample.emptyStore _ _ Hrun)).
Defined.

(** The store after an update of the address under the first root. *)
Local Abbreviation oneRoot :=
  ({| levels := [opened];
      this := {| accountTries := [(toHexString root1, {| level_db := 0 |})];
                 knownAddresses := [toHexString address2];
                 stateRootIndex := [] |} |} : @Store Sample.Index).

Lemma oneRoot_registryOk : registryOk (this oneRoot).
Proof.
  split; cbn [this accountTries JS.keys map fst].
  - apply NoDup_singleton.
  - apply Forall_singleton. exists root1. reflexivity.
Qed.

Lemma oneRoot_rootsAreHashes : rootsAreHashes (this oneRoot).
Proof.
  unfold rootsAreHashes. cbn [this accountTries JS.keys map fst].
  apply Forall_singleton. exists root1. split; reflexivity.
Qed.

Lemma oneRoot_registryOpen : registryOpen oneRoot.
Proof.
  intros k sub. cbn [this accountTries JS.get].
  destruct (String.eqb k (toHexString root1)); [|discriminate]. intros [= <-]. reflexivity.
Qed.

Lemma address2_parses : Sample.addressFromString (toHexString address2) = Ok address2.
Proof. reflexivity. Qed.

Lemma oneRoot_addressesOk : addressesOk Sample.addressFromString (this oneRoot).
Proof.
  split; cbn [this knownAddresses].
  - apply NoDup_singleton.
  - apply Forall_singleton. split; exists address2; reflexivity.
Qed.

Lemma getAccountRecord_reads_registry_witness :
  (forall bs, strictHexToBytes (toHexString bs) = Ok bs) /\
  registryOk (this oneRoot) /\ rootsAreHashes (this oneRoot) /\ registryOpen oneRoot /\
  Sample.addressFromString (toHexString address2) = Ok address2 /\
  exists record,
    getAccountRecord strictHexToBytes (fun _ => 2%nat) Sample.addressFromString
      (fun _ _ _ => true) (fun _ _ _ => Sample.noAccount) (toHexString address2) oneRoot =
      Some (Ok record, oneRoot) /\
    JS.get (toHexString root1) (accounts record) = Some Sample.noAccount.
Proof.
  split; [exact strictHexToBytes_toHexString|]. split; [exact oneRoot_registryOk|].
  split; [exact oneRoot_rootsAreHashes|]. split; [exact oneRoot_registryOpen|].
  split; [exact address2_parses|].
  destruct (getAccountRecord_reads_registry (StateRootIndex:=Sample.Index) strictHexToBytes
              (fun _ => 2%nat) Sample.addressFromString (fun _ _ _ => true)
              (fun _ _ _ => Sample.noAccount) strictHexToBytes_toHexString
              (toHexString address2) address2 oneRoot oneRoot_registryOk
              oneRoot_rootsAreHashes oneRoot_registryOpen address2_parses)
    as (record & Hrun & _ & _ & _ & Hget).
  exists record. split; [exact Hrun|].
  exact (Hget root1 {| level_db := 0 |} eq_refl).
Defined.

Lemma updateAccount_valid_proof_witness :
  (forall bs, strictHexToBytes (toHexString bs) = Ok bs) /\
  registryOk (this Sample.emptyStore) /\ rootsAreHashes (this Sample.emptyStore) /\
  registryOpen Sample.emptyStore /\ length root1 = 32%nat /\
  Sample.addressFromString (toHexString address2) = Ok address2 /\
  Sample.verifyProof root1 address2 [[x0a]] = true /\
  exists trie s',
    Sample.update root1 address2 [[x0a]] Sample.emptyStore = Some (Ok trie, s') /\
    JS.get (toHexString root1) (accountTries (this s')) = Some (trie_database trie) /\
    knownAddresses (this s') = [toHexString address2] /\
    exists w',
      TrieLevel_get strictHexToBytes (trie_database trie) [x0a] s' =
        Some (Ok (Some w'), s').
Proof.
  split; [exact strictHexToBytes_toHexString|]. split; [exact emptyStore_registryOk|].
  split; [exact emptyStore_rootsAreHashes|]. split; [exact emptyStore_registryOpen|].
  split; [reflexivity|]. split; [exact address2_parses|]. split; [reflexivity|].
  destruct (updateAccount_valid_proof (StateRootIndex:=Sample.Index) Sample.indexUpdate
              strictHexToBytes (fun _ => 2%nat) Sample.verifyProof (fun b => b) []
              Sample.addressFromString (fun _ _ _ => false) (fun _ _ _ => Sample.noAccount)
              strictHexToBytes_toHexString root1 address2 address2 [[x0a]] Sample.emptyStore
              emptyStore_registryOk emptyStore_rootsAreHashes emptyStore_registryOpen
              eq_refl address2_parses eq_refl)
    as (trie & s' & Hrun & Hget & _ & Hnodes & Hknown & _).
  exists trie, s'. split; [exact Hrun|]. split; [exact Hget|]. split; [exact Hknown|].
  destruct (Hnodes [x0a]) as (w' & Hw' & _); [left|]. exists w'. exact Hw'.
Defined.

(** The failing input of C5: a state root of 32 bytes, an address and a
    proof of one node, with a verifier that no proof satisfies. *)
Lemma updateAccount_invalid_proof_witness :
  (forall bs, strictHexToBytes (toHexString bs) = Ok bs) /\
  registryOk (this Sample.emptyStore) /\ rootsAreHashes (this Sample.emptyStore) /\
  registryOpen Sample.emptyStore /\ length root1 = 32%nat /\
  Sample.addressFromString (toHexString address2) = Ok address2 /\
  exists trie s',
    updateAccount Sample.indexUpdate strictHexToBytes (fun _ => 2%nat) (fun _ _ _ => false)
      (fun b => b) [] Sample.addressFromString (fun _ _ _ => false)
      (fun _ _ _ => Sample.noAccount)
      root1 address2 [[x0a]] Sample.emptyStore = Some (Ok trie, s') /\
    TrieLevel_get strictHexToBytes (trie_database trie) [x0a] s' =
      Some (Ok (Some [x0a]), s') /\
    accountTries (this s') = [(toHexString root1, trie_database trie)] /\
    knownAddresses (this s') = [toHexString address2] /\
    stateRootIndex (this s') = [[]] /\
    this s' <> this Sample.emptyStore.
Proof.
  split; [exact strictHexToBytes_toHexString|]. split; [exact emptyStore_registryOk|].
  split; [exact emptyStore_rootsAreHashes|]. split; [exact emptyStore_registryOpen|].
  split; [reflexivity|]. split; [exact address2_parses|].
  destruct (updateAccount_invalid_proof (StateRootIndex:=Sample.Index) Sample.indexUpdate
              strictHexToBytes (fun _ => 2%nat) (fun _ _ _ => false) (fun b => b) []
              Sample.addressFromString (fun _ _ _ => false) (fun _ _ _ => Sample.noAccount)
              strictHexToBytes_toHexString root1 address2 address2 [[x0a]] Sample.emptyStore
              emptyStore_registryOk emptyStore_rootsAreHashes emptyStore_registryOpen
              eq_refl address2_parses eq_refl)
    as (trie & s' & Hrun & _).
  vm_compute in Hrun. injection Hrun as <- <-.
  eexists _, _. split; [vm_compute; reflexivity|].
  split; [vm_compute; reflexivity|]. split; [vm_compute; reflexivity|].
  split; [vm_compute; reflexivity|]. split; [vm_compute; reflexivity|].
  intros H. apply (f_equal knownAddresses) in H. vm_compute in H. discriminate H.
Defined.

Lemma getStateRootOrderForAccount_passes_positions_witness :
  (forall bs, strictHexToBytes (toHexString bs) = Ok bs) /\
  registryOk (this oneRoot) /\ rootsAreHashes (this oneRoot) /\ registryOpen oneRoot /\
  Sample.addressFromString (toHexString address2) = Ok address2 /\
  _getAddrRoots strictHexToBytes (fun _ => 2%nat) Sample.addressFromString
    (fun _ _ _ => true) (toHexString address2) oneRoot = Some (Ok [root1], oneRoot) /\
  getStateRootOrderForAccount (list string) (fun _ path => path) strictHexToBytes
    (fun _ => 2%nat) Sample.addressFromString (fun _ _ _ => true) (toHexString address2)
    oneRoot =
    Some (Ok ["0"], oneRoot) /\
  getStateRootOrderContaining (list string) (fun _ path => path) [root1] oneRoot =
    Some (Ok [toHexString root1], oneRoot).
Proof.
  split; [exact strictHexToBytes_toHexString|]. split; [exact oneRoot_registryOk|].
  split; [exact oneRoot_rootsAreHashes|]. split; [exact oneRoot_registryOpen|].
  split; [exact address2_parses|].
  destruct (getStateRootOrderForAccount_passes_positions (StateRootIndex:=Sample.Index)
              (list string) (fun _ path => path) strictHexToBytes (fun _ => 2%nat)
              Sample.addressFromString (fun _ _ _ => true) strictHexToBytes_toHexString
              (toHexString address2) address2 oneRoot oneRoot_registryOk
              oneRoot_rootsAreHashes oneRoot_registryOpen address2_parses)
    as (roots & Hroots & _ & Hfor & Hcontaining & _).
  assert (Hone : roots = [root1]).
  { assert (Hrun : _getAddrRoots strictHexToBytes (fun _ => 2%nat) Sample.addressFromString
                     (fun _ _ _ => true) (toHexString address2) oneRoot =
                   Some (Ok [root1], oneRoot)) by (vm_compute; reflexivity).
    rewrite Hrun in Hroots. injection Hroots as Hroots. symmetry. exact Hroots. }
  subst roots.
  split; [exact Hroots|]. split; [exact Hfor|exact Hcontaining].
Defined.

Lemma setStateRootIndex_rebuilds_witness :
  (forall bs, strictHexToBytes (toHexString bs) = Ok bs) /\
  registryOk (this oneRoot) /\ rootsAreHashes (this oneRoot) /\ registryOpen oneRoot /\
  addressesOk Sample.addressFromString (this oneRoot) /\
  exists lists,
    setStateRootIndex (fun paths : list (list string) => paths) strictHexToBytes
      (fun _ => 2%nat) Sample.addressFromString (fun _ _ _ => true)
      (fun _ _ _ => Sample.noAccount) oneRoot =
      Some (Ok tt,
            {| levels := levels oneRoot;
               this := {| accountTries := accountTries (this oneRoot);
                          knownAddresses := knownAddresses (this oneRoot);
                          stateRootIndex := lists |} |}) /\
    length lists = 1%nat.
Proof.
  split; [exact strictHexToBytes_toHexString|]. split; [exact oneRoot_registryOk|].
  split; [exact oneRoot_rootsAreHashes|]. split; [exact oneRoot_registryOpen|].
  split; [exact oneRoot_addressesOk|].
  destruct (setStateRootIndex_rebuilds (StateRootIndex:=Sample.Index)
              (fun paths : list (list string) => paths) strictHexToBytes (fun _ => 2%nat)
              Sample.addressFromString (fun _ _ _ => true) (fun _ _ _ => Sample.noAccount)
              strictHexToBytes_toHexString oneRoot oneRoot_registryOk oneRoot_rootsAreHashes
              oneRoot_registryOpen oneRoot_addressesOk)
    as (lists & Hrun & Hall).
  exists lists. split; [exact Hrun|].
  apply Forall2_length in Hall. symmetry. exact Hall.
Defined.

Lemma updateAccounts_keep_store_in_order_witness :
  (forall bs, strictHexToBytes (toHexString bs) = Ok bs) /\
  Forall (fun call : bytes * bytes * list bytes =>
            length call.1.1 = 32%nat /\
            exists a, Sample.addressFromString (toHexString call.1.2) = Ok a)
    [(root1, address2, [[x0a]]); (root3, address2, [])] /\
  exists results s',
    updateAccounts Sample.indexUpdate strictHexToBytes (fun _ => 2%nat) Sample.verifyProof
      (fun b => b) [] Sample.addressFromString (fun _ _ _ => false)
      (fun _ _ _ => Sample.noAccount)
      [(root1, address2, [[x0a]]); (root3, address2, [])]
      (newStore (fun paths : list (list string) => paths)) = Some (results, s') /\
    length results = 2%nat /\
    registryOk (this s') /\ rootsAreHashes (this s') /\ registryOpen s' /\
    addressesOk Sample.addressFromString (this s').
Proof.
  split; [exact strictHexToBytes_toHexString|].
  assert (Hcalls : Forall (fun call : bytes * bytes * list bytes =>
                             length call.1.1 = 32%nat /\
                             exists a, Sample.addressFromString (toHexString call.1.2) = Ok a)
                     [(root1, address2, [[x0a]]); (root3, address2, [])]).
  { apply Forall_cons. split; [split; [reflexivity|exists address2; reflexivity]|].
    apply Forall_cons. split; [split; [reflexivity|exists address2; reflexivity]|].
    apply Forall_nil_2. }
  split; [exact Hcalls|].
  destruct (updateAccounts_keep_store_in_order (StateRootIndex:=Sample.Index)
              (fun paths : list (list string) => paths) Sample.indexUpdate strictHexToBytes
              (fun _ => 2%nat) Sample.verifyProof (fun b => b) [] Sample.addressFromString
              (fun _ _ _ => false) (fun _ _ _ => Sample.noAccount)
              strictHexToBytes_toHexString
              [(root1, address2, [[x0a]]); (root3, address2, [])] Hcalls)
    as (results & s' & Hrun & _ & Hlen & Hinv).
  exists results, s'. auto.
Defined.

Lemma short_root_breaks_registry_witness :
  (forall bs, strictHexToBytes (toHexString bs) = Ok bs) /\
  registryOk (this Sample.emptyStore) /\ registryOpen Sample.emptyStore /\
  length [x01] <> 32%nat /\
  exists s1 s2,
    Sample.update [x01] address2 [[x0a]] Sample.emptyStore =
      Some (Throw "Invalid root length. Roots are 32 bytes", s1) /\
    accountTries (this s1) = [("0x01", {| level_db := 0 |})] /\
    Sample.update root1 address2 [[x0a]] s1 =
      Some (Throw "Invalid root length. Roots are 32 bytes", s2).
Proof.
  split; [exact strictHexToBytes_toHexString|]. split; [exact emptyStore_registryOk|].
  split; [exact emptyStore_registryOpen|].
  assert (Hlen : length [x01] <> 32%nat) by discriminate.
  split; [exact Hlen|].
  destruct (short_root_breaks_registry (StateRootIndex:=Sample.Index) Sample.indexUpdate
              strictHexToBytes (fun _ => 2%nat) Sample.verifyProof (fun b => b) []
              Sample.addressFromString (fun _ _ _ => false) (fun _ _ _ => Sample.noAccount)
              strictHexToBytes_toHexString [x01] address2 [[x0a]] Sample.emptyStore
              emptyStore_registryOk emptyStore_registryOpen Hlen)
    as (s1 & Hrun & _ & _ & _ & Hlater).
  destruct (Hlater root1 address2 [[x0a]]) as (s2 & Hrun2 & _).
  exists s1, s2. split; [exact Hrun|]. split; [|exact Hrun2].
  vm_compute in Hrun. injection Hrun as <-. reflexivity.
Defined.

End StateDBWitness.
